(** * A shallow embedding of [lib/schedule_scraper.py]

    The scraper resolves a tournament id, lists the divisions of the
    tournament, pages through the matches of every division and writes one
    CSV row per match.  This file embeds the functions of the module as Rocq
    functions and proves (or refutes) the properties its specification states.

    Conventions of the embedding:
    - a Python [str] is a [string]; one [ascii] stands for one code point below
      256, and the character classes ([str.isspace], the regex class [\d],
      the white space [int] accepts) are the ones CPython has on these code
      points;
    - a value decoded from JSON is a [json]; Python's [None] is [JNull];
    - code that raises is a computation of type [res A]; code with effects
      (HTTP requests, [time.sleep], [sys.stderr], the CSV writer) is a
      function on a [World] that records every effect in a trace;
    - the two [while True] loops run on fuel; [OutOfFuel] is a result of its
      own and the theorems say when it cannot occur.

    Left out of the embedding: the text of the CSV file and of the lines on
    [stderr] (the trace records which row or message is written), failures of
    the file system, and the interpreter's limit on the number of digits [int]
    converts. *)

From Stdlib Require Import ZArith QArith List Bool Lia.
From Stdlib Require Import Strings.String Strings.Ascii.
From Stdlib Require Import Numbers.DecimalString.
From Stdlib Require Import Floats.SpecFloat.
From Stdlib Require Numbers.DecimalPos Numbers.DecimalZ.
Import ListNotations.

Open Scope string_scope.
Open Scope Z_scope.

(** ** Characters and strings *)

Module PyStr.

Definition code (c : ascii) : N := N_of_ascii c.

(** [str.isspace] on the code points below 256: TAB..CR, FS..US, SPACE,
    NEL (0x85) and NBSP (0xA0). *)
Definition isspace (c : ascii) : bool :=
  let n := code c in
  ((9 <=? n) && (n <=? 13) || (28 <=? n) && (n <=? 32)
   || (n =? 133) || (n =? 160))%N.

(** The regex class [\d] on the code points below 256: the ten ASCII
    digits (the superscript digits are not decimal digits). *)
Definition isdigit (c : ascii) : bool :=
  let n := code c in ((48 <=? n) && (n <=? 57))%N.

Definition digit_value (c : ascii) : Z := Z.of_N (code c) - 48.

Definition is_empty (s : string) : bool :=
  match s with EmptyString => true | String _ _ => false end.

Fixpoint lstrip (s : string) : string :=
  match s with
  | EmptyString => EmptyString
  | String c s' => if isspace c then lstrip s' else s
  end.

Fixpoint rstrip (s : string) : string :=
  match s with
  | EmptyString => EmptyString
  | String c s' =>
      let r := rstrip s' in
      if isspace c && is_empty r then EmptyString else String c r
  end.

(** [s.strip()] *)
Definition strip (s : string) : string := lstrip (rstrip s).

Fixpoint all_chars (p : ascii -> bool) (s : string) : bool :=
  match s with
  | EmptyString => true
  | String c s' => p c && all_chars p s'
  end.

(** [re.fullmatch(r"\d+", s)] as a truth value *)
Definition fullmatch_digits (s : string) : bool :=
  negb (is_empty s) && all_chars isdigit s.

(** The value of a string of decimal digits, most significant first. *)
Fixpoint decimal_acc (acc : Z) (s : string) : Z :=
  match s with
  | EmptyString => acc
  | String c s' => decimal_acc (10 * acc + digit_value c) s'
  end.

Definition decimal (s : string) : Z := decimal_acc 0 s.

(** [str(n)] for an integer [n] *)
Definition of_Z (z : Z) : string := NilEmpty.string_of_int (Z.to_int z).

Definition first_char (s : string) : option ascii :=
  match s with EmptyString => None | String c _ => Some c end.

Fixpoint last_char (s : string) : option ascii :=
  match s with
  | EmptyString => None
  | String c EmptyString => Some c
  | String _ s' => last_char s'
  end.

(** A string is trimmed when it neither starts nor ends with white space. *)
Definition trimmed (s : string) : Prop :=
  (forall c, first_char s = Some c -> isspace c = false) /\
  (forall c, last_char s = Some c -> isspace c = false).

End PyStr.

(** ** [int(s)] for a string

    CPython skips white space on both sides, reads an optional sign and then
    decimal digits in which single underscores may separate digits.  The
    white space it skips is not the one [str.strip] removes: the separators
    FS, GS, RS and US (0x1C..0x1F) are white space for [str.isspace] and are
    rejected by [int]. *)

Module PyInt.
Import PyStr.

Definition int_space (c : ascii) : bool :=
  let n := code c in
  ((9 <=? n) && (n <=? 13) || (n =? 32) || (n =? 133) || (n =? 160))%N.

Fixpoint skip_space (s : string) : string :=
  match s with
  | EmptyString => EmptyString
  | String c s' => if int_space c then skip_space s' else s
  end.

Definition is_underscore (c : ascii) : bool := (code c =? 95)%N.

(** The digits of the literal.  [prev] tells whether the previous character
    was a digit; an underscore is accepted only between two digits.  The
    result is the value read and the unread rest. *)
Fixpoint digits (acc : Z) (prev : bool) (s : string) : option (Z * string) :=
  match s with
  | EmptyString => if prev then Some (acc, EmptyString) else None
  | String c s' =>
      if isdigit c then digits (10 * acc + digit_value c) true s'
      else if is_underscore c then
        (if prev then
           match s' with
           | String d _ => if isdigit d then digits acc false s' else None
           | EmptyString => None
           end
         else None)
      else if prev then Some (acc, s) else None
  end.

Definition signed (s : string) : Z * string :=
  match s with
  | String "+" s' => (1, s')
  | String "-" s' => (-1, s')
  | _ => (1, s)
  end.

(** [int(s)]: [None] stands for the [ValueError] of an invalid literal. *)
Definition of_string (s : string) : option Z :=
  let '(sign, s1) := signed (skip_space s) in
  match digits 0 false s1 with
  | Some (v, rest) =>
      if is_empty (skip_space rest) then Some (sign * v) else None
  | None => None
  end.

End PyInt.

(** ** Values decoded from JSON, and the exceptions the module can meet *)

#[warnings="-register-all"]
Inductive json : Type :=
| JNull                                   (* None *)
| JBool (b : bool)
| JInt (z : Z)
| JFloat (f : spec_float)
| JStr (s : string)
| JList (l : list json)
| JDict (d : list (string * json)).       (* first binding of a key wins *)

(** The exception classes that matter.  [isinstance] against the two classes
    [get_json] handles is given by [is_RequestException] and
    [is_ValueError]: several classes of the [requests] library derive from
    both. *)
Inductive exn : Type :=
| AttributeError
| TypeError
| ValueError
| OverflowError
| JSONDecodeError            (* json.JSONDecodeError(ValueError) *)
| RequestsConnectionError    (* requests.ConnectionError(RequestException) *)
| RequestsTimeout            (* requests.Timeout(RequestException) *)
| RequestsInvalidURL         (* requests.InvalidURL(RequestException, ValueError) *)
| RequestsJSONDecodeError    (* requests.JSONDecodeError(InvalidJSONError,
                                json.JSONDecodeError), with
                                InvalidJSONError(RequestException): what
                                [Response.json] raises since requests 2.27 *)
| OtherError.                (* any class outside both hierarchies *)

Definition is_RequestException (e : exn) : bool :=
  match e with
  | RequestsConnectionError | RequestsTimeout | RequestsInvalidURL
  | RequestsJSONDecodeError => true
  | _ => false
  end.

Definition is_ValueError (e : exn) : bool :=
  match e with
  | ValueError | JSONDecodeError | RequestsInvalidURL
  | RequestsJSONDecodeError => true
  | _ => false
  end.

(** The result of a computation that may raise.  [OutOfFuel] is not a Python
    result: it marks a loop of the model that was cut short. *)
Inductive res (A : Type) : Type :=
| Ret (a : A)
| Raise (e : exn)
| OutOfFuel.

Arguments Ret {A} a.
Arguments Raise {A} e.
Arguments OutOfFuel {A}.

Definition bind_res {A B} (c : res A) (k : A -> res B) : res B :=
  match c with
  | Ret a => k a
  | Raise e => Raise e
  | OutOfFuel => OutOfFuel
  end.

Notation "'let*' x ':=' c 'in' k" := (bind_res c (fun x => k))
  (at level 10, x name, c at level 100, k at level 200).

Module Py.
Import PyStr.

(** truth value of an object *)
Definition truthy (v : json) : bool :=
  match v with
  | JNull => false
  | JBool b => b
  | JInt z => negb (z =? 0)
  | JFloat f => match f with S754_zero _ => false | _ => true end
  | JStr s => negb (is_empty s)
  | JList l => match l with [] => false | _ => true end
  | JDict d => match d with [] => false | _ => true end
  end.

(** [a or b] *)
Definition or_ (a b : json) : json := if truthy a then a else b.

Fixpoint lookup (k : string) (d : list (string * json)) : option json :=
  match d with
  | [] => None
  | (k', v) :: d' => if String.eqb k k' then Some v else lookup k d'
  end.

(** [x.get(k, default)]; only a dict has the method *)
Definition get (x : json) (k : string) (default : json) : res json :=
  match x with
  | JDict d => Ret (match lookup k d with Some v => v | None => default end)
  | _ => Raise AttributeError
  end.

Definition is_dict (v : json) : bool :=
  match v with JDict _ => true | _ => false end.

Fixpoint keys (d : list (string * json)) : list string :=
  match d with
  | [] => []
  | (k, _) :: d' => k :: filter (fun k' => negb (String.eqb k' k)) (keys d')
  end.

Fixpoint chars (s : string) : list json :=
  match s with
  | EmptyString => []
  | String c s' => JStr (String c EmptyString) :: chars s'
  end.

(** the items a [for] loop over the object visits *)
Definition iter (v : json) : res (list json) :=
  match v with
  | JList l => Ret l
  | JDict d => Ret (map JStr (keys d))
  | JStr s => Ret (chars s)
  | _ => Raise TypeError
  end.

(** [len(v)] *)
Definition len (v : json) : res Z :=
  let* items := iter v in Ret (Z.of_nat (List.length items)).

(** [int(x)] of a float: truncation toward zero *)
Definition trunc (f : spec_float) : res Z :=
  match f with
  | S754_zero _ => Ret 0
  | S754_infinity _ => Raise OverflowError
  | S754_nan => Raise ValueError
  | S754_finite s m e =>
      let v := if 0 <=? e then Z.pos m * 2 ^ e else Z.pos m / 2 ^ (- e) in
      Ret (if s then - v else v)
  end.

(** [int(v)] *)
Definition int (v : json) : res Z :=
  match v with
  | JInt z => Ret z
  | JBool b => Ret (if b then 1 else 0)
  | JFloat f => trunc f
  | JStr s => match PyInt.of_string s with
              | Some z => Ret z
              | None => Raise ValueError
              end
  | JNull | JList _ | JDict _ => Raise TypeError
  end.

End Py.

(** ** The module's constants *)

Definition BASE_PUBLIC : string := "https://bracketteam.com/api/get-public-tournament".
Definition BASE_SCHEDULE : string := "https://bracketteam.com/api/get-division-schedule".

Definition MATCHES_PER_PAGE : Z := 20.
Definition SLEEP_TIME : Q := (1 # 2)%Q.
Definition TIMEOUT : Z := 30.
Definition MAX_RETRIES : nat := 3.
(** 1.5; the products [get_json] forms (2.25 and 3.375) are exact in binary
    floating point, so the rational delays are the delays Python sleeps. *)
Definition BACKOFF : Q := (3 # 2)%Q.

(** ** Helpers: [parse_event_id] *)

Module Re.
Import PyStr.

Fixpoint strip_prefix (p s : string) : option string :=
  match p, s with
  | EmptyString, _ => Some s
  | String a p', String b s' =>
      if Ascii.eqb a b then strip_prefix p' s' else None
  | String _ _, EmptyString => None
  end.

(** the longest prefix of decimal digits, and what follows it *)
Fixpoint span_digits (s : string) : string * string :=
  match s with
  | EmptyString => (EmptyString, EmptyString)
  | String c s' =>
      if isdigit c then
        let '(ds, r) := span_digits s' in (String c ds, r)
      else (EmptyString, s)
  end.

(** [/event/(\d+)/] matched at the start of [s]: group 1 of the match.
    The group is greedy and is followed by a character that is no digit,
    so the longest run of digits is the only candidate. *)
Definition match_event_here (s : string) : option string :=
  match strip_prefix "/event/" s with
  | None => None
  | Some r =>
      match span_digits r with
      | (String d ds, String "/" _) => Some (String d ds)
      | _ => None
      end
  end.

(** [re.search(r"/event/(\d+)/", s)]: group 1 of the leftmost match *)
Fixpoint search_event (s : string) : option string :=
  match match_event_here s with
  | Some g => Some g
  | None =>
      match s with
      | EmptyString => None
      | String _ s' => search_event s'
      end
  end.

End Re.

Definition parse_event_id (s : string) : res Z :=
  match Re.search_event s with
  | Some g => Py.int (JStr g)
  | None =>
      if PyStr.fullmatch_digits (PyStr.strip s) then Py.int (JStr s)
      else Raise ValueError
  end.

(** ** Field extraction *)

(** [d.get(k)] for a dict [d] *)
Definition dict_get (d : list (string * json)) (k : string) : json :=
  match Py.lookup k d with Some v => v | None => JNull end.

Definition is_nonblank (s : string) : bool :=
  negb (PyStr.is_empty (PyStr.strip s)).

(** [v.strip()] when [isinstance(v, str) and v.strip()] holds *)
Definition stripped_str (v : json) : option string :=
  match v with
  | JStr s => if is_nonblank s then Some (PyStr.strip s) else None
  | _ => None
  end.

Fixpoint first_nonempty (values : list json) : string :=
  match values with
  | [] => ""
  | v :: rest =>
      match stripped_str v with
      | Some s => s
      | None => first_nonempty rest
      end
  end.

(** [cur] starts as the argument [d] and walks down the path. *)
Fixpoint get_nested (cur : json) (path : list string) (default : string)
  : string :=
  match path with
  | [] => match cur with JStr s => s | _ => default end
  | p :: path' =>
      match cur with
      | JDict d => get_nested (dict_get d p) path' default
      | _ => default
      end
  end.

Definition extract_time (m : json) : res string :=
  let* a := Py.get m "start_date_time" JNull in
  let* b := Py.get m "date" JNull in
  let* c := Py.get m "start_time" JNull in
  let* d := Py.get m "start_datetime" JNull in
  Ret (first_nonempty [a; b; c; d]).

Definition extract_location (m : json) : res string :=
  let a := get_nested m ["court"; "venue"; "name"] "" in
  let* b := Py.get m "venue_name" JNull in
  let* c := Py.get m "facility_name" JNull in
  let* d := Py.get m "location" JNull in
  let e := get_nested m ["venue"; "name"] "" in
  let f := get_nested m ["facility"; "name"] "" in
  let g := get_nested m ["site"; "name"] "" in
  Ret (first_nonempty [JStr a; b; c; d; JStr e; JStr f; JStr g]).

Definition extract_court (m : json) : res string :=
  let a := get_nested m ["court"; "court_name"] "" in
  let* b := Py.get m "court_name" JNull in
  let* c := Py.get m "court" JNull in
  let* d := Py.get m "field" JNull in
  let e := get_nested m ["court"; "name"] "" in
  let f := get_nested m ["resource"; "name"] "" in
  Ret (first_nonempty [JStr a; b; c; d; JStr e; JStr f]).

Fixpoint team_fallback (obj : json) (fallback_keys : list string) : string :=
  match fallback_keys with
  | [] => ""
  | k :: ks =>
      let v := match obj with JDict d => dict_get d k | _ => JNull end in
      match stripped_str v with
      | Some s => s
      | None => team_fallback obj ks
      end
  end.

Definition extract_team_name (obj : json) (fallback_keys : list string)
  : string :=
  let nested :=
    match obj with
    | JDict d => stripped_str (Py.or_ (dict_get d "name") (dict_get d "team_name"))
    | _ => None
    end in
  match nested with
  | Some s => s
  | None => team_fallback obj fallback_keys
  end.

Definition extract_home (m : json) : res string :=
  let* t := Py.get m "home_team" JNull in
  let nested :=
    match t with
    | JDict d => stripped_str (Py.or_ (dict_get d "name") (dict_get d "team_name"))
    | _ => None
    end in
  match nested with
  | Some s => Ret s
  | None =>
      let* a := Py.get m "home_name" JNull in
      let* b := Py.get m "homeTeamName" JNull in
      let* c := Py.get m "team_home_name" JNull in
      Ret (first_nonempty [a; b; c])
  end.

Definition extract_away (m : json) : res string :=
  let* t := Py.get m "away_team" JNull in
  let nested :=
    match t with
    | JDict d => stripped_str (Py.or_ (dict_get d "name") (dict_get d "team_name"))
    | _ => None
    end in
  match nested with
  | Some s => Ret s
  | None =>
      let* a := Py.get m "away_name" JNull in
      let* b := Py.get m "awayTeamName" JNull in
      let* c := Py.get m "team_away_name" JNull in
      Ret (first_nonempty [a; b; c])
  end.

Open Scope list_scope.

(** ** The world the module acts on *)

Record Session : Type := { headers : list (string * string) }.

Record Request : Type := {
  req_session : Session;
  req_url : string;
  req_params : list (string * json);
  req_timeout : Z
}.

(** What [resp.json()] does with the body of a response. *)
Inductive Body : Type :=
| BodyJson (j : json)
| BodyRaises (e : exn).

(** What [session.get] does: it returns a response or raises.  A response
    has its [status_code], its [url] (the final URL, with the query string)
    and its body. *)
Inductive Outcome : Type :=
| Response (status : Z) (resp_url : string) (body : Body)
| Fails (e : exn).

Record ScheduleRow : Type := {
  game_start_time : string;
  location : string;
  court : string;
  division : json;
  home_team : string;
  away_team : string
}.

(** The lines written to [sys.stderr], by the statement that writes them.
    The two lines about a status print [resp.url], the URL of the response;
    the two lines about an exception print the URL of the call. *)
Inductive Message : Type :=
| HttpAfterAttempts (status : Z) (attempt : nat) (resp_url : string)
| HttpStatus (status : Z) (resp_url : string)
| RequestErrorAfter (attempt : nat) (url : string) (e : exn)
| JsonParseError (url : string) (e : exn)
| MissingToken
| NoDivisionsFound (tournament_id : Z).

Inductive Event : Type :=
| EFetch (url : string) (params : list (string * json))  (* get_json is entered *)
| EGet (r : Request)                                     (* session.get *)
| ESleep (seconds : Q)                                   (* time.sleep *)
| EStderr (m : Message)
| EYield (m : json)                                      (* iter_matches yields *)
| EOpen (path : string)
| EHeader (fieldnames : list string)
| ERow (r : ScheduleRow)
| EPrint (rows_written : Z) (path : string).

(** The server is a script: [net n] is what the [n]-th request of the run
    meets.  [clock] counts the requests made, [trace] lists the effects in
    the order they happened. *)
Record World : Type := {
  net : nat -> Outcome;
  clock : nat;
  trace : list Event
}.

Definition M (A : Type) : Type := World -> res A * World.

Definition ret {A} (a : A) : M A := fun w => (Ret a, w).

Definition bind {A B} (c : M A) (k : A -> M B) : M B :=
  fun w =>
    match c w with
    | (Ret a, w') => k a w'
    | (Raise e, w') => (Raise e, w')
    | (OutOfFuel, w') => (OutOfFuel, w')
    end.

Notation "x <- c ;; k" := (bind c (fun x => k))
  (at level 61, c at next level, right associativity).
Notation "c ;;; k" := (bind c (fun _ => k))
  (at level 61, right associativity).

Definition lift {A} (r : res A) : M A := fun w => (r, w).

Definition emit (e : Event) : M unit :=
  fun w => (Ret tt, {| net := net w; clock := clock w; trace := trace w ++ [e] |}).

Definition sleep (seconds : Q) : M unit := emit (ESleep seconds).
Definition stderr_write (m : Message) : M unit := emit (EStderr m).

Definition session_get (session : Session) (url : string)
  (params : list (string * json)) (timeout : Z) : M Outcome :=
  fun w =>
    (Ret (net w (clock w)),
     {| net := net w;
        clock := S (clock w);
        trace := trace w ++ [EGet {| req_session := session; req_url := url;
                                     req_params := params;
                                     req_timeout := timeout |}] |}).

(** A [for] loop whose body updates the local variables [acc]. *)
Fixpoint for_each {A S} (l : list A) (body : S -> A -> M S) (acc : S) : M S :=
  match l with
  | [] => ret acc
  | x :: l' => acc' <- body acc x ;; for_each l' body acc'
  end.

Definition make_session (token : string) : Session :=
  {| headers := [("User-Agent", "BracketTeamScraper/1.0 (+https://example.org)");
                 ("Accept", "application/json, */*");
                 ("X-Authorization", token)] |}.

(** ** [get_json] *)

Definition retry_status (status : Z) : bool :=
  (status =? 429) || ((500 <=? status) && (status <? 600)).

(** [resp.ok]: [raise_for_status] raises for 400 <= status < 600. *)
Definition ok (status : Z) : bool :=
  negb ((400 <=? status) && (status <? 600)).

Section GetJson.
Variables (session : Session) (url : string) (params : list (string * json)).

(** One round of the [while True] loop; [attempt] and [delay] are the
    values of the two variables when the round starts. *)
Fixpoint get_json_loop (fuel : nat) (attempt : nat) (delay : Q) : M json :=
  match fuel with
  | O => lift OutOfFuel
  | S fuel' =>
      let attempt := S attempt in
      (* the two [except] clauses, in the order of the source *)
      let handle (e : exn) : M json :=
        if is_RequestException e then
          if (attempt <? MAX_RETRIES)%nat then
            sleep delay ;;; get_json_loop fuel' attempt (delay * BACKOFF)%Q
          else
            stderr_write (RequestErrorAfter attempt url e) ;;; ret JNull
        else if is_ValueError e then
          stderr_write (JsonParseError url e) ;;; ret JNull
        else lift (Raise e) in
      o <- session_get session url params TIMEOUT ;;
      match o with
      | Fails e => handle e
      | Response status resp_url body =>
          if retry_status status then
            if (attempt <? MAX_RETRIES)%nat then
              sleep delay ;;; get_json_loop fuel' attempt (delay * BACKOFF)%Q
            else
              stderr_write (HttpAfterAttempts status attempt resp_url) ;;;
              ret JNull
          else if negb (ok status) then
            stderr_write (HttpStatus status resp_url) ;;; ret JNull
          else
            match body with
            | BodyJson j => ret j
            | BodyRaises e => handle e
            end
      end
  end.

(** Every round but the last allowed one ends the loop or increases
    [attempt], so [MAX_RETRIES] rounds are enough fuel. *)
Definition get_json : M json :=
  emit (EFetch url params) ;;; get_json_loop MAX_RETRIES 0 BACKOFF.

End GetJson.

(** ** [iter_matches]

    The generator is embedded with its consumer: [consume acc m] is what the
    [for] loop driving the generator does with the match [m] before the
    generator runs on, [acc] being the local variables of the consumer.
    Every [yield] is recorded in the trace. *)

Definition schedule_params (tournament_id division_id page : Z)
  : list (string * json) :=
  [("tournament_id", JInt tournament_id);
   ("division_id", JInt division_id);
   ("page", JInt page);
   ("start_date", JStr "null");
   ("end_date", JStr "null");
   ("filter_team", JStr "null");
   ("pool_id", JStr "null");
   ("bracket_id", JStr "null");
   ("venue_id", JStr "null");
   ("court_id", JStr "null");
   ("matches_per_page", JInt MATCHES_PER_PAGE);
   ("only_games", JStr "false")].

(** [(data.get("content", {}) or {}).get("matches", []) or []] for
    [data = response or {}] *)
Definition matches_of (response : json) : res json :=
  let data := Py.or_ response (JDict []) in
  let* content := Py.get data "content" (JDict []) in
  let* matches := Py.get (Py.or_ content (JDict [])) "matches" (JList []) in
  Ret (Py.or_ matches (JList [])).

Section IterMatches.
Variables (session : Session) (tournament_id division_id : Z).
Context {S : Type} (consume : S -> json -> M S).

Fixpoint iter_matches_loop (fuel : nat) (page : Z) (acc : S) : M S :=
  match fuel with
  | O => lift OutOfFuel
  | Datatypes.S fuel' =>
      response <- get_json session BASE_SCHEDULE
                    (schedule_params tournament_id division_id page) ;;
      matches <- lift (matches_of response) ;;
      if negb (Py.truthy matches) then ret acc
      else
        items <- lift (Py.iter matches) ;;
        acc' <- for_each items
                  (fun acc m => emit (EYield m) ;;; consume acc m) acc ;;
        n <- lift (Py.len matches) ;;
        if n <? MATCHES_PER_PAGE then ret acc'
        else sleep SLEEP_TIME ;;; iter_matches_loop fuel' (page + 1) acc'
  end.

Definition iter_matches (fuel : nat) (acc : S) : M S :=
  iter_matches_loop fuel 1 acc.

End IterMatches.

(** ** [get_divisions] and [run] *)

Definition DEFAULT_TOKEN : string :=
  "fB0SC4jghlUrszbzgFmHyAPeWvzwc5kWV3yhdP9xhs8ysLRkDDGpomh5gmqoZdAc".

Definition fieldnames : list string :=
  ["game_start_time"; "location"; "court"; "division"; "home_team"; "away_team"].

Section Orchestrator.

(** [str(v)] of a float, a list or a dict is not modelled; it is a
    parameter of the embedding. *)
Variable repr_other : json -> string.

(** [str(v)], as the f-string of [get_divisions] forms it *)
Definition py_str (v : json) : string :=
  match v with
  | JNull => "None"
  | JBool true => "True"
  | JBool false => "False"
  | JInt z => PyStr.of_Z z
  | JStr s => s
  | JFloat _ | JList _ | JDict _ => repr_other v
  end.

(** One round of the loop over the division records. *)
Definition division_of (d : json) : res (option (Z * json)) :=
  let* div_id := Py.get d "id" JNull in
  let* a := Py.get d "division_name" JNull in
  let* b := Py.get d "name" JNull in
  let div_name := Py.or_ a (Py.or_ b (JStr ("Division " ++ py_str div_id))) in
  match div_id with
  | JNull => Ret None
  | _ => let* i := Py.int div_id in Ret (Some (i, div_name))
  end.

Fixpoint divisions_loop (divisions : list json) (out : list (Z * json))
  : res (list (Z * json)) :=
  match divisions with
  | [] => Ret out
  | d :: rest =>
      let* r := division_of d in
      match r with
      | Some p => divisions_loop rest (out ++ [p])
      | None => divisions_loop rest out
      end
  end.

Definition get_divisions (session : Session) (tournament_id : Z)
  : M (list (Z * json)) :=
  response <- get_json session BASE_PUBLIC
                [("tournament_id", JInt tournament_id)] ;;
  let data := Py.or_ response (JDict []) in
  content <- lift (Py.get data "content" (JDict [])) ;;
  tournament <- lift (Py.get content "tournament" (JDict [])) ;;
  divisions <- lift (Py.get tournament "divisions" (JList [])) ;;
  items <- lift (Py.iter divisions) ;;
  lift (divisions_loop items []).

(** The body of the inner loop of [run]: one row for the match [m], and
    the counter [rows_written] moves on. *)
Definition write_row (div_name : json) (rows_written : Z) (m : json) : M Z :=
  t <- lift (extract_time m) ;;
  l <- lift (extract_location m) ;;
  c <- lift (extract_court m) ;;
  h <- lift (extract_home m) ;;
  a <- lift (extract_away m) ;;
  emit (ERow {| game_start_time := t; location := l; court := c;
                division := div_name; home_team := h; away_team := a |}) ;;;
  ret (rows_written + 1).

(** [a or b] for two optional strings *)
Definition or_str (a b : option string) : option string :=
  match a with
  | Some (String _ _) => a
  | _ => b
  end.

(** [token] is the command-line argument, [env_token] the value of
    [os.environ.get("BRACKETTEAM_TOKEN")]; [fuel] bounds the pages fetched
    for one division. *)
Definition run (fuel : nat) (event_ref out_csv : string)
  (token env_token : option string) : M Z :=
  tournament_id <- lift (parse_event_id event_ref) ;;
  match or_str (or_str token env_token) (Some DEFAULT_TOKEN) with
  | None | Some EmptyString =>
      stderr_write MissingToken ;;; ret 2
  | Some token =>
      let session := make_session token in
      divisions <- get_divisions session tournament_id ;;
      match divisions with
      | [] => stderr_write (NoDivisionsFound tournament_id) ;;; ret 1
      | _ =>
          emit (EOpen out_csv) ;;;
          emit (EHeader fieldnames) ;;;
          rows_written <-
            for_each divisions
              (fun rows_written d =>
                 let '(div_id, div_name) := d in
                 n <- iter_matches session tournament_id div_id
                        (write_row div_name) fuel rows_written ;;
                 sleep SLEEP_TIME ;;; ret n) 0 ;;
          emit (EPrint rows_written out_csv) ;;; ret 0
      end
  end.

End Orchestrator.

(** ** Notions the statements use *)

(** [v] is a string with more than white space, and [s] is that string. *)
Definition usable (v : json) (s : string) : Prop :=
  v = JStr s /\ PyStr.strip s <> "".

Definition unusable (v : json) : Prop := forall s, ~ usable v s.

(** The value at the end of a key path: [None] when a value on the way is
    no record or lacks the key. *)
Fixpoint path_value (cur : json) (path : list string) : option json :=
  match path with
  | [] => Some cur
  | p :: path' =>
      match cur with
      | JDict d =>
          match Py.lookup p d with
          | Some v => path_value v path'
          | None => None
          end
      | _ => None
      end
  end.

(** How a team extractor [extract] treats the nested object under the key
    [nested] and the flat keys [k1], [k2], [k3] of a match record [m]. *)
Definition flat_names (m : list (string * json)) (k1 k2 k3 : string) : string :=
  first_nonempty [dict_get m k1; dict_get m k2; dict_get m k3].

Definition nested_first (extract : json -> res string)
  (nested k1 k2 k3 : string) : Prop :=
  forall m : list (string * json),
    (forall t s,
        dict_get m nested = JDict t ->
        usable (dict_get t "name") s ->
        extract (JDict m) = Ret (PyStr.strip s)) /\
    (forall t s,
        dict_get m nested = JDict t ->
        Py.truthy (dict_get t "name") = false ->
        usable (dict_get t "team_name") s ->
        extract (JDict m) = Ret (PyStr.strip s)) /\
    (forall t,
        dict_get m nested = JDict t ->
        Py.truthy (dict_get t "name") = true ->
        unusable (dict_get t "name") ->
        extract (JDict m) = Ret (flat_names m k1 k2 k3)) /\
    (forall t,
        dict_get m nested = JDict t ->
        Py.truthy (dict_get t "name") = false ->
        unusable (dict_get t "team_name") ->
        extract (JDict m) = Ret (flat_names m k1 k2 k3)) /\
    (Py.is_dict (dict_get m nested) = false ->
     extract (JDict m) = Ret (flat_names m k1 k2 k3)).

(** A match whose nested home team has a blank [name] and a good
    [team_name]. *)
Definition blank_name_match : json :=
  JDict [("home_team", JDict [("name", JStr "  "); ("team_name", JStr "T")])].

Definition nested_and_flat_match : json :=
  JDict [("home_team", JDict [("name", JStr "A")]); ("home_name", JStr "B");
         ("away_team", JDict [("name", JStr "A")]); ("away_name", JStr "B")].

Definition flat_only_match : json :=
  JDict [("home_name", JStr "B"); ("away_name", JStr "B")].

Definition padded_match : json :=
  JDict [("home_team", JDict [("name", JStr "  X  ")]);
         ("away_name", JStr "  Y ")].

(** The value the nested check of the team extractors looks at. *)
Definition nested_choice (t : json) : option string :=
  match t with
  | JDict d => stripped_str (Py.or_ (dict_get d "name") (dict_get d "team_name"))
  | _ => None
  end.

(** [s] contains the segment [/event/g/] with [g] a run of digits, after the
    prefix [pre]. *)
Definition event_segment (s pre g post : string) : Prop :=
  s = (pre ++ "/event/" ++ g ++ "/" ++ post)%string /\
  PyStr.fullmatch_digits g = true.

(** The separator FS followed by the digits 12. *)
Definition separator_id : string := String "028"%char "12".

(** The world after [n] more requests and the effects [events]. *)
Definition advance (w : World) (n : nat) (events : list Event) : World :=
  {| net := net w; clock := n + clock w; trace := trace w ++ events |}.

(** A transient failure: status 429, a status 5xx, or [session.get] raising a
    [RequestException]. *)
Definition transient (o : Outcome) : bool :=
  match o with
  | Response status _ _ => retry_status status
  | Fails e => is_RequestException e
  end.

(** A success: a status that is [ok] and a body that parses to [j]. *)
Definition success (o : Outcome) (j : json) : Prop :=
  exists status resp_url,
    o = Response status resp_url (BodyJson j) /\ ok status = true.

(** A response whose status is [ok] and whose body makes [resp.json()]
    raise [e]. *)
Definition unparseable (o : Outcome) (e : exn) : Prop :=
  exists status resp_url,
    o = Response status resp_url (BodyRaises e) /\ ok status = true.

(** The line [get_json] writes when the last allowed attempt fails. *)
Definition final_message (o : Outcome) (url : string) : Message :=
  match o with
  | Response status resp_url _ => HttpAfterAttempts status MAX_RETRIES resp_url
  | Fails e => RequestErrorAfter MAX_RETRIES url e
  end.

Definition sleeps_of (t : list Event) : list Q :=
  flat_map (fun e => match e with ESleep d => [d] | _ => [] end) t.

Definition request (session : Session) (url : string)
  (params : list (string * json)) : Event :=
  EGet {| req_session := session; req_url := url; req_params := params;
          req_timeout := TIMEOUT |}.

(** A server that answers every request with [o], and the fresh world in
    front of a server. *)
Definition always (o : Outcome) : nat -> Outcome := fun _ => o.

Definition script (l : list Outcome) (default : Outcome) : nat -> Outcome :=
  fun n => nth n l default.

Definition start (server : nat -> Outcome) : World :=
  {| net := server; clock := 0; trace := [] |}.

(** The scripted servers of the examples are blind to the request: every
    response of theirs reports this URL. *)
Definition reported_url : string :=
  "https://bracketteam.com/api/get-public-tournament?tournament_id=6489".

Definition http_ok (j : json) : Outcome := Response 200 reported_url (BodyJson j).
Definition http_500 : Outcome :=
  Response 500 reported_url (BodyRaises RequestsJSONDecodeError).

(** The effects of [get_json] after it is entered: requests, sleeps and
    lines on [stderr]. *)
Definition quiet (e : Event) : bool :=
  match e with
  | EGet _ | ESleep _ | EStderr _ => true
  | _ => false
  end.

(** What a call of [get_json] that starts at request number [c] returns
    in front of [server], and the number of the next request after it.
    Neither depends on the arguments of the call. *)
Definition answer (server : nat -> Outcome) (c : nat) : res json * nat :=
  let '(r, w) := get_json (make_session "") "" []
                   {| net := server; clock := c; trace := [] |} in
  (r, clock w).

(** What one round of [get_json] does with the outcome [o] of its request;
    [again] is the rest of the loop after a retry is decided. *)
Definition after_request (again : M json) (url : string) (attempt : nat)
  (o : Outcome) : M json :=
  let handle (e : exn) : M json :=
    if is_RequestException e then
      if (attempt <? MAX_RETRIES)%nat then again
      else stderr_write (RequestErrorAfter attempt url e) ;;; ret JNull
    else if is_ValueError e then
      stderr_write (JsonParseError url e) ;;; ret JNull
    else lift (Raise e) in
  match o with
  | Fails e => handle e
  | Response status resp_url body =>
      if retry_status status then
        if (attempt <? MAX_RETRIES)%nat then again
        else stderr_write (HttpAfterAttempts status attempt resp_url) ;;; ret JNull
      else if negb (ok status) then
        stderr_write (HttpStatus status resp_url) ;;; ret JNull
      else
        match body with
        | BodyJson j => ret j
        | BodyRaises e => handle e
        end
  end.

(** The page a response stands for: the items the loop of [iter_matches]
    visits, none when the matches are missing or empty. *)
Definition page_of (response : json) : res (list json) :=
  let* matches := matches_of response in
  if Py.truthy matches then Py.iter matches else Ret [].

(** In front of [server], the calls of [get_json] that start at request
    number [c] return, one after the other, responses that stand for the
    pages [pages], and the request after the last of them has number [c']. *)
Fixpoint delivers (server : nat -> Outcome) (c : nat)
  (pages : list (list json)) (c' : nat) : Prop :=
  match pages with
  | [] => c' = c
  | p :: ps =>
      exists response c1,
        answer server c = (Ret response, c1) /\
        page_of response = Ret p /\
        delivers server c1 ps c'
  end.

Definition full_page (p : list json) : Prop :=
  MATCHES_PER_PAGE <= Z.of_nat (List.length p).

Definition short_page (p : list json) : Prop :=
  Z.of_nat (List.length p) < MATCHES_PER_PAGE.

(** What a trace says: the matches yielded, the calls of [get_json] and the
    rows written, each in order. *)
Definition yields_of (t : list Event) : list json :=
  flat_map (fun e => match e with EYield m => [m] | _ => [] end) t.

Definition fetches_of (t : list Event)
  : list (string * list (string * json)) :=
  flat_map (fun e => match e with EFetch u p => [(u, p)] | _ => [] end) t.

Definition rows_of (t : list Event) : list ScheduleRow :=
  flat_map (fun e => match e with ERow r => [r] | _ => [] end) t.

(** The calls [iter_matches] makes for [n] pages from page [page] on. *)
Fixpoint page_fetches (tournament_id division_id page : Z) (n : nat)
  : list (string * list (string * json)) :=
  match n with
  | O => []
  | S n' =>
      (BASE_SCHEDULE, schedule_params tournament_id division_id page)
      :: page_fetches tournament_id division_id (page + 1) n'
  end.

(** The consumer of [list(iter_matches(...))]. *)
Definition collect (acc : list json) (m : json) : M (list json) :=
  ret (acc ++ [m]).

(** Test data: [n] match records numbered from [from] on, and the response
    that carries a page of matches. *)
Definition records (from n : nat) : list json :=
  map (fun i => JDict [("id", JInt (Z.of_nat i))]) (seq from n).

Definition page_response (matches : list json) : json :=
  JDict [("content", JDict [("matches", JList matches)])].

Definition page (from n : nat) : Outcome :=
  http_ok (page_response (records from n)).

(** Pages of sizes 20, 20, 7, and of sizes 20, 20, 20, 0; a server that was
    asked once more would hand out a further full page. *)
Definition server_47 : nat -> Outcome :=
  script [page 0 20; page 20 20; page 40 7] (page 100 20).

Definition server_60 : nat -> Outcome :=
  script [page 0 20; page 20 20; page 40 20; page 0 0] (page 100 20).

(** The response of the tournament endpoint holds no divisions: it is falsy
    (a failed fetch returns [None]), or one of the keys [content],
    [tournament], [divisions] is absent from the record that should hold
    it. *)
Definition no_divisions (response : json) : Prop :=
  Py.truthy response = false \/
  exists r, response = JDict r /\
    (Py.lookup "content" r = None \/
     exists c, Py.lookup "content" r = Some (JDict c) /\
       (Py.lookup "tournament" c = None \/
        exists t, Py.lookup "tournament" c = Some (JDict t) /\
          Py.lookup "divisions" t = None)).

(** The response holds the division records [items]. *)
Definition has_divisions (response : json) (items : list json) : Prop :=
  exists r c t,
    response = JDict r /\
    Py.lookup "content" r = Some (JDict c) /\
    Py.lookup "tournament" c = Some (JDict t) /\
    Py.lookup "divisions" t = Some (JList items).

(** The entries that are there, in order. *)
Definition present {A} (l : list (option A)) : list A :=
  flat_map (fun o => match o with Some a => [a] | None => [] end) l.

Definition tournament_response (divisions : list json) : json :=
  JDict [("content", JDict [("tournament", JDict [("divisions", JList divisions)])])].

(** Three division records: one with both names, one without id, one with
    nothing but an id. *)
Definition sample_divisions : list json :=
  [JDict [("id", JInt 1); ("division_name", JStr "U10"); ("name", JStr "ten")];
   JDict [("division_name", JStr "lost")];
   JDict [("id", JInt 3)];
   JDict [("id", JStr "4"); ("division_name", JStr ""); ("name", JStr "U14")]].

(** The row [run] writes for the match [m] of a division named
    [div_name]. *)
Definition text (r : res string) : string :=
  match r with Ret s => s | _ => "" end.

Definition row_of (div_name : json) (m : json) : ScheduleRow :=
  {| game_start_time := text (extract_time m);
     location := text (extract_location m);
     court := text (extract_court m);
     division := div_name;
     home_team := text (extract_home m);
     away_team := text (extract_away m) |}.

(** The pages of one division: full pages, then a short one. *)
Definition Block : Type := (list (list json) * list json)%type.

Definition pages_of (b : Block) : list (list json) := fst b ++ [snd b].
Definition items_of (b : Block) : list json := List.concat (fst b) ++ snd b.

(** The server delivers the pages of the blocks, one block after the
    other. *)
Fixpoint serves (server : nat -> Outcome) (c : nat) (blocks : list Block)
  (c' : nat) : Prop :=
  match blocks with
  | [] => c' = c
  | b :: bs =>
      exists c1, delivers server c (pages_of b) c1 /\ serves server c1 bs c'
  end.

(** A block [iter_matches] can walk with the fuel [fuel], made of match
    records. *)
Definition walkable (fuel : nat) (b : Block) : Prop :=
  Forall full_page (fst b) /\ short_page (snd b) /\
  Forall (fun m => Py.is_dict m = true) (items_of b) /\
  (List.length (fst b) < fuel)%nat.

(** The rows a division and its pages stand for. *)
Definition rows_for (job : (Z * json) * Block) : list ScheduleRow :=
  map (row_of (snd (fst job))) (items_of (snd job)).

(** The token [run] ends up with. *)
Definition resolve_token (token env_token : option string) : string :=
  match or_str (or_str token env_token) (Some DEFAULT_TOKEN) with
  | Some t => t
  | None => ""
  end.

(** The body of the loop of [run] over the divisions. *)
Definition export_body (session : Session) (tournament_id : Z) (fuel : nat)
  (rows_written : Z) (d : Z * json) : M Z :=
  let '(div_id, div_name) := d in
  n <- iter_matches session tournament_id div_id (write_row div_name) fuel
         rows_written ;;
  sleep SLEEP_TIME ;;; ret n.

(** A tournament of two divisions, and a server that answers the tournament
    request and then hands out one page of three matches per division. *)
Definition two_divisions : list json :=
  [JDict [("id", JInt 11); ("division_name", JStr "U10")];
   JDict [("id", JInt 12); ("name", JStr "U12")]].

Definition server_two_divisions : nat -> Outcome :=
  script [http_ok (tournament_response two_divisions); page 0 3; page 3 3]
    (page 100 20).

(** A computation that only adds to the world: more requests, more
    effects. *)
Definition grows {A} (c : M A) : Prop :=
  forall w, exists n evs, snd (c w) = advance w n evs.

(** No token at all: absent or empty. *)
Definition no_token (t : option string) : Prop := t = None \/ t = Some "".

(** Concrete inputs of the examples. *)
Definition sample_session : Session := make_session "secret".
Definition no_repr : json -> string := fun _ => "".

Definition sample_jobs : list ((Z * json) * Block) :=
  [((11, JStr "U10"), ([], records 0 3)); ((12, JStr "U12"), ([], records 3 3))].

(** [r] does not go on the literal: it is empty or starts with a character
    that is neither a digit nor an underscore. *)
Definition stops (r : string) : Prop :=
  match r with
  | EmptyString => True
  | String c _ => PyStr.isdigit c = false /\ PyInt.is_underscore c = false
  end.

(** The delays of [k] successive retries that start with the delay [d]. *)
Fixpoint delays (d : Q) (k : nat) : list Q :=
  match k with
  | O => []
  | S k' => d :: delays (d * BACKOFF)%Q k'
  end.

(** ** Notions of the further properties *)

(** The effects of [k] failed attempts that are tried again: each request
    is followed by a sleep, and the delays start at [delay]. *)
Fixpoint retry_events (get : Event) (delay : Q) (k : nat) : list Event :=
  match k with
  | O => []
  | S k' => get :: ESleep delay :: retry_events get (delay * BACKOFF)%Q k'
  end.

(** The delay in force after [k] retries that started with [delay]. *)
Fixpoint delay_after (delay : Q) (k : nat) : Q :=
  match k with
  | O => delay
  | S k' => delay_after (delay * BACKOFF)%Q k'
  end.

(** The first [k] requests from the world [w] on meet transient failures. *)
Definition fails_first (w : World) (k : nat) : Prop :=
  forall i, (i < k)%nat -> transient (net w (i + clock w)%nat) = true.

(** What the [k]-th request from [w] on meets raises [e]: in
    [session.get], or in [resp.json()] after a status that is [ok]. *)
Definition raises_at (w : World) (k : nat) (e : exn) : Prop :=
  net w (k + clock w)%nat = Fails e \/
  unparseable (net w (k + clock w)%nat) e.

(** The request [get_json] sends. *)
Definition sent (session : Session) (url : string)
  (params : list (string * json)) : Request :=
  {| req_session := session; req_url := url; req_params := params;
     req_timeout := TIMEOUT |}.

Definition stderr_of (t : list Event) : list Message :=
  flat_map (fun e => match e with EStderr m => [m] | _ => [] end) t.

Definition requests_of (t : list Event) : list Request :=
  flat_map (fun e => match e with EGet r => [r] | _ => [] end) t.

(** Every white space character of [s] is one [int] accepts: [s] holds none
    of the separators FS, GS, RS, US. *)
Definition int_friendly (s : string) : Prop :=
  PyStr.all_chars (fun c => implb (PyStr.isspace c) (PyInt.int_space c)) s = true.

(** The value of a decimal numeral, most significant digit first, read
    after the value [acc]. *)
Fixpoint uint_value (acc : Z) (d : Decimal.uint) : Z :=
  match d with
  | Decimal.Nil => acc
  | Decimal.D0 d => uint_value (10 * acc + 0) d
  | Decimal.D1 d => uint_value (10 * acc + 1) d
  | Decimal.D2 d => uint_value (10 * acc + 2) d
  | Decimal.D3 d => uint_value (10 * acc + 3) d
  | Decimal.D4 d => uint_value (10 * acc + 4) d
  | Decimal.D5 d => uint_value (10 * acc + 5) d
  | Decimal.D6 d => uint_value (10 * acc + 6) d
  | Decimal.D7 d => uint_value (10 * acc + 7) d
  | Decimal.D8 d => uint_value (10 * acc + 8) d
  | Decimal.D9 d => uint_value (10 * acc + 9) d
  end.

(** [sys.int_info.default_max_str_digits]: an interpreter that limits the
    conversion between [int] and [str] refuses numerals with more digits.
    The model of [int] has no such limit; the properties that convert a
    numeral stay inside it. *)
Definition default_max_str_digits : nat := 4300.

(** The schedules page of the event [n], as the docstring of
    [parse_event_id] shows it. *)
Definition schedules_url (n : Z) (rest : string) : string :=
  ("https://bracketteam.com/event/" ++ PyStr.of_Z n ++ "/" ++ rest)%string.

(** The key paths the extractors of time, location and court read, in the
    order of the source. *)
Definition time_paths : list (list string) :=
  [["start_date_time"]; ["date"]; ["start_time"]; ["start_datetime"]].

Definition location_paths : list (list string) :=
  [["court"; "venue"; "name"]; ["venue_name"]; ["facility_name"]; ["location"];
   ["venue"; "name"]; ["facility"; "name"]; ["site"; "name"]].

Definition court_paths : list (list string) :=
  [["court"; "court_name"]; ["court_name"]; ["court"]; ["field"];
   ["court"; "name"]; ["resource"; "name"]].

(** In [m] the path [p] leads to the string [s], which holds more than white
    space. *)
Definition path_usable (m : json) (p : list string) (s : string) : Prop :=
  path_value m p = Some (JStr s) /\ PyStr.strip s <> "".

Definition path_unusable (m : json) (p : list string) : Prop :=
  forall s, ~ path_usable m p s.

(** [extract] returns the trimmed string at the first usable path of
    [paths], and the empty string when no path is usable. *)
Definition reads (extract : json -> res string) (paths : list (list string))
  : Prop :=
  forall m : list (string * json),
    (Forall (path_unusable (JDict m)) paths /\ extract (JDict m) = Ret "") \/
    (exists skipped p rest s,
        paths = skipped ++ p :: rest /\
        Forall (path_unusable (JDict m)) skipped /\
        path_usable (JDict m) p s /\
        extract (JDict m) = Ret (PyStr.strip s)).

(** [c] only adds to the world, however it ends: its effects [evs] satisfy
    [inv], the clock moves by the number of requests among them, and when
    [c] returns [a], [good a evs] holds. *)
Definition keeps {A} (inv : list Event -> Prop) (c : M A)
  (good : A -> list Event -> Prop) : Prop :=
  forall w, exists r evs,
    c w = (r, advance w (List.length (requests_of evs)) evs) /\
    inv evs /\ forall a, r = Ret a -> good a evs.

(** The effects [run] has before it opens the file, and those of the loop
    that writes the rows. *)
Definition before_file (e : Event) : bool :=
  match e with
  | EFetch _ _ | EGet _ | ESleep _ | EStderr _ => true
  | _ => false
  end.

Definition export_event (e : Event) : bool :=
  match e with
  | EOpen _ | EHeader _ | EPrint _ _ => false
  | _ => true
  end.

Definition is_print (e : Event) : bool :=
  match e with EPrint _ _ => true | _ => false end.

(** A request of a run for the tournament [t] whose listed divisions have
    the ids [ids]: to the tournament endpoint, or to the schedule endpoint
    for a page of one of these divisions. *)
Definition run_request (session : Session) (t : Z) (ids : list Z)
  (r : Request) : Prop :=
  req_session r = session /\ req_timeout r = 30 /\
  ((req_url r = BASE_PUBLIC /\ req_params r = [("tournament_id", JInt t)]) \/
   (req_url r = BASE_SCHEDULE /\
    exists d page,
      In d ids /\ 1 <= page /\ req_params r = schedule_params t d page)).

(** The ids of the divisions [get_divisions] lists in the world [w]; none
    when it raises. *)
Definition listed (repr_other : json -> string) (session : Session) (t : Z)
  (w : World) : list Z :=
  match fst (get_divisions repr_other session t w) with
  | Ret divisions => map fst divisions
  | _ => []
  end.

(** The five columns of a row that come from the match, and what the
    extractors read in a match. *)
Definition row_fields (r : ScheduleRow)
  : string * string * string * string * string :=
  (game_start_time r, location r, court r, home_team r, away_team r).

Definition match_fields (m : json)
  : string * string * string * string * string :=
  (text (extract_time m), text (extract_location m), text (extract_court m),
   text (extract_home m), text (extract_away m)).

(** What holds of the effects of [run] before the file is opened: the only
    requests are those for the tournament. *)
Definition pre_inv (session : Session) (t : Z) (evs : list Event) : Prop :=
  forallb before_file evs = true /\
  Forall (run_request session t []) (requests_of evs).

(** The effects of the export of one division [d], an id and a name: the
    calls of [get_json] and the requests are for pages of the division with
    that id, and the rows are, in order, the rows of the matches yielded
    there, under that name; only matches yielded last can lack their row (in
    a run that was cut short). *)
Definition block_of (session : Session) (t : Z) (d : Z * json)
  (evs : list Event) : Prop :=
  forallb export_event evs = true /\
  Forall (fun f => exists page,
              1 <= page /\ f = (BASE_SCHEDULE, schedule_params t (fst d) page))
    (fetches_of evs) /\
  Forall (fun r => exists page,
              1 <= page /\
              r = sent session BASE_SCHEDULE (schedule_params t (fst d) page))
    (requests_of evs) /\
  exists ms rest,
    rows_of evs = map (row_of (snd d)) ms /\ yields_of evs = ms ++ rest.

(** The export of a division that returns: the counter counts the rows, and
    every match yielded has its row under the name [div_name]. *)
Definition block_rel (div_name : json) (acc acc' : Z) (evs : list Event)
  : Prop :=
  acc' = acc + Z.of_nat (List.length (rows_of evs)) /\
  rows_of evs = map (row_of div_name) (yields_of evs).

(** The effects split into one block per division, in the order of the
    divisions; the blocks of divisions a failed run did not reach are
    empty. *)
Fixpoint blocks (session : Session) (t : Z) (divisions : list (Z * json))
  (evs : list Event) : Prop :=
  match divisions with
  | [] => evs = []
  | d :: rest =>
      exists e1 e2,
        evs = e1 ++ e2 /\ block_of session t d e1 /\ blocks session t rest e2
  end.

(** The calls of [get_json] for the pages of a division. *)
Definition fetches_for (t : Z) (job : (Z * json) * Block)
  : list (string * list (string * json)) :=
  page_fetches t (fst (fst job)) 1 (S (List.length (fst (snd job)))).

(** How [run] ends after the loop over the divisions ended with [r]: the
    summary line and exit code 0, or the exception of the loop. *)
Definition summary (r : res Z) (out_csv : string) : list Event :=
  match r with
  | Ret rows_written => [EPrint rows_written out_csv]
  | _ => []
  end.

Definition finish (r : res Z) : res Z :=
  match r with
  | Ret _ => Ret 0
  | Raise e => Raise e
  | OutOfFuel => OutOfFuel
  end.

(** The counter [rows_written] counts the rows, and the rows are the
    matches yielded, in order. *)
Definition rows_rel (acc acc' : Z) (evs : list Event) : Prop :=
  acc' = acc + Z.of_nat (List.length (rows_of evs)) /\
  map row_fields (rows_of evs) = map match_fields (yields_of evs).

(** How a run that got its tournament id [t] ends: exit code 1 after the
    line about the missing divisions, with nothing written; exit code 0 after
    the file was opened, the header and the rows written and the number of
    rows printed; or an exception, and then no summary line. *)
Definition run_outcome (t : Z) (out_csv : string) (r : res Z)
  (evs : list Event) : Prop :=
  match r with
  | Ret code =>
      (code = 1 /\
       exists pre,
         evs = pre ++ [EStderr (NoDivisionsFound t)] /\
         forallb before_file pre = true) \/
      (code = 0 /\
       exists pre body,
         evs = pre ++ EOpen out_csv :: EHeader fieldnames :: body
                   ++ [EPrint (Z.of_nat (List.length (rows_of body))) out_csv] /\
         forallb before_file pre = true /\
         forallb export_event body = true /\
         map row_fields (rows_of body) = map match_fields (yields_of body))
  | _ => forallb (fun e => negb (is_print e)) evs = true
  end.

(** An outcome that [get_json] answers with another attempt, when attempts
    are left: a transient failure, or a body that makes [resp.json()] raise a
    [RequestException]. *)
Definition retried (o : Outcome) : Prop :=
  transient o = true \/
  exists e, unparseable o e /\ is_RequestException e = true.

Definition retried_first (w : World) (k : nat) : Prop :=
  forall i, (i < k)%nat -> retried (net w (i + clock w)%nat).

(** Inputs of the examples of the further properties. *)
Definition http_garbled : Outcome :=
  Response 200 reported_url (BodyRaises RequestsJSONDecodeError).

Definition server_garbled_once : nat -> Outcome :=
  script [http_garbled; http_ok (JDict [])] http_500.

Definition http_404 : Outcome := Response 404 reported_url (BodyJson JNull).

Definition server_client_error : nat -> Outcome :=
  script [http_500; http_404] http_500.

Definition server_other_error : nat -> Outcome :=
  script [http_500; Fails OtherError] http_500.

Definition server_array : nat -> Outcome := always (http_ok (JList [JInt 1])).

Definition server_bad_division : nat -> Outcome :=
  always (http_ok (tournament_response [JDict [("id", JInt 1)]; JStr "x"])).

(** * Properties *)

Open Scope string_scope.

(** ** Strings *)

Section StripFacts.
Import PyStr.

Lemma lstrip_first (s : string) (c : ascii) :
  first_char (lstrip s) = Some c -> isspace c = false.
Proof.
  induction s as [|a s IH]; simpl; [discriminate|].
  destruct (isspace a) eqn:Ha; [exact IH|].
  simpl. intros H. injection H as <-. exact Ha.
Qed.

Lemma lstrip_last (s : string) (c : ascii) :
  last_char (lstrip s) = Some c -> last_char s = Some c.
Proof.
  induction s as [|a s IH]; simpl; [discriminate|].
  destruct (isspace a) eqn:Ha.
  - intros H. specialize (IH H). destruct s; [discriminate|exact IH].
  - trivial.
Qed.

Lemma rstrip_last (s : string) (c : ascii) :
  last_char (rstrip s) = Some c -> isspace c = false.
Proof.
  induction s as [|a s IH]; simpl; [discriminate|].
  destruct (rstrip s) as [|b r] eqn:Hr.
  - rewrite andb_true_r. destruct (isspace a) eqn:Ha; simpl.
    + discriminate.
    + intros H. injection H as <-. exact Ha.
  - rewrite andb_false_r. cbn [last_char]. exact IH.
Qed.

Lemma strip_trimmed (s : string) : trimmed (strip s).
Proof.
  split; intros c H.
  - exact (lstrip_first _ _ H).
  - apply (rstrip_last s). apply lstrip_last. exact H.
Qed.

Lemma lstrip_fixed (s : string) :
  (forall c, first_char s = Some c -> isspace c = false) -> lstrip s = s.
Proof.
  destruct s as [|a s]; simpl; [reflexivity|].
  intros H. rewrite (H a eq_refl). reflexivity.
Qed.

Lemma rstrip_fixed (s : string) :
  (forall c, last_char s = Some c -> isspace c = false) -> rstrip s = s.
Proof.
  induction s as [|a s IH]; simpl; [reflexivity|].
  intros H. destruct s as [|b s].
  - simpl. rewrite (H a eq_refl). reflexivity.
  - rewrite IH by exact H.
    rewrite andb_false_r. reflexivity.
Qed.

Lemma trimmed_strip (s : string) : trimmed s -> strip s = s.
Proof.
  intros [Hf Hl]. unfold strip.
  rewrite (rstrip_fixed s Hl). apply lstrip_fixed. exact Hf.
Qed.

Lemma strip_idempotent (s : string) : strip (strip s) = strip s.
Proof. apply trimmed_strip, strip_trimmed. Qed.

Lemma trimmed_empty : trimmed "".
Proof. split; intros c H; discriminate. Qed.

End StripFacts.

(** ** Field extraction *)

Lemma is_nonblank_true (s : string) :
  is_nonblank s = true <-> PyStr.strip s <> "".
Proof.
  unfold is_nonblank. destruct (PyStr.strip s); simpl; split; congruence.
Qed.

Lemma stripped_str_some (v : json) (r : string) :
  stripped_str v = Some r <-> exists s, usable v s /\ r = PyStr.strip s.
Proof.
  split.
  - destruct v; simpl; try discriminate.
    destruct (is_nonblank s) eqn:E; [|discriminate].
    intros H. injection H as <-. exists s. split; [|reflexivity].
    split; [reflexivity|]. apply is_nonblank_true, E.
  - intros (s & [-> Hs] & ->). simpl.
    apply is_nonblank_true in Hs. rewrite Hs. reflexivity.
Qed.

Lemma stripped_str_none (v : json) :
  stripped_str v = None <-> unusable v.
Proof.
  split.
  - intros H s Hu.
    assert (E : stripped_str v = Some (PyStr.strip s))
      by (apply stripped_str_some; exists s; auto).
    congruence.
  - intros H. destruct (stripped_str v) as [r|] eqn:E; [|reflexivity].
    apply stripped_str_some in E. destruct E as (s & Hu & _).
    elim (H s Hu).
Qed.

Lemma stripped_str_trimmed (v : json) (r : string) :
  stripped_str v = Some r -> PyStr.trimmed r.
Proof.
  intros H. apply stripped_str_some in H. destruct H as (s & _ & ->).
  apply strip_trimmed.
Qed.

Lemma first_nonempty_cases (values : list json) :
  (Forall unusable values /\ first_nonempty values = "") \/
  (exists (skipped : list json) v s rest,
      values = (skipped ++ v :: rest)%list /\ Forall unusable skipped /\
      usable v s /\ first_nonempty values = PyStr.strip s).
Proof.
  induction values as [|v values IH]; simpl.
  - left. split; [constructor|reflexivity].
  - destruct (stripped_str v) as [r|] eqn:E.
    + right. apply stripped_str_some in E. destruct E as (s & Hu & ->).
      exists [], v, s, values. repeat split; auto; apply Hu.
    + apply stripped_str_none in E.
      destruct IH as [[Hall Hr] | (sk & v' & s & rest & -> & Hsk & Hu & Hr)].
      * left. split; [constructor; assumption|exact Hr].
      * right. exists (v :: sk), v', s, rest.
        repeat split; auto; apply Hu.
Qed.

Lemma first_nonempty_trimmed (values : list json) :
  PyStr.trimmed (first_nonempty values).
Proof.
  induction values as [|v values IH]; simpl.
  - apply trimmed_empty.
  - destruct (stripped_str v) eqn:E; [|exact IH].
    exact (stripped_str_trimmed _ _ E).
Qed.

Lemma get_nested_path_value (d : json) (path : list string) (default : string) :
  get_nested d path default =
  match path_value d path with
  | Some (JStr s) => s
  | _ => default
  end.
Proof.
  revert d. induction path as [|p path IH]; intros d; simpl.
  - destruct d; reflexivity.
  - destruct d; try reflexivity.
    unfold dict_get. destruct (Py.lookup p d) as [v|].
    + apply IH.
    + destruct path; reflexivity.
Qed.

Lemma get_dict (d : list (string * json)) (k : string) :
  Py.get (JDict d) k JNull = Ret (dict_get d k).
Proof. reflexivity. Qed.

Lemma extract_time_dict (m : list (string * json)) :
  extract_time (JDict m) =
  Ret (first_nonempty [dict_get m "start_date_time"; dict_get m "date";
                       dict_get m "start_time"; dict_get m "start_datetime"]).
Proof. reflexivity. Qed.

Lemma extract_location_dict (m : list (string * json)) :
  extract_location (JDict m) =
  Ret (first_nonempty
         [JStr (get_nested (JDict m) ["court"; "venue"; "name"] "");
          dict_get m "venue_name"; dict_get m "facility_name";
          dict_get m "location";
          JStr (get_nested (JDict m) ["venue"; "name"] "");
          JStr (get_nested (JDict m) ["facility"; "name"] "");
          JStr (get_nested (JDict m) ["site"; "name"] "")]).
Proof. reflexivity. Qed.

Lemma extract_court_dict (m : list (string * json)) :
  extract_court (JDict m) =
  Ret (first_nonempty
         [JStr (get_nested (JDict m) ["court"; "court_name"] "");
          dict_get m "court_name"; dict_get m "court"; dict_get m "field";
          JStr (get_nested (JDict m) ["court"; "name"] "");
          JStr (get_nested (JDict m) ["resource"; "name"] "")]).
Proof. reflexivity. Qed.

Lemma extract_home_dict (m : list (string * json)) :
  extract_home (JDict m) =
  Ret (match nested_choice (dict_get m "home_team") with
       | Some s => s
       | None => first_nonempty [dict_get m "home_name"; dict_get m "homeTeamName";
                                 dict_get m "team_home_name"]
       end).
Proof.
  unfold extract_home, nested_choice. rewrite get_dict. simpl.
  destruct (dict_get m "home_team"); try reflexivity.
  destruct (stripped_str _); reflexivity.
Qed.

Lemma extract_away_dict (m : list (string * json)) :
  extract_away (JDict m) =
  Ret (match nested_choice (dict_get m "away_team") with
       | Some s => s
       | None => first_nonempty [dict_get m "away_name"; dict_get m "awayTeamName";
                                 dict_get m "team_away_name"]
       end).
Proof.
  unfold extract_away, nested_choice. rewrite get_dict. simpl.
  destruct (dict_get m "away_team"); try reflexivity.
  destruct (stripped_str _); reflexivity.
Qed.

Lemma team_fallback_trimmed (obj : json) (ks : list string) :
  PyStr.trimmed (team_fallback obj ks).
Proof.
  induction ks as [|k ks IH]; simpl.
  - apply trimmed_empty.
  - destruct (stripped_str _) eqn:E; [|exact IH].
    exact (stripped_str_trimmed _ _ E).
Qed.

Lemma extract_team_name_trimmed (obj : json) (ks : list string) :
  PyStr.trimmed (extract_team_name obj ks).
Proof.
  unfold extract_team_name.
  destruct obj; try apply team_fallback_trimmed.
  destruct (stripped_str _) eqn:E; [|apply team_fallback_trimmed].
  exact (stripped_str_trimmed _ _ E).
Qed.

Lemma nested_or_flat_trimmed (t : json) (flat : list json) :
  PyStr.trimmed (match nested_choice t with
                 | Some s => s
                 | None => first_nonempty flat
                 end).
Proof.
  unfold nested_choice.
  destruct t; try apply first_nonempty_trimmed.
  destruct (stripped_str _) eqn:E; [|apply first_nonempty_trimmed].
  exact (stripped_str_trimmed _ _ E).
Qed.

(** C6.  The extraction helpers are total.  [first_nonempty] returns (the
    trimmed text of) the first candidate that is a string with more than
    white space, skipping every candidate before it, and the empty string when
    there is none; [get_nested] returns the default whenever a value on the
    key path is absent or no record, or the value at its end is no string;
    each of the six extractors returns a string for every match record. *)
Theorem extraction_total :
  (forall values : list json,
      (Forall unusable values /\ first_nonempty values = "") \/
      (exists (skipped : list json) v s rest,
          values = (skipped ++ v :: rest)%list /\ Forall unusable skipped /\
          usable v s /\ first_nonempty values = PyStr.strip s)) /\
  first_nonempty [JStr ""; JStr "   "; JNull; JStr "X"] = "X" /\
  first_nonempty [JStr ""; JStr "   "; JNull; JInt 7] = "" /\
  (forall (d : json) (path : list string) (default : string),
      get_nested d path default =
      match path_value d path with
      | Some (JStr s) => s
      | _ => default
      end) /\
  (forall m : list (string * json),
      (exists s, extract_time (JDict m) = Ret s) /\
      (exists s, extract_location (JDict m) = Ret s) /\
      (exists s, extract_court (JDict m) = Ret s) /\
      (exists s, extract_home (JDict m) = Ret s) /\
      (exists s, extract_away (JDict m) = Ret s)) /\
  (forall (obj : json) (fallback_keys : list string),
      exists s, extract_team_name obj fallback_keys = s).
Proof.
  split; [exact first_nonempty_cases|].
  split; [reflexivity|].
  split; [reflexivity|].
  split; [exact get_nested_path_value|].
  split.
  - intros m.
    rewrite extract_time_dict, extract_location_dict, extract_court_dict,
      extract_home_dict, extract_away_dict.
    repeat split; eexists; reflexivity.
  - intros obj ks. eexists; reflexivity.
Qed.

(** C10.  What the extractors return is trimmed: for every match record the
    string each of the six extractors returns neither starts nor ends with
    white space (and is left unchanged by [strip]); a candidate "  X  "
    comes out as "X". *)
Theorem extractors_trimmed :
  (forall m : list (string * json),
      (exists s, extract_time (JDict m) = Ret s /\ PyStr.trimmed s /\ PyStr.strip s = s) /\
      (exists s, extract_location (JDict m) = Ret s /\ PyStr.trimmed s /\ PyStr.strip s = s) /\
      (exists s, extract_court (JDict m) = Ret s /\ PyStr.trimmed s /\ PyStr.strip s = s) /\
      (exists s, extract_home (JDict m) = Ret s /\ PyStr.trimmed s /\ PyStr.strip s = s) /\
      (exists s, extract_away (JDict m) = Ret s /\ PyStr.trimmed s /\ PyStr.strip s = s)) /\
  (forall (obj : json) (fallback_keys : list string),
      PyStr.trimmed (extract_team_name obj fallback_keys)) /\
  (forall values : list json, PyStr.trimmed (first_nonempty values)) /\
  first_nonempty [JStr "  X  "] = "X" /\
  extract_time (JDict [("date", JStr "  X  ")]) = Ret "X" /\
  extract_home padded_match = Ret "X" /\
  extract_away padded_match = Ret "Y".
Proof.
  split.
  - intros m.
    rewrite extract_time_dict, extract_location_dict, extract_court_dict,
      extract_home_dict, extract_away_dict.
    repeat split;
      (eexists; split; [reflexivity|];
       split; [|apply trimmed_strip];
       first [apply first_nonempty_trimmed | apply nested_or_flat_trimmed]).
  - split; [exact extract_team_name_trimmed|].
    split; [exact first_nonempty_trimmed|].
    repeat split; reflexivity.
Qed.

(** *** Precedence of the nested team object *)

Lemma usable_truthy (v : json) (s : string) : usable v s -> Py.truthy v = true.
Proof.
  intros [-> Hs]. destruct s; [elim Hs; reflexivity|reflexivity].
Qed.

Lemma nested_choice_name (t : list (string * json)) (s : string) :
  usable (dict_get t "name") s ->
  nested_choice (JDict t) = Some (PyStr.strip s).
Proof.
  intros Hu. unfold nested_choice, Py.or_.
  rewrite (usable_truthy _ _ Hu).
  apply stripped_str_some. exists s. auto.
Qed.

Lemma nested_choice_team_name (t : list (string * json)) (s : string) :
  Py.truthy (dict_get t "name") = false ->
  usable (dict_get t "team_name") s ->
  nested_choice (JDict t) = Some (PyStr.strip s).
Proof.
  intros Hf Hu. unfold nested_choice, Py.or_. rewrite Hf.
  apply stripped_str_some. exists s. auto.
Qed.

Lemma nested_choice_shadowed (t : list (string * json)) :
  Py.truthy (dict_get t "name") = true ->
  unusable (dict_get t "name") ->
  nested_choice (JDict t) = None.
Proof.
  intros Ht Hu. unfold nested_choice, Py.or_. rewrite Ht.
  apply stripped_str_none, Hu.
Qed.

Lemma nested_choice_neither (t : list (string * json)) :
  Py.truthy (dict_get t "name") = false ->
  unusable (dict_get t "team_name") ->
  nested_choice (JDict t) = None.
Proof.
  intros Hf Hu. unfold nested_choice, Py.or_. rewrite Hf.
  apply stripped_str_none, Hu.
Qed.

Lemma nested_choice_no_record (v : json) :
  Py.is_dict v = false -> nested_choice v = None.
Proof. destruct v; simpl; congruence. Qed.

(** C5, the claim as stated fails: with a nested [home_team] whose [name] is
    blank and whose [team_name] is "T", [name] is no usable string and
    [team_name] is one, yet [extract_home] never looks at [team_name] and
    returns the empty string. *)
Lemma extract_home_blank_name :
  unusable (JStr "  ") /\ usable (JStr "T") "T" /\
  extract_home blank_name_match = Ret "" /\
  extract_home blank_name_match <> Ret "T".
Proof.
  split; [|split; [|split]].
  - intros s [E Hs]. injection E as <-. apply Hs. reflexivity.
  - split; [reflexivity|discriminate].
  - reflexivity.
  - discriminate.
Qed.

(** C5, amended.  [extract_home] and [extract_away] look at the nested team
    object first: a usable [name] is returned (trimmed) whatever the flat keys
    hold; [team_name] is consulted only when [name] is absent or falsy, and
    is returned (trimmed) when usable; in every other case (a [name] that is
    truthy without being usable, no usable [team_name], no nested record) the
    flat keys are tried in order. *)
Theorem team_precedence :
  nested_first extract_home "home_team" "home_name" "homeTeamName" "team_home_name" /\
  nested_first extract_away "away_team" "away_name" "awayTeamName" "team_away_name" /\
  extract_home nested_and_flat_match = Ret "A" /\
  extract_home flat_only_match = Ret "B" /\
  extract_home (JDict []) = Ret "" /\
  extract_away nested_and_flat_match = Ret "A" /\
  extract_away flat_only_match = Ret "B" /\
  extract_away (JDict []) = Ret "".
Proof.
  split; [|split; [|repeat split; reflexivity]].
  - intros m. rewrite extract_home_dict. unfold flat_names.
    repeat split; intros.
    + rewrite H, (nested_choice_name _ _ H0). reflexivity.
    + rewrite H, (nested_choice_team_name _ _ H0 H1). reflexivity.
    + rewrite H, (nested_choice_shadowed _ H0 H1). reflexivity.
    + rewrite H, (nested_choice_neither _ H0 H1). reflexivity.
    + rewrite (nested_choice_no_record _ H). reflexivity.
  - intros m. rewrite extract_away_dict. unfold flat_names.
    repeat split; intros.
    + rewrite H, (nested_choice_name _ _ H0). reflexivity.
    + rewrite H, (nested_choice_team_name _ _ H0 H1). reflexivity.
    + rewrite H, (nested_choice_shadowed _ H0 H1). reflexivity.
    + rewrite H, (nested_choice_neither _ H0 H1). reflexivity.
    + rewrite (nested_choice_no_record _ H). reflexivity.
Qed.

Lemma team_precedence_witness :
  extract_home nested_and_flat_match = Ret (PyStr.strip "A") /\
  extract_home blank_name_match = Ret (flat_names
    [("home_team", JDict [("name", JStr "  "); ("team_name", JStr "T")])]
    "home_name" "homeTeamName" "team_home_name").
Proof.
  split.
  - apply (proj1 (proj1 team_precedence _) [("name", JStr "A")] "A").
    + reflexivity.
    + split; [reflexivity|discriminate].
  - apply (proj1 (proj2 (proj2 (proj1 team_precedence _)))
             [("name", JStr "  "); ("team_name", JStr "T")]).
    + reflexivity.
    + reflexivity.
    + intros s [E Hs]. injection E as <-. apply Hs. reflexivity.
Defined.

(** ** [parse_event_id] *)

Section EventId.
Import PyStr.

Lemma all_chars_app (p : ascii -> bool) (a b : string) :
  all_chars p (a ++ b) = all_chars p a && all_chars p b.
Proof.
  induction a as [|c a IH]; simpl; [reflexivity|].
  rewrite IH, andb_assoc. reflexivity.
Qed.

Lemma app_assoc_str (a b c : string) : (a ++ b) ++ c = a ++ (b ++ c).
Proof. induction a as [|x a IH]; simpl; [reflexivity|]. rewrite IH. reflexivity. Qed.

Lemma app_empty_r (a : string) : a ++ "" = a.
Proof. induction a as [|x a IH]; simpl; [reflexivity|]. rewrite IH. reflexivity. Qed.

Lemma digit_classes (c : ascii) :
  isdigit c = true ->
  PyInt.int_space c = false /\ PyInt.is_underscore c = false /\
  isspace c = false /\ c <> "+"%char /\ c <> "-"%char /\ c <> "/"%char.
Proof.
  destruct c as [[] [] [] [] [] [] [] []]; vm_compute; intros H;
    try discriminate H; repeat split; discriminate.
Qed.

Lemma space_classes (c : ascii) :
  PyInt.int_space c = true ->
  isdigit c = false /\ PyInt.is_underscore c = false.
Proof.
  destruct c as [[] [] [] [] [] [] [] []]; vm_compute; intros H;
    try discriminate H; split; reflexivity.
Qed.

(** *** [int] on a padded run of digits *)

Lemma digits_run (ds r : string) :
  all_chars isdigit ds = true -> stops r ->
  forall acc prev, (prev = true \/ ds <> "") ->
    PyInt.digits acc prev (ds ++ r) = Some (decimal_acc acc ds, r).
Proof.
  intros Hds Hr. induction ds as [|c ds IH]; intros acc prev Hp.
  - destruct Hp as [-> | Hp]; [|elim Hp; reflexivity].
    simpl. destruct r as [|c r]; [reflexivity|].
    destruct Hr as [H1 H2]. simpl. rewrite H1, H2. reflexivity.
  - simpl in Hds. apply andb_prop in Hds. destruct Hds as [Hc Hds].
    simpl. rewrite Hc. apply IH; auto.
Qed.

Lemma skip_space_all (l r : string) :
  all_chars PyInt.int_space l = true ->
  PyInt.skip_space (l ++ r) = PyInt.skip_space r.
Proof.
  induction l as [|c l IH]; simpl; [reflexivity|].
  intros H. apply andb_prop in H. destruct H as [Hc Hl].
  rewrite Hc. auto.
Qed.

Lemma skip_space_digit (c : ascii) (s : string) :
  isdigit c = true -> PyInt.skip_space (String c s) = String c s.
Proof.
  intros H. simpl. destruct (digit_classes c H) as [-> _]. reflexivity.
Qed.

Lemma signed_digit (c : ascii) (s : string) :
  isdigit c = true -> PyInt.signed (String c s) = (1, String c s).
Proof.
  destruct c as [[] [] [] [] [] [] [] []]; vm_compute; intros H;
    try discriminate H; reflexivity.
Qed.

Lemma all_space_stops (r : string) :
  all_chars PyInt.int_space r = true -> stops r.
Proof.
  destruct r as [|c r]; simpl; [trivial|].
  intros H. apply andb_prop in H. destruct H as [Hc _].
  apply space_classes, Hc.
Qed.

Lemma skip_space_only (r : string) :
  all_chars PyInt.int_space r = true -> PyInt.skip_space r = "".
Proof.
  intros H. rewrite <- (app_empty_r r). rewrite skip_space_all by exact H.
  reflexivity.
Qed.

(** [int] reads a run of digits between white space it accepts. *)
Lemma int_of_padded_digits (l ds r : string) :
  all_chars PyInt.int_space l = true ->
  fullmatch_digits ds = true ->
  all_chars PyInt.int_space r = true ->
  PyInt.of_string (l ++ ds ++ r) = Some (decimal ds).
Proof.
  intros Hl Hds Hr. unfold fullmatch_digits in Hds.
  apply andb_prop in Hds. destruct Hds as [Hne Hds].
  destruct ds as [|c ds]; [discriminate|].
  assert (Hc : isdigit c = true)
    by (simpl in Hds; apply andb_prop in Hds; tauto).
  unfold PyInt.of_string.
  rewrite skip_space_all by exact Hl.
  change (String c ds ++ r) with (String c (ds ++ r)).
  rewrite skip_space_digit, signed_digit by exact Hc.
  change (String c (ds ++ r)) with (String c ds ++ r).
  rewrite (digits_run (String c ds) r Hds (all_space_stops r Hr) 0 false)
    by (right; discriminate).
  rewrite skip_space_only by exact Hr. simpl is_empty. cbv iota.
  rewrite Z.mul_1_l. reflexivity.
Qed.

Lemma int_of_digits (ds : string) :
  fullmatch_digits ds = true -> Py.int (JStr ds) = Ret (decimal ds).
Proof.
  intros H. simpl.
  pose proof (int_of_padded_digits "" ds "" eq_refl H eq_refl) as E.
  simpl in E. rewrite app_empty_r in E. rewrite E. reflexivity.
Qed.

(** *** What [strip] removes *)

Lemma lstrip_split (s : string) :
  exists l, s = l ++ lstrip s /\ all_chars isspace l = true.
Proof.
  induction s as [|c s (l & E & Hl)]; simpl.
  - exists "". auto.
  - destruct (isspace c) eqn:Hc.
    + exists (String c l). simpl. rewrite Hc, Hl, <- E. auto.
    + exists "". auto.
Qed.

Lemma rstrip_split (s : string) :
  exists r, s = rstrip s ++ r /\ all_chars isspace r = true.
Proof.
  induction s as [|c s (r & E & Hr)]; simpl.
  - exists "". auto.
  - destruct (isspace c && is_empty (rstrip s)) eqn:Hc.
    + apply andb_prop in Hc. destruct Hc as [Hc He].
      destruct (rstrip s); [|discriminate]. simpl in E. subst r.
      exists (String c s). simpl. rewrite Hc, Hr. auto.
    + exists r. simpl. rewrite <- E. auto.
Qed.

Lemma strip_split (s : string) :
  exists l r, s = l ++ strip s ++ r /\
              all_chars isspace l = true /\ all_chars isspace r = true.
Proof.
  destruct (rstrip_split s) as (r & Er & Hr).
  destruct (lstrip_split (rstrip s)) as (l & El & Hl).
  exists l, r. repeat split; auto.
  unfold strip. rewrite <- app_assoc_str, <- El. exact Er.
Qed.

(** *** The regular expression *)

Lemma strip_prefix_some (p s r : string) :
  Re.strip_prefix p s = Some r <-> s = p ++ r.
Proof.
  revert s. induction p as [|a p IH]; intros s; simpl.
  - split; congruence.
  - destruct s as [|b s]; [split; discriminate|].
    destruct (Ascii.eqb a b) eqn:E.
    + apply Ascii.eqb_eq in E. subst b. rewrite IH. split; congruence.
    + apply Ascii.eqb_neq in E. split; [discriminate|congruence].
Qed.

Lemma span_digits_split (s ds r : string) :
  Re.span_digits s = (ds, r) ->
  s = ds ++ r /\ all_chars isdigit ds = true /\
  match r with String c _ => isdigit c = false | EmptyString => True end.
Proof.
  revert ds. induction s as [|c s IH]; intros ds; simpl.
  - intros H. injection H as <- <-. auto.
  - destruct (isdigit c) eqn:Hc.
    + destruct (Re.span_digits s) as [ds' r'].
      intros H. injection H as <- <-.
      destruct (IH ds' eq_refl) as (E & Hd & Hr).
      simpl. rewrite Hc, Hd, <- E. auto.
    + intros H. injection H as <- <-. simpl. auto.
Qed.

Lemma span_digits_run (g r : string) :
  all_chars isdigit g = true ->
  match r with String c _ => isdigit c = false | EmptyString => True end ->
  Re.span_digits (g ++ r) = (g, r).
Proof.
  intros Hg Hr. induction g as [|c g IH]; simpl.
  - destruct r as [|c r]; [reflexivity|]. simpl. rewrite Hr. reflexivity.
  - simpl in Hg. apply andb_prop in Hg. destruct Hg as [Hc Hg].
    rewrite Hc, (IH Hg). reflexivity.
Qed.

Lemma match_event_here_some (s g : string) :
  Re.match_event_here s = Some g <->
  exists post, event_segment s "" g post.
Proof.
  unfold Re.match_event_here, event_segment. split.
  - destruct (Re.strip_prefix "/event/" s) as [r|] eqn:Ep; [|discriminate].
    apply strip_prefix_some in Ep.
    destruct (Re.span_digits r) as [ds r'] eqn:Es.
    apply span_digits_split in Es. destruct Es as (Er & Hd & _).
    destruct ds as [|d ds]; [discriminate|].
    destruct r' as [|c post]; [discriminate|].
    destruct c as [[] [] [] [] [] [] [] []]; try discriminate.
    intros H. injection H as <-. exists post. split.
    + rewrite Ep, Er. reflexivity.
    + unfold fullmatch_digits. simpl. simpl in Hd. exact Hd.
  - intros (post & -> & Hg). unfold fullmatch_digits in Hg.
    apply andb_prop in Hg. destruct Hg as [Hne Hg].
    change ("" ++ "/event/" ++ g ++ "/" ++ post)
      with ("/event/" ++ (g ++ "/" ++ post)).
    rewrite (proj2 (strip_prefix_some "/event/" _ (g ++ "/" ++ post)) eq_refl).
    rewrite (span_digits_run g ("/" ++ post) Hg) by reflexivity.
    destruct g; [discriminate|reflexivity].
Qed.

Lemma search_event_some (s g : string) :
  Re.search_event s = Some g ->
  exists pre post,
    event_segment s pre g post /\
    forall pre' g' post',
      event_segment s pre' g' post' ->
      (String.length pre <= String.length pre')%nat /\
      (String.length pre = String.length pre' -> g' = g).
Proof.
  induction s as [|c s IH]; simpl.
  - destruct (Re.match_event_here "") eqn:E; discriminate.
  - destruct (Re.match_event_here (String c s)) as [g0|] eqn:E.
    + intros H. injection H as ->.
      pose proof E as E'. apply match_event_here_some in E'.
      destruct E' as (post & Hseg).
      exists "", post. split; [exact Hseg|].
      intros pre' g' post' H'. split; [apply Nat.le_0_l|].
      intros Hlen. destruct pre'; [|discriminate].
      assert (E2 : Re.match_event_here (String c s) = Some g')
        by (apply match_event_here_some; eauto).
      congruence.
    + intros H. destruct (IH H) as (pre & post & [Es Hg] & Hmin).
      exists (String c pre), post. split.
      * split; [|exact Hg].
        change (String c s = String c (pre ++ "/event/" ++ g ++ "/" ++ post)).
        f_equal. exact Es.
      * intros pre' g' post' [Es' Hg'].
        destruct pre' as [|c' pre'].
        -- assert (E2 : Re.match_event_here (String c s) = Some g')
             by (apply match_event_here_some; exists post'; split; auto).
           congruence.
        -- simpl in Es'. injection Es' as -> Es'.
           destruct (Hmin pre' g' post' (conj Es' Hg')) as [Hle Heq].
           simpl. split; [lia|]. intros Hl. apply Heq. lia.
Qed.

Lemma search_event_none (s : string) :
  Re.search_event s = None ->
  forall pre g post, ~ event_segment s pre g post.
Proof.
  induction s as [|c s IH]; simpl.
  - intros _ pre g post [E _].
    destruct pre; simpl in E; discriminate.
  - destruct (Re.match_event_here (String c s)) as [g0|] eqn:E; [discriminate|].
    intros H pre g post [Es Hg]. destruct pre as [|c' pre].
    + assert (E2 : Re.match_event_here (String c s) = Some g)
        by (apply match_event_here_some; exists post; split; auto).
      congruence.
    + simpl in Es. injection Es as -> Es.
      exact (IH H pre g post (conj Es Hg)).
Qed.

(** *** The three cases of [parse_event_id] *)

Lemma search_event_found (s pre g post : string) :
  event_segment s pre g post -> exists g0, Re.search_event s = Some g0.
Proof.
  intros H. destruct (Re.search_event s) as [g0|] eqn:E; [eauto|].
  elim (search_event_none s E pre g post H).
Qed.

(** A string with an event segment: the digits of the leftmost segment are
    the id. *)
Lemma parse_event_id_segment (s pre g post : string) :
  event_segment s pre g post ->
  exists pre0 g0 post0,
    event_segment s pre0 g0 post0 /\
    (forall pre' g' post',
        event_segment s pre' g' post' ->
        (String.length pre0 <= String.length pre')%nat) /\
    parse_event_id s = Ret (decimal g0).
Proof.
  intros H. destruct (search_event_found _ _ _ _ H) as (g0 & E).
  destruct (search_event_some s g0 E) as (pre0 & post0 & Hseg & Hmin).
  exists pre0, g0, post0. split; [exact Hseg|]. split.
  - intros pre' g' post' H'. apply (Hmin pre' g' post' H').
  - unfold parse_event_id. rewrite E. apply int_of_digits, Hseg.
Qed.

Lemma all_chars_weaken (p q : ascii -> bool) (s : string) :
  all_chars (fun c => implb (p c) (q c)) s = true ->
  all_chars p s = true -> all_chars q s = true.
Proof.
  induction s as [|c s IH]; simpl; [trivial|].
  intros H1 H2. apply andb_prop in H1, H2.
  destruct H1 as [Hi H1], H2 as [Hp H2].
  rewrite Hp in Hi. simpl in Hi. rewrite Hi. simpl. auto.
Qed.

(** A string without event segment whose trimmed text is a run of digits,
    when every white space of the string is one [int] accepts. *)
Lemma parse_event_id_digits (s : string) :
  (forall pre g post, ~ event_segment s pre g post) ->
  fullmatch_digits (strip s) = true ->
  all_chars (fun c => implb (isspace c) (PyInt.int_space c)) s = true ->
  parse_event_id s = Ret (decimal (strip s)).
Proof.
  intros Hno Hd Hsp. unfold parse_event_id.
  destruct (Re.search_event s) as [g0|] eqn:E.
  - destruct (search_event_some s g0 E) as (pre0 & post0 & Hseg & _).
    elim (Hno _ _ _ Hseg).
  - rewrite Hd. destruct (strip_split s) as (l & r & Es & Hl & Hr).
    rewrite Es in Hsp. rewrite !all_chars_app in Hsp.
    apply andb_prop in Hsp. destruct Hsp as [Hl' Hsp].
    apply andb_prop in Hsp. destruct Hsp as [_ Hr'].
    simpl. rewrite Es at 1.
    rewrite (int_of_padded_digits l (strip s) r); auto.
    + exact (all_chars_weaken _ _ _ Hl' Hl).
    + exact (all_chars_weaken _ _ _ Hr' Hr).
Qed.

(** Any other string is refused. *)
Lemma parse_event_id_malformed (s : string) :
  (forall pre g post, ~ event_segment s pre g post) ->
  fullmatch_digits (strip s) = false ->
  parse_event_id s = Raise ValueError.
Proof.
  intros Hno Hd. unfold parse_event_id.
  destruct (Re.search_event s) as [g0|] eqn:E.
  - destruct (search_event_some s g0 E) as (pre0 & post0 & Hseg & _).
    elim (Hno _ _ _ Hseg).
  - rewrite Hd. reflexivity.
Qed.

End EventId.

Example parse_event_id_url :
  parse_event_id "https://bracketteam.com/event/6489/2025_Fall_Tip_Off/schedules"
  = Ret 6489.
Proof. reflexivity. Qed.

Example parse_event_id_number : parse_event_id " 6489 " = Ret 6489.
Proof. reflexivity. Qed.

Example parse_event_id_word : parse_event_id "event/abc" = Raise ValueError.
Proof. reflexivity. Qed.

(** C7, where the code departs from it.  The string made of the separator
    FS (code point 28) and the digits 12 has no event segment, and trimmed it
    is the run of digits "12"; [parse_event_id] passes the untrimmed string to
    [int], which does not accept FS, and raises instead of returning 12. *)
Theorem parse_event_id_separator :
  (forall pre g post, ~ event_segment separator_id pre g post) /\
  PyStr.strip separator_id = "12" /\
  PyStr.fullmatch_digits (PyStr.strip separator_id) = true /\
  Py.int (JStr (PyStr.strip separator_id)) = Ret 12 /\
  parse_event_id separator_id = Raise ValueError.
Proof.
  split; [apply search_event_none; reflexivity|].
  repeat split; reflexivity.
Qed.

Open Scope list_scope.

(** ** [get_json] *)

Section GetJsonFacts.
Variables (session : Session) (url : string) (params : list (string * json)).

Lemma ok_no_retry (status : Z) : ok status = true -> retry_status status = false.
Proof.
  unfold ok, retry_status. intros H.
  apply negb_true_iff in H. apply andb_false_iff in H.
  destruct (Z.eqb_spec status 429) as [->|_]; [destruct H; discriminate|].
  simpl. apply andb_false_iff.
  destruct H as [H|H]; [|right; exact H].
  left. apply Z.leb_gt. apply Z.leb_gt in H. lia.
Qed.

(** One round of the loop that ends with a parsed body. *)
Lemma round_success (fuel attempt : nat) (delay : Q) (w : World) (j : json) :
  success (net w (clock w)) j ->
  get_json_loop session url params (S fuel) attempt delay w
  = (Ret j, advance w 1 [request session url params]).
Proof.
  intros (status & resp_url & E & Hok).
  cbn [get_json_loop]. unfold bind at 1, session_get.
  rewrite E, (ok_no_retry _ Hok), Hok. reflexivity.
Qed.

(** One round that meets a transient failure with attempts left. *)
Lemma round_retry (fuel attempt : nat) (delay : Q) (w : World) :
  transient (net w (clock w)) = true ->
  (S attempt <? MAX_RETRIES)%nat = true ->
  get_json_loop session url params (S fuel) attempt delay w
  = get_json_loop session url params fuel (S attempt) (delay * BACKOFF)%Q
      (advance w 1 [request session url params; ESleep delay]).
Proof.
  intros Ht Hlt.
  cbn [get_json_loop]. unfold bind at 1, session_get.
  destruct (net w (clock w)) as [status resp_url body|e]; simpl in Ht;
    rewrite Ht, Hlt; unfold bind, sleep, emit, advance; simpl;
    rewrite <- app_assoc; reflexivity.
Qed.

(** The round of the last allowed attempt, meeting a transient failure. *)
Lemma round_give_up (fuel attempt : nat) (delay : Q) (w : World) :
  transient (net w (clock w)) = true ->
  (S attempt <? MAX_RETRIES)%nat = false ->
  get_json_loop session url params (S fuel) attempt delay w
  = (Ret JNull,
     advance w 1 [request session url params; EStderr (match net w (clock w) with
                                | Response status resp_url _ =>
                                    HttpAfterAttempts status (S attempt) resp_url
                                | Fails e => RequestErrorAfter (S attempt) url e
                                end)]).
Proof.
  intros Ht Hlt.
  cbn [get_json_loop]. unfold bind at 1, session_get.
  destruct (net w (clock w)) as [status resp_url body|e]; simpl in Ht;
    rewrite Ht, Hlt; unfold bind, stderr_write, emit, advance, ret; simpl;
    rewrite <- app_assoc; reflexivity.
Qed.

End GetJsonFacts.

Lemma advance_advance (w : World) (n m : nat) (a b : list Event) :
  advance (advance w n a) m b = advance w (m + n) (a ++ b).
Proof.
  unfold advance. simpl. rewrite Nat.add_assoc, app_assoc. reflexivity.
Qed.

Lemma get_json_enter (session : Session) (url : string)
  (params : list (string * json)) (w : World) :
  get_json session url params w
  = get_json_loop session url params 3 0 BACKOFF
      (advance w 0 [EFetch url params]).
Proof. reflexivity. Qed.

Lemma sleeps_of_app (a b : list Event) :
  sleeps_of (a ++ b) = sleeps_of a ++ sleeps_of b.
Proof. apply flat_map_app. Qed.

(** *** What a call of [get_json] leaves behind *)

Lemma advance_nothing (w : World) : advance w 0 [] = w.
Proof. destruct w. unfold advance. simpl. rewrite app_nil_r. reflexivity. Qed.

Lemma get_json_loop_round (session : Session) (url : string)
  (params : list (string * json)) (fuel attempt : nat) (delay : Q) (w : World) :
  get_json_loop session url params (S fuel) attempt delay w
  = after_request
      (sleep delay ;;;
       get_json_loop session url params fuel (S attempt) (delay * BACKOFF)%Q)
      url (S attempt) (net w (clock w))
      (advance w 1 [request session url params]).
Proof. reflexivity. Qed.

Lemma get_json_loop_sim (fuel : nat) :
  forall attempt session url params delay session' url' params' delay' w w',
    net w = net w' -> clock w = clock w' ->
    exists r n evs evs',
      get_json_loop session url params fuel attempt delay w
      = (r, advance w n evs) /\
      get_json_loop session' url' params' fuel attempt delay' w'
      = (r, advance w' n evs') /\
      forallb quiet evs = true /\ forallb quiet evs' = true.
Proof.
  induction fuel as [|fuel IH];
    intros attempt session url params delay session' url' params' delay' w w'
      Hn Hc.
  - exists OutOfFuel, 0%nat, [], []. unfold lift. simpl.
    rewrite !advance_nothing. auto.
  - rewrite !get_json_loop_round. rewrite <- Hn, <- Hc.
    set (get := request session url params).
    set (get' := request session' url' params').
    assert (Hrec :
      exists r n evs evs',
        (sleep delay ;;;
         get_json_loop session url params fuel (S attempt) (delay * BACKOFF)%Q)
          (advance w 1 [get]) = (r, advance w n evs) /\
        (sleep delay' ;;;
         get_json_loop session' url' params' fuel (S attempt) (delay' * BACKOFF)%Q)
          (advance w' 1 [get']) = (r, advance w' n evs') /\
        forallb quiet evs = true /\ forallb quiet evs' = true).
    { destruct (IH (S attempt) session url params (delay * BACKOFF)%Q
                  session' url' params' (delay' * BACKOFF)%Q
                  (advance w 1 [get; ESleep delay])
                  (advance w' 1 [get'; ESleep delay']))
        as (r & n & evs & evs' & E1 & E2 & Q1 & Q2);
        [exact Hn | simpl; congruence |].
      exists r, (n + 1)%nat, ([get; ESleep delay] ++ evs)%list,
        ([get'; ESleep delay'] ++ evs')%list.
      rewrite advance_advance in E1, E2.
      repeat split; auto.
      - rewrite <- E1. unfold bind, sleep, emit, advance. simpl.
        rewrite <- app_assoc. reflexivity.
      - rewrite <- E2. unfold bind, sleep, emit, advance. simpl.
        rewrite <- app_assoc. reflexivity. }
    assert (Hend : forall (j : json) m m',
      exists r n evs evs',
        (stderr_write m ;;; ret j) (advance w 1 [get]) = (r, advance w n evs) /\
        (stderr_write m' ;;; ret j) (advance w' 1 [get']) = (r, advance w' n evs') /\
        forallb quiet evs = true /\ forallb quiet evs' = true).
    { intros j m m'. exists (Ret j), 1%nat, [get; EStderr m], [get'; EStderr m'].
      unfold bind, stderr_write, emit, ret, advance. simpl.
      rewrite <- !app_assoc. auto. }
    unfold after_request.
    assert (Hraise : forall e : exn,
      exists r n evs evs',
        lift (Raise e) (advance w 1 [get]) = (r : res json, advance w n evs) /\
        lift (Raise e) (advance w' 1 [get']) = (r, advance w' n evs') /\
        forallb quiet evs = true /\ forallb quiet evs' = true).
    { intros e. exists (Raise e), 1%nat, [get], [get']. unfold lift. auto. }
    destruct (net w (clock w)) as [status resp_url body|e].
    + destruct (retry_status status).
      * destruct (S attempt <? MAX_RETRIES)%nat; [apply Hrec|apply Hend].
      * destruct (negb (ok status)); [apply Hend|].
        destruct body as [j|e].
        -- exists (Ret j), 1%nat, [get], [get']. unfold ret. auto.
        -- destruct (is_RequestException e).
           ++ destruct (S attempt <? MAX_RETRIES)%nat; [apply Hrec|apply Hend].
           ++ destruct (is_ValueError e); [apply Hend|apply Hraise].
    + destruct (is_RequestException e).
      * destruct (S attempt <? MAX_RETRIES)%nat; [apply Hrec|apply Hend].
      * destruct (is_ValueError e); [apply Hend|apply Hraise].
Qed.

Lemma get_json_answer (session : Session) (url : string)
  (params : list (string * json)) (w : World) :
  exists r n evs,
    get_json session url params w = (r, advance w n (EFetch url params :: evs)) /\
    answer (net w) (clock w) = (r, (n + clock w)%nat) /\
    forallb quiet evs = true.
Proof.
  destruct (get_json_loop_sim 3 0 session url params BACKOFF
              (make_session "") "" [] BACKOFF
              (advance w 0 [EFetch url params])
              (advance {| net := net w; clock := clock w; trace := [] |} 0
                 [EFetch "" []]) eq_refl eq_refl)
    as (r & n & evs & evs' & E1 & E2 & Q1 & _).
  exists r, n, evs. split; [|split; [|exact Q1]].
  - rewrite get_json_enter, E1, advance_advance.
    rewrite Nat.add_0_r. reflexivity.
  - unfold answer. rewrite get_json_enter, E2. reflexivity.
Qed.

(** [get_json] always comes back: three rounds are enough fuel. *)
Lemma get_json_loop_total (fuel : nat) :
  forall attempt session url params delay w,
    (0 < fuel)%nat -> (MAX_RETRIES <= attempt + fuel)%nat ->
    fst (get_json_loop session url params fuel attempt delay w) <> OutOfFuel.
Proof.
  induction fuel as [|fuel IH]; intros attempt session url params delay w H0 Hm;
    [lia|].
  rewrite get_json_loop_round. unfold after_request.
  assert (Hrec : (S attempt <? MAX_RETRIES)%nat = true ->
    fst ((sleep delay ;;;
          get_json_loop session url params fuel (S attempt) (delay * BACKOFF)%Q)
           (advance w 1 [request session url params])) <> OutOfFuel).
  { intros Hlt. apply Nat.ltb_lt in Hlt. unfold bind, sleep, emit.
    apply IH; lia. }
  destruct (net w (clock w)) as [status resp_url body|e].
  - destruct (retry_status status).
    + destruct (S attempt <? MAX_RETRIES)%nat; [auto|discriminate].
    + destruct (negb (ok status)); [discriminate|].
      destruct body as [j|e]; [discriminate|].
      destruct (is_RequestException e).
      * destruct (S attempt <? MAX_RETRIES)%nat; [auto|discriminate].
      * destruct (is_ValueError e); discriminate.
  - destruct (is_RequestException e).
    + destruct (S attempt <? MAX_RETRIES)%nat; [auto|discriminate].
    + destruct (is_ValueError e); discriminate.
Qed.

Lemma get_json_total (session : Session) (url : string)
  (params : list (string * json)) (w : World) :
  fst (get_json session url params w) <> OutOfFuel.
Proof.
  rewrite get_json_enter. apply get_json_loop_total; unfold MAX_RETRIES; lia.
Qed.

(** Whatever the server does, a round of the loop started with attempts
    left makes at most the requests that are left, sleeps before every request
    but its first, with delays that grow by the factor [BACKOFF], and comes
    back. *)
Lemma get_json_loop_bounded (fuel : nat) :
  forall attempt session url params delay w,
    (attempt < MAX_RETRIES)%nat -> (MAX_RETRIES <= attempt + fuel)%nat ->
    exists r n evs,
      get_json_loop session url params fuel attempt delay w
      = (r, advance w (S n) evs) /\
      (S n + attempt <= MAX_RETRIES)%nat /\
      sleeps_of evs = delays delay n /\
      r <> OutOfFuel.
Proof.
  induction fuel as [|fuel IH]; intros attempt session url params delay w Ha Hm;
    [lia|].
  rewrite get_json_loop_round. unfold after_request.
  set (get := request session url params).
  assert (Hrec : (S attempt <? MAX_RETRIES)%nat = true ->
    exists r n evs,
      (sleep delay ;;;
       get_json_loop session url params fuel (S attempt) (delay * BACKOFF)%Q)
        (advance w 1 [get]) = (r, advance w (S n) evs) /\
      (S n + attempt <= MAX_RETRIES)%nat /\
      sleeps_of evs = delays delay n /\ r <> OutOfFuel).
  { intros Hlt. apply Nat.ltb_lt in Hlt.
    destruct (IH (S attempt) session url params (delay * BACKOFF)%Q
                (advance w 1 [get; ESleep delay]))
      as (r & n & evs & E & Hn & Hs & Hr); [lia|lia|].
    exists r, (S n), ([get; ESleep delay] ++ evs).
    split; [|split; [lia|split; [|exact Hr]]].
    - unfold bind, sleep, emit.
      replace {| net := net (advance w 1 [get]);
                 clock := clock (advance w 1 [get]);
                 trace := trace (advance w 1 [get]) ++ [ESleep delay] |}
        with (advance w 1 [get; ESleep delay])
        by (unfold advance; simpl; rewrite <- app_assoc; reflexivity).
      rewrite E, advance_advance. rewrite Nat.add_1_r. reflexivity.
    - rewrite sleeps_of_app, Hs. reflexivity. }
  assert (Hend : forall m (j : json),
    exists r n evs,
      (stderr_write m ;;; ret j) (advance w 1 [get]) = (r, advance w (S n) evs) /\
      (S n + attempt <= MAX_RETRIES)%nat /\
      sleeps_of evs = delays delay n /\ r <> OutOfFuel).
  { intros m j. exists (Ret j), 0%nat, [get; EStderr m].
    split; [|split; [lia|split; [reflexivity|discriminate]]].
    unfold bind, stderr_write, emit, ret, advance. simpl.
    rewrite <- app_assoc. reflexivity. }
  assert (Hstop : forall r : res json, r <> OutOfFuel ->
    exists r' n evs,
      (r, advance w 1 [get]) = (r', advance w (S n) evs) /\
      (S n + attempt <= MAX_RETRIES)%nat /\
      sleeps_of evs = delays delay n /\ r' <> OutOfFuel).
  { intros r Hr. exists r, 0%nat, [get].
    split; [reflexivity|split; [lia|split; [reflexivity|exact Hr]]]. }
  destruct (net w (clock w)) as [status resp_url body|e].
  - destruct (retry_status status).
    + destruct (S attempt <? MAX_RETRIES)%nat; [auto|apply Hend].
    + destruct (negb (ok status)); [apply Hend|].
      destruct body as [j|e]; [apply Hstop; discriminate|].
      destruct (is_RequestException e).
      * destruct (S attempt <? MAX_RETRIES)%nat; [auto|apply Hend].
      * destruct (is_ValueError e); [apply Hend|apply Hstop; discriminate].
  - destruct (is_RequestException e).
    + destruct (S attempt <? MAX_RETRIES)%nat; [auto|apply Hend].
    + destruct (is_ValueError e); [apply Hend|apply Hstop; discriminate].
Qed.

(** C2.  [get_json] tries a request again after a transient failure (status
    429, a status 5xx, [session.get] raising a [RequestException]), three
    attempts at most; it sleeps 1.5 before the second attempt and 2.25 before
    the third, and returns the parsed body of the first success.  After a
    third transient failure it writes a line to [stderr] and returns [None]:
    no fourth request, no sleep after the last attempt. *)
Theorem get_json_retry_policy (session : Session) (url : string)
  (params : list (string * json)) :
  let fetch := EFetch url params in
  let get := request session url params in
  (forall w j,
      success (net w (clock w)) j ->
      get_json session url params w = (Ret j, advance w 1 [fetch; get])) /\
  (forall w j,
      transient (net w (clock w)) = true ->
      success (net w (1 + clock w)%nat) j ->
      get_json session url params w
      = (Ret j, advance w 2 [fetch; get; ESleep (3 # 2); get])) /\
  (forall w j,
      transient (net w (clock w)) = true ->
      transient (net w (1 + clock w)%nat) = true ->
      success (net w (2 + clock w)%nat) j ->
      get_json session url params w
      = (Ret j, advance w 3 [fetch; get; ESleep (3 # 2); get;
                             ESleep (9 # 4); get])) /\
  (forall w,
      transient (net w (clock w)) = true ->
      transient (net w (1 + clock w)%nat) = true ->
      transient (net w (2 + clock w)%nat) = true ->
      get_json session url params w
      = (Ret JNull,
         advance w 3 [fetch; get; ESleep (3 # 2); get; ESleep (9 # 4); get;
                      EStderr (final_message (net w (2 + clock w)%nat) url)])) /\
  (forall w,
      exists r n evs,
        get_json session url params w = (r, advance w (S n) (fetch :: evs)) /\
        (n <= 2)%nat /\
        sleeps_of evs = firstn n [(3 # 2)%Q; (9 # 4)%Q] /\
        r <> OutOfFuel) /\
  (forall j,
      let w := start (script [http_500; http_500; http_ok j] http_500) in
      exists w',
        get_json session url params w = (Ret j, w') /\
        sleeps_of (trace w') = [(3 # 2)%Q; (9 # 4)%Q] /\ clock w' = 3%nat) /\
  (let w := start (script [http_500; http_500; http_500] (http_ok JNull)) in
   exists w',
     get_json session url params w = (Ret JNull, w') /\
     sleeps_of (trace w') = [(3 # 2)%Q; (9 # 4)%Q] /\ clock w' = 3%nat /\
     trace w' = [fetch; get; ESleep (3 # 2); get; ESleep (9 # 4); get;
                 EStderr (HttpAfterAttempts 500 3 reported_url)]).
Proof.
  intros fetch get. split; [|split; [|split; [|split; [|split; [|split]]]]].
  - intros w j H. rewrite get_json_enter.
    rewrite (round_success _ _ _ _ _ _ _ j) by exact H.
    rewrite advance_advance. reflexivity.
  - intros w j H0 H1. rewrite get_json_enter.
    rewrite round_retry by (exact H0 || reflexivity).
    rewrite (round_success _ _ _ _ _ _ _ j) by exact H1.
    rewrite !advance_advance. reflexivity.
  - intros w j H0 H1 H2. rewrite get_json_enter.
    rewrite round_retry by (exact H0 || reflexivity).
    rewrite round_retry by (exact H1 || reflexivity).
    rewrite (round_success _ _ _ _ _ _ _ j) by exact H2.
    rewrite !advance_advance. reflexivity.
  - intros w H0 H1 H2. rewrite get_json_enter.
    rewrite round_retry by (exact H0 || reflexivity).
    rewrite round_retry by (exact H1 || reflexivity).
    rewrite round_give_up by (exact H2 || reflexivity).
    rewrite !advance_advance.
    unfold final_message. simpl.
    destruct (net w (S (S (clock w)))); reflexivity.
  - intros w. rewrite get_json_enter. unfold fetch.
    destruct (get_json_loop_bounded 3 0 session url params BACKOFF
                (advance w 0 [EFetch url params]))
      as (r & n & evs & E & Hn & Hs & Hr);
      [unfold MAX_RETRIES; lia|unfold MAX_RETRIES; lia|].
    exists r, n, evs. rewrite E, advance_advance, Nat.add_0_r.
    unfold MAX_RETRIES in Hn.
    split; [reflexivity|]. split; [lia|]. split; [|exact Hr].
    rewrite Hs. destruct n as [|[|[|n]]]; try reflexivity. lia.
  - intros j w.
    exists (advance w 3 [fetch; get; ESleep (3 # 2); get; ESleep (9 # 4); get]).
    repeat split; reflexivity.
  - intros w.
    exists (advance w 3 [fetch; get; ESleep (3 # 2); get; ESleep (9 # 4); get;
                         EStderr (HttpAfterAttempts 500 3 reported_url)]).
    repeat split; reflexivity.
Qed.

(** C3, where the code departs from it.  A response with status 200 whose
    body does not parse makes [resp.json()] raise
    [requests.JSONDecodeError], which is a [RequestException] as well as a
    [ValueError]; the handler for [RequestException] comes first, so
    [get_json] sleeps and asks again: three requests and two sleeps before it
    returns [None]. *)
Theorem get_json_unparseable_retried (session : Session) (url : string)
  (params : list (string * json)) :
  let w := start (always (Response 200 reported_url
                            (BodyRaises RequestsJSONDecodeError))) in
  let get := request session url params in
  ok 200 = true /\ retry_status 200 = false /\
  is_RequestException RequestsJSONDecodeError = true /\
  is_ValueError RequestsJSONDecodeError = true /\
  get_json session url params w
  = (Ret JNull,
     advance w 3 [EFetch url params; get; ESleep (3 # 2); get; ESleep (9 # 4);
                  get; EStderr (RequestErrorAfter 3 url RequestsJSONDecodeError)]).
Proof. repeat split; reflexivity. Qed.

(** A body whose parse error is a [ValueError] outside the [requests]
    hierarchy ends the call at once, as the handler for [ValueError] means
    it to. *)
Lemma get_json_plain_value_error (session : Session) (url : string)
  (params : list (string * json)) (w : World) (e : exn) :
  unparseable (net w (clock w)) e ->
  is_RequestException e = false -> is_ValueError e = true ->
  get_json session url params w
  = (Ret JNull,
     advance w 1 [EFetch url params; request session url params;
                  EStderr (JsonParseError url e)]).
Proof.
  intros (status & resp_url & E & Hok) Hr Hv. rewrite get_json_enter.
  cbn [get_json_loop]. unfold bind at 1, session_get.
  change (net (advance w 0 [EFetch url params])) with (net w).
  change (clock (advance w 0 [EFetch url params])) with (clock w).
  rewrite E, (ok_no_retry _ Hok), Hok, Hr, Hv.
  unfold bind, stderr_write, emit, advance, ret. simpl.
  rewrite <- !app_assoc. reflexivity.
Qed.

(** A body whose parse error is a [RequestException] is treated as a
    transient failure. *)
Lemma get_json_request_exception_body (session : Session) (url : string)
  (params : list (string * json)) (w : World) (e : exn) :
  unparseable (net w (clock w)) e ->
  is_RequestException e = true ->
  get_json session url params w
  = get_json_loop session url params 2 1 (BACKOFF * BACKOFF)%Q
      (advance w 1 [EFetch url params; request session url params;
                    ESleep BACKOFF]).
Proof.
  intros (status & resp_url & E & Hok) Hr. rewrite get_json_enter.
  cbn [get_json_loop]. unfold bind at 1, session_get.
  change (net (advance w 0 [EFetch url params])) with (net w).
  change (clock (advance w 0 [EFetch url params])) with (clock w).
  rewrite E, (ok_no_retry _ Hok), Hok, Hr.
  unfold bind, sleep, emit, advance. simpl.
  rewrite <- !app_assoc. reflexivity.
Qed.

(** ** [iter_matches] *)

Lemma bind_ret_eq {A B} (c : M A) (k : A -> M B) (w w' : World) (a : A) :
  c w = (Ret a, w') -> bind c k w = k a w'.
Proof. intros H. unfold bind. rewrite H. reflexivity. Qed.

Lemma bind_lift_ret {A B} (a : A) (k : A -> M B) (w : World) :
  bind (lift (Ret a)) k w = k a w.
Proof. reflexivity. Qed.

Lemma yields_of_app (a b : list Event) :
  yields_of (a ++ b) = yields_of a ++ yields_of b.
Proof. apply flat_map_app. Qed.

Lemma fetches_of_app (a b : list Event) :
  fetches_of (a ++ b) = fetches_of a ++ fetches_of b.
Proof. apply flat_map_app. Qed.

Lemma rows_of_app (a b : list Event) :
  rows_of (a ++ b) = rows_of a ++ rows_of b.
Proof. apply flat_map_app. Qed.

Lemma quiet_silent (evs : list Event) :
  forallb quiet evs = true ->
  yields_of evs = [] /\ fetches_of evs = [] /\ rows_of evs = [].
Proof.
  induction evs as [|e evs IH]; simpl; [auto|].
  intros H. apply andb_prop in H. destruct H as [He H].
  destruct (IH H) as (Y & F & R).
  destruct e; try discriminate He; simpl; auto.
Qed.

Lemma page_of_cases (response : json) (p : list json) :
  page_of response = Ret p ->
  exists matches,
    matches_of response = Ret matches /\
    ((Py.truthy matches = false /\ p = []) \/
     (Py.truthy matches = true /\ Py.iter matches = Ret p)).
Proof.
  unfold page_of. destruct (matches_of response) as [m| |]; simpl;
    try discriminate.
  intros H. exists m. split; [reflexivity|].
  destruct (Py.truthy m).
  - right. auto.
  - left. injection H as <-. auto.
Qed.

Section PaginateFacts.
Variables (session : Session) (tournament_id division_id : Z).
Context {S : Type} (consume : S -> json -> M S).

(** A consumer that, on a good match, only updates its variables with
    [step] and leaves the effects [effects m], none of them a yield or a call
    of [get_json]. *)
Variables (good : json -> Prop) (step : S -> json -> S)
  (effects : json -> list Event).
Hypothesis consume_good : forall acc m w,
  good m -> consume acc m w = (Ret (step acc m), advance w 0 (effects m)).
Hypothesis effects_silent : forall m,
  yields_of (effects m) = [] /\ fetches_of (effects m) = [].

Lemma for_each_yield (p : list json) :
  Forall good p ->
  forall acc w,
    for_each p (fun acc m => emit (EYield m) ;;; consume acc m) acc w
    = (Ret (fold_left step p acc),
       advance w 0 (flat_map (fun m => EYield m :: effects m) p)).
Proof.
  induction 1 as [|m p Hm Hp IH]; intros acc w.
  - simpl. unfold ret. rewrite advance_nothing. reflexivity.
  - cbn [for_each fold_left flat_map].
    assert (E : (emit (EYield m) ;;; consume acc m) w
                = (Ret (step acc m), advance w 0 (EYield m :: effects m))).
    { unfold bind, emit. rewrite (consume_good _ _ _ Hm).
      unfold advance. simpl. rewrite <- app_assoc. reflexivity. }
    rewrite (bind_ret_eq _ _ _ _ _ E), IH, advance_advance. reflexivity.
Qed.

Lemma yielded_events (p : list json) :
  yields_of (flat_map (fun m => EYield m :: effects m) p) = p /\
  fetches_of (flat_map (fun m => EYield m :: effects m) p) = [] /\
  rows_of (flat_map (fun m => EYield m :: effects m) p)
  = flat_map (fun m => rows_of (effects m)) p.
Proof.
  induction p as [|m p (Y & F & R)]; simpl; [auto|].
  destruct (effects_silent m) as [Ym Fm].
  change (EYield m :: effects m ++ flat_map (fun m => EYield m :: effects m) p)
    with ([EYield m] ++ (effects m ++ flat_map (fun m => EYield m :: effects m) p)).
  rewrite !yields_of_app, !fetches_of_app, !rows_of_app, Y, F, R, Ym, Fm.
  auto.
Qed.

(** The loop of [iter_matches] in front of a server that delivers the full
    pages [pages] and then the short page [last]. *)
Lemma iter_matches_loop_pages (last : list json) (pages : list (list json)) :
  forall fuel page acc w c',
    delivers (net w) (clock w) (pages ++ [last]) c' ->
    Forall full_page pages -> short_page last ->
    Forall good (List.concat pages ++ last) ->
    (List.length pages < fuel)%nat ->
    exists n evs,
      iter_matches_loop session tournament_id division_id consume fuel page acc w
      = (Ret (fold_left step (List.concat pages ++ last) acc), advance w n evs) /\
      c' = (n + clock w)%nat /\
      yields_of evs = List.concat pages ++ last /\
      fetches_of evs
      = page_fetches tournament_id division_id page (Datatypes.S (List.length pages)) /\
      rows_of evs = flat_map (fun m => rows_of (effects m)) (List.concat pages ++ last).
Proof.
  induction pages as [|p pages IH]; intros fuel page acc w c' Hd Hfull Hshort Hgood Hfuel.
  - destruct fuel as [|fuel]; [simpl in Hfuel; lia|].
    simpl in Hd. destruct Hd as (response & c1 & Ha & Hp & ->).
    destruct (get_json_answer session BASE_SCHEDULE
                (schedule_params tournament_id division_id page) w)
      as (r & n & evs & Eg & Ea & Q).
    rewrite Ha in Ea. injection Ea as <- ->.
    destruct (quiet_silent _ Q) as (Yq & Fq & Rq).
    destruct (page_of_cases _ _ Hp) as (m & Em & [[Ht ->] | [Ht Hi]]).
    + exists n, (EFetch BASE_SCHEDULE
                   (schedule_params tournament_id division_id page) :: evs).
      cbn [iter_matches_loop].
      rewrite (bind_ret_eq _ _ _ _ _ Eg), Em, bind_lift_ret, Ht. simpl.
      rewrite Yq, Fq, Rq. auto.
    + exists n, ((EFetch BASE_SCHEDULE
                    (schedule_params tournament_id division_id page) :: evs)
                 ++ flat_map (fun m => EYield m :: effects m) last).
      cbn [iter_matches_loop].
      rewrite (bind_ret_eq _ _ _ _ _ Eg), Em, bind_lift_ret, Ht. cbn [negb].
      rewrite Hi, bind_lift_ret.
      rewrite (bind_ret_eq _ _ _ _ _ (for_each_yield last Hgood acc _)).
      unfold Py.len. rewrite Hi. simpl bind_res. rewrite bind_lift_ret.
      unfold short_page in Hshort. apply Z.ltb_lt in Hshort. rewrite Hshort.
      unfold ret. rewrite advance_advance, Nat.add_0_l.
      destruct (yielded_events last) as (Y & F & R).
      rewrite yields_of_app, fetches_of_app, rows_of_app, Y, F, R.
      simpl. rewrite Yq, Fq, Rq. auto.
  - destruct fuel as [|fuel]; [simpl in Hfuel; lia|].
    simpl in Hd. destruct Hd as (response & c1 & Ha & Hp & Hd).
    destruct (get_json_answer session BASE_SCHEDULE
                (schedule_params tournament_id division_id page) w)
      as (r & n & evs & Eg & Ea & Q).
    rewrite Ha in Ea. injection Ea as <- ->.
    destruct (quiet_silent _ Q) as (Yq & Fq & Rq).
    inversion Hfull as [|? ? Hp_full Hfull']; subst.
    simpl in Hgood. rewrite <- app_assoc in Hgood.
    apply Forall_app in Hgood. destruct Hgood as [Hgp Hgood].
    destruct (page_of_cases _ _ Hp) as (m & Em & [[Ht ->] | [Ht Hi]]);
      [unfold full_page, MATCHES_PER_PAGE in Hp_full; simpl in Hp_full; lia|].
    set (w1 := advance w n (EFetch BASE_SCHEDULE
                   (schedule_params tournament_id division_id page) :: evs)) in *.
    set (w2 := advance w1 0 (flat_map (fun m => EYield m :: effects m) p)).
    set (w3 := advance w2 0 [ESleep SLEEP_TIME]).
    destruct (IH fuel (page + 1) (fold_left step p acc) w3 c' Hd Hfull' Hshort Hgood)
      as (n' & evs' & Ei & Ec & Y' & F' & R'); [simpl in Hfuel; lia|].
    exists (n' + n)%nat,
      ((EFetch BASE_SCHEDULE (schedule_params tournament_id division_id page) :: evs)
       ++ flat_map (fun m => EYield m :: effects m) p
       ++ [ESleep SLEEP_TIME] ++ evs').
    cbn [iter_matches_loop].
    rewrite (bind_ret_eq _ _ _ _ _ Eg), Em, bind_lift_ret, Ht. cbn [negb].
    rewrite Hi, bind_lift_ret.
    rewrite (bind_ret_eq _ _ _ _ _ (for_each_yield p Hgp acc _)).
    unfold Py.len. rewrite Hi. simpl bind_res. rewrite bind_lift_ret.
    unfold full_page in Hp_full. apply Z.ltb_ge in Hp_full. rewrite Hp_full.
    fold w2.
    assert (Es : sleep SLEEP_TIME w2 = (Ret tt, w3)) by reflexivity.
    rewrite (bind_ret_eq _ _ _ _ _ Es), Ei.
    destruct (yielded_events p) as (Y & F & R).
    split; [|split; [|split; [|split]]].
    + simpl List.concat. rewrite <- app_assoc, fold_left_app.
      unfold w3, w2, w1. rewrite !advance_advance.
      rewrite !Nat.add_0_r, !fold_left_app. reflexivity.
    + rewrite Ec. simpl. lia.
    + rewrite !yields_of_app, Y, Y'. simpl. rewrite Yq.
      rewrite <- app_assoc. reflexivity.
    + rewrite !fetches_of_app, F, F'. simpl. rewrite Fq. reflexivity.
    + rewrite !rows_of_app, R, R'. simpl. rewrite Rq.
      rewrite !flat_map_app, <- ?app_assoc. reflexivity.
Qed.

End PaginateFacts.

(** A failed fetch and a response without matches stand for the empty
    page. *)
Example page_of_failure :
  page_of JNull = Ret [] /\ page_of (JDict [("content", JNull)]) = Ret [] /\
  page_of (page_response []) = Ret [].
Proof. repeat split; reflexivity. Qed.

Lemma fold_left_snoc (items acc : list json) :
  fold_left (fun acc m => acc ++ [m]) items acc = acc ++ items.
Proof.
  revert acc. induction items as [|m items IH]; intros acc; simpl.
  - rewrite app_nil_r. reflexivity.
  - rewrite IH, <- app_assoc. reflexivity.
Qed.

Lemma collect_good (acc : list json) (m : json) (w : World) :
  True -> collect acc m w = (Ret (acc ++ [m]), advance w 0 []).
Proof. intros _. unfold collect, ret. rewrite advance_nothing. reflexivity. Qed.

Lemma collect_each (p acc : list json) (w : World) :
  for_each p (fun acc m => emit (EYield m) ;;; collect acc m) acc w
  = (Ret (acc ++ p), advance w 0 (map EYield p)).
Proof.
  rewrite (for_each_yield collect (fun _ => True) (fun acc m => acc ++ [m])
             (fun _ => []) collect_good p) by (apply Forall_forall; trivial).
  rewrite fold_left_snoc. f_equal.
Qed.

Lemma yields_of_map (p : list json) : yields_of (map EYield p) = p.
Proof. induction p as [|m p IH]; simpl; [reflexivity|rewrite IH; reflexivity]. Qed.

(** In every run of the loop, finished, failed or cut short, the matches
    yielded are those of pages the server delivered, in order: nothing else
    is ever yielded. *)
Lemma iter_matches_received (session : Session) (tournament_id division_id : Z)
  (fuel : nat) :
  forall page acc w,
    exists pages c' r n evs,
      iter_matches_loop session tournament_id division_id collect fuel page acc w
      = (r, advance w n evs) /\
      delivers (net w) (clock w) pages c' /\
      (c' <= n + clock w)%nat /\
      yields_of evs = List.concat pages /\
      (forall items, r = Ret items -> items = acc ++ List.concat pages) /\
      (List.length pages <= fuel)%nat.
Proof.
  induction fuel as [|fuel IH]; intros page acc w.
  - exists [], (clock w), OutOfFuel, 0%nat, []. simpl. unfold lift.
    rewrite advance_nothing. repeat split; auto. discriminate.
  - destruct (get_json_answer session BASE_SCHEDULE
                (schedule_params tournament_id division_id page) w)
      as (r0 & n0 & evs0 & Eg & Ea & Q).
    destruct (quiet_silent _ Q) as (Yq & _ & _).
    set (fetch := EFetch BASE_SCHEDULE
                    (schedule_params tournament_id division_id page)) in *.
    assert (Hstop : forall (r : res (list json)),
      (forall items, r <> Ret items) ->
      exists pages c' r' n evs,
        (r, advance w n0 (fetch :: evs0)) = (r', advance w n evs) /\
        delivers (net w) (clock w) pages c' /\
        (c' <= n + clock w)%nat /\
        yields_of evs = List.concat pages /\
        (forall items, r' = Ret items -> items = acc ++ List.concat pages) /\
        (List.length pages <= S fuel)%nat).
    { intros r Hr. exists [], (clock w), r, n0, (fetch :: evs0).
      simpl. repeat split; auto; try lia.
      intros items E. elim (Hr items E). }
    cbn [iter_matches_loop]. unfold bind at 1. rewrite Eg.
    destruct r0 as [response| |];
      [|apply Hstop; discriminate|apply Hstop; discriminate].
    unfold bind at 1, lift at 1.
    destruct (matches_of response) as [m| |] eqn:Em;
      [|apply Hstop; discriminate|apply Hstop; discriminate].
    destruct (Py.truthy m) eqn:Ht; cbn [negb].
    + unfold bind at 1, lift at 1.
      destruct (Py.iter m) as [items| |] eqn:Ei;
        [|apply Hstop; discriminate|apply Hstop; discriminate].
      assert (Hp : page_of response = Ret items)
        by (unfold page_of; rewrite Em; simpl; rewrite Ht; exact Ei).
      rewrite (bind_ret_eq _ _ _ _ _ (collect_each items acc _)).
      unfold Py.len. rewrite Ei. simpl bind_res. rewrite bind_lift_ret.
      set (w2 := advance (advance w n0 (fetch :: evs0)) 0 (map EYield items)).
      destruct (Z.of_nat (List.length items) <? MATCHES_PER_PAGE)%Z.
      * exists [items], (n0 + clock w)%nat, (Ret (acc ++ items)), n0,
          ((fetch :: evs0) ++ map EYield items).
        unfold ret, w2. rewrite advance_advance.
        split; [reflexivity|]. split.
        { simpl. exists response, (n0 + clock w)%nat. auto. }
        split; [lia|]. split.
        { rewrite yields_of_app, yields_of_map. simpl. rewrite Yq, app_nil_r.
          reflexivity. }
        split; [|simpl; lia].
        intros l E. injection E as <-. simpl. rewrite app_nil_r. reflexivity.
      * set (w3 := advance w2 0 [ESleep SLEEP_TIME]).
        destruct (IH (page + 1) (acc ++ items) w3)
          as (pages & c' & r & n & evs & E & Hd & Hc & Y & Hr & Hl).
        exists (items :: pages), c', r, (n + n0)%nat,
          ((fetch :: evs0) ++ map EYield items ++ [ESleep SLEEP_TIME] ++ evs).
        assert (Es : sleep SLEEP_TIME w2 = (Ret tt, w3)) by reflexivity.
        rewrite (bind_ret_eq _ _ _ _ _ Es), E.
        split.
        { unfold w3, w2. rewrite !advance_advance, !Nat.add_0_r.
          rewrite <- ?app_assoc. reflexivity. }
        split.
        { simpl. exists response, (n0 + clock w)%nat. auto. }
        split; [simpl in Hc; lia|]. split.
        { rewrite !yields_of_app, yields_of_map, Y. simpl. rewrite Yq.
          reflexivity. }
        split; [|simpl; lia].
        intros l El. rewrite (Hr l El). simpl. rewrite <- app_assoc. reflexivity.
    + assert (Hp : page_of response = Ret [])
        by (unfold page_of; rewrite Em; simpl; rewrite Ht; reflexivity).
      exists [[]], (n0 + clock w)%nat, (Ret acc), n0, (fetch :: evs0).
      split; [reflexivity|]. split.
      { simpl. exists response, (n0 + clock w)%nat. auto. }
      split; [lia|]. split; [simpl; exact Yq|].
      split; [|simpl; lia].
      intros l E. injection E as <-. simpl. rewrite app_nil_r. reflexivity.
Qed.

(** C1.  In front of a server that delivers the full pages [pages] and
    then a short page [last] (fewer than 20 matches, none at all included),
    [iter_matches] returns after yielding the matches of these pages, in the
    order received, and nothing else; it has then called [get_json] once per
    page, for the pages 1, 2, ... in turn, the empty page after a full one
    included.  In every run, finished, failed or cut short, the matches
    yielded are those of pages the server delivered.  Pages of sizes 20, 20, 7
    give 47 matches over 3 calls, pages of sizes 20, 20, 20, 0 give 60 matches
    over 4 calls. *)
Theorem iter_matches_pages (session : Session) (tournament_id division_id : Z) :
  (forall (pages : list (list json)) (last : list json) fuel acc w c',
      delivers (net w) (clock w) (pages ++ [last]) c' ->
      Forall full_page pages -> short_page last ->
      (List.length pages < fuel)%nat ->
      exists n evs,
        iter_matches session tournament_id division_id collect fuel acc w
        = (Ret (acc ++ List.concat pages ++ last), advance w n evs) /\
        c' = (n + clock w)%nat /\
        yields_of evs = List.concat pages ++ last /\
        fetches_of evs
        = page_fetches tournament_id division_id 1 (S (List.length pages))) /\
  (forall fuel acc w,
      exists pages c' r n evs,
        iter_matches session tournament_id division_id collect fuel acc w
        = (r, advance w n evs) /\
        delivers (net w) (clock w) pages c' /\
        (c' <= n + clock w)%nat /\
        yields_of evs = List.concat pages /\
        (forall items, r = Ret items -> items = acc ++ List.concat pages) /\
        (List.length pages <= fuel)%nat) /\
  (exists w',
      iter_matches session tournament_id division_id collect 10 [] (start server_47)
      = (Ret (records 0 47), w') /\
      yields_of (trace w') = records 0 47 /\
      List.length (yields_of (trace w')) = 47%nat /\
      fetches_of (trace w') = page_fetches tournament_id division_id 1 3 /\
      clock w' = 3%nat) /\
  (exists w',
      iter_matches session tournament_id division_id collect 10 [] (start server_60)
      = (Ret (records 0 60), w') /\
      yields_of (trace w') = records 0 60 /\
      List.length (yields_of (trace w')) = 60%nat /\
      fetches_of (trace w') = page_fetches tournament_id division_id 1 4 /\
      clock w' = 4%nat).
Proof.
  split.
  - intros pages last fuel acc w c' Hd Hfull Hshort Hfuel.
    destruct (iter_matches_loop_pages session tournament_id division_id collect
                (fun _ => True) (fun acc m => acc ++ [m]) (fun _ => [])
                collect_good (fun _ => conj eq_refl eq_refl)
                last pages fuel 1 acc w c' Hd Hfull Hshort)
      as (n & evs & E & Ec & Y & F & _); [|exact Hfuel|].
    + apply Forall_forall. trivial.
    + exists n, evs. rewrite fold_left_snoc in E. auto.
  - split; [intros fuel acc w; apply iter_matches_received|]. split.
    + eexists. split; [vm_compute; reflexivity|].
      repeat split; vm_compute; reflexivity.
    + eexists. split; [vm_compute; reflexivity|].
      repeat split; vm_compute; reflexivity.
Qed.


(** ** [get_divisions] *)

Section DivisionFacts.
Variable repr_other : json -> string.

Lemma division_of_record (d : list (string * json)) :
  division_of repr_other (JDict d) =
  match dict_get d "id" with
  | JNull => Ret None
  | v =>
      let* i := Py.int v in
      Ret (Some (i, Py.or_ (dict_get d "division_name")
                      (Py.or_ (dict_get d "name")
                         (JStr ("Division " ++ py_str repr_other v)))))
  end.
Proof.
  unfold division_of. rewrite !get_dict. cbn [bind_res].
  destruct (dict_get d "id"); reflexivity.
Qed.

Lemma divisions_loop_entries (items : list json) (entries : list (option (Z * json))) :
  Forall2 (fun d e => division_of repr_other d = Ret e) items entries ->
  forall out, divisions_loop repr_other items out = Ret (out ++ present entries).
Proof.
  induction 1 as [|d e items entries Hd Hrest IH]; intros out; simpl.
  - rewrite app_nil_r. reflexivity.
  - rewrite Hd. simpl. destruct e as [p|].
    + rewrite IH, <- app_assoc. reflexivity.
    + apply IH.
Qed.

Lemma get_divisions_run (session : Session) (tournament_id : Z) (w : World) :
  exists r n evs,
    answer (net w) (clock w) = (r, (n + clock w)%nat) /\
    forallb quiet evs = true /\
    get_divisions repr_other session tournament_id w
    = ((let* response := r in
        let data := Py.or_ response (JDict []) in
        let* content := Py.get data "content" (JDict []) in
        let* tournament := Py.get content "tournament" (JDict []) in
        let* divisions := Py.get tournament "divisions" (JList []) in
        let* items := Py.iter divisions in
        divisions_loop repr_other items []),
       advance w n (EFetch BASE_PUBLIC [("tournament_id", JInt tournament_id)] :: evs)).
Proof.
  destruct (get_json_answer session BASE_PUBLIC
              [("tournament_id", JInt tournament_id)] w)
    as (r & n & evs & Eg & Ea & Q).
  exists r, n, evs. split; [exact Ea|]. split; [exact Q|].
  unfold get_divisions. unfold bind at 1. rewrite Eg.
  destruct r as [response| |]; try reflexivity.
  simpl bind_res. unfold bind, lift.
  destruct (Py.get _ "content" _) as [content| |]; try reflexivity.
  simpl bind_res.
  destruct (Py.get content "tournament" _) as [tournament| |]; try reflexivity.
  simpl bind_res.
  destruct (Py.get tournament "divisions" _) as [divisions| |]; try reflexivity.
  simpl bind_res.
  destruct (Py.iter divisions) as [items| |]; reflexivity.
Qed.

(** C8.  [get_divisions] returns the empty list, and raises nothing, when
    the fetch failed or one of the keys on the way to the divisions is absent.
    A division record without id ([None] included) is skipped; a record with
    an id is listed under [division_name] if that is truthy, else under [name]
    if that is truthy, else under "Division " followed by the id.  The list
    keeps the order of the records. *)
Theorem get_divisions_tolerant (session : Session) (tournament_id : Z) :
  (forall w response c',
      answer (net w) (clock w) = (Ret response, c') ->
      no_divisions response ->
      exists w', get_divisions repr_other session tournament_id w = (Ret [], w')) /\
  (forall d : list (string * json),
      dict_get d "id" = JNull ->
      division_of repr_other (JDict d) = Ret None) /\
  (forall (d : list (string * json)) (i : Z),
      dict_get d "id" <> JNull ->
      Py.int (dict_get d "id") = Ret i ->
      exists name,
        division_of repr_other (JDict d) = Ret (Some (i, name)) /\
        (Py.truthy (dict_get d "division_name") = true ->
         name = dict_get d "division_name") /\
        (Py.truthy (dict_get d "division_name") = false ->
         Py.truthy (dict_get d "name") = true ->
         name = dict_get d "name") /\
        (Py.truthy (dict_get d "division_name") = false ->
         Py.truthy (dict_get d "name") = false ->
         name = JStr ("Division " ++ py_str repr_other (dict_get d "id")))) /\
  (forall w response c' items entries,
      answer (net w) (clock w) = (Ret response, c') ->
      has_divisions response items ->
      Forall2 (fun d e => division_of repr_other d = Ret e) items entries ->
      exists w',
        get_divisions repr_other session tournament_id w
        = (Ret (present entries), w')) /\
  (exists w',
      get_divisions repr_other session tournament_id
        (start (always (http_ok (tournament_response sample_divisions))))
      = (Ret [(1, JStr "U10"); (3, JStr "Division 3"); (4, JStr "U14")], w')) /\
  (exists w',
      get_divisions repr_other session tournament_id (start (always http_500))
      = (Ret [], w')).
Proof.
  repeat split.
  - intros w response c' Ha Hno.
    destruct (get_divisions_run session tournament_id w)
      as (r & n & evs & Ea & _ & E).
    rewrite Ha in Ea. injection Ea as <- _. rewrite E. eexists.
    f_equal.
    destruct Hno as [Hf | (r & -> & Hno)].
    + simpl. unfold Py.or_. rewrite Hf. reflexivity.
    + simpl. unfold Py.or_.
      destruct Hno as [Hc | (c & Hc & Hno)].
      * destruct r as [|b r]; [reflexivity|].
        cbn [Py.truthy Py.get]. rewrite Hc. reflexivity.
      * destruct r as [|b r]; [discriminate|].
        cbn [Py.truthy Py.get]. rewrite Hc. cbn [bind_res Py.get].
        destruct Hno as [Ht | (t & Ht & Hd)].
        -- rewrite Ht. reflexivity.
        -- rewrite Ht. cbn [bind_res Py.get]. rewrite Hd. reflexivity.
  - intros d Hid. rewrite division_of_record, Hid. reflexivity.
  - intros d i Hid Hint. rewrite division_of_record.
    exists (Py.or_ (dict_get d "division_name")
              (Py.or_ (dict_get d "name")
                 (JStr ("Division " ++ py_str repr_other (dict_get d "id"))))).
    split; [|unfold Py.or_; repeat split; intros].
    + destruct (dict_get d "id"); cbv zeta; try (rewrite Hint; reflexivity).
      elim Hid; reflexivity.
    + rewrite H. reflexivity.
    + rewrite H, H0. reflexivity.
    + rewrite H, H0. reflexivity.
  - intros w response c' items entries Ha (r & c & t & -> & Hc & Ht & Hd) Hentries.
    destruct (get_divisions_run session tournament_id w)
      as (r' & n & evs & Ea & _ & E).
    rewrite Ha in Ea. injection Ea as <- _. rewrite E. eexists.
    f_equal. simpl. unfold Py.or_.
    destruct r as [|b r]; [discriminate|].
    cbn [Py.truthy Py.get]. rewrite Hc. cbn [bind_res Py.get].
    rewrite Ht. cbn [bind_res Py.get]. rewrite Hd. cbn [bind_res Py.iter].
    rewrite (divisions_loop_entries _ _ Hentries). reflexivity.
  - eexists. reflexivity.
  - eexists. reflexivity.
Qed.

(** Keys that are present with a value that is no record are not
    tolerated: the lookups after [content] have no guard. *)
Example get_divisions_null_content (session : Session) (tournament_id : Z) :
  fst (get_divisions repr_other session tournament_id
         (start (always (http_ok (JDict [("content", JNull)])))))
  = Raise AttributeError.
Proof. reflexivity. Qed.

End DivisionFacts.

(** ** [run] *)

Lemma write_row_record (div_name : json) (rows_written : Z) (m : json) (w : World) :
  Py.is_dict m = true ->
  write_row div_name rows_written m w
  = (Ret (rows_written + 1), advance w 0 [ERow (row_of div_name m)]).
Proof.
  destruct m; try discriminate. intros _.
  unfold write_row, row_of.
  rewrite extract_time_dict, extract_location_dict, extract_court_dict,
    extract_home_dict, extract_away_dict.
  reflexivity.
Qed.

Lemma fold_left_count (items : list json) (n : Z) :
  fold_left (fun acc (_ : json) => acc + 1) items n = n + Z.of_nat (List.length items).
Proof.
  revert n. induction items as [|m items IH]; intros n.
  - simpl. lia.
  - cbn [fold_left List.length]. rewrite IH. lia.
Qed.

Lemma or_str_resolved (token env_token : option string) :
  exists c t, or_str (or_str token env_token) (Some DEFAULT_TOKEN)
              = Some (String c t) /\
              resolve_token token env_token = String c t.
Proof.
  unfold resolve_token.
  destruct token as [[|c t]|]; destruct env_token as [[|c' t']|]; simpl;
    do 2 eexists; split; reflexivity.
Qed.

(** One division: [iter_matches] with the row writer as its consumer, in
    front of a server that delivers the pages of the block [b]. *)
Lemma export_division (session : Session) (tournament_id : Z)
  (fuel : nat) (d : Z * json) (b : Block) (rows_written : Z) (w : World) (c' : nat) :
  delivers (net w) (clock w) (pages_of b) c' ->
  walkable fuel b ->
  exists n evs,
    iter_matches session tournament_id (fst d) (write_row (snd d)) fuel
      rows_written w
    = (Ret (rows_written + Z.of_nat (List.length (items_of b))), advance w n evs) /\
    c' = (n + clock w)%nat /\
    yields_of evs = items_of b /\
    rows_of evs = rows_for (d, b) /\
    fetches_of evs = fetches_for tournament_id (d, b).
Proof.
  intros Hd (Hfull & Hshort & Hrec & Hfuel).
  destruct (iter_matches_loop_pages session tournament_id (fst d)
              (write_row (snd d)) (fun m => Py.is_dict m = true)
              (fun acc _ => acc + 1) (fun m => [ERow (row_of (snd d) m)])
              (write_row_record (snd d)) (fun _ => conj eq_refl eq_refl)
              (snd b) (fst b) fuel 1 rows_written w c' Hd Hfull Hshort Hrec Hfuel)
    as (n & evs & E & Ec & Y & F & R).
  exists n, evs. unfold iter_matches. rewrite E, fold_left_count.
  split; [reflexivity|]. split; [exact Ec|]. split; [exact Y|].
  split; [|exact F].
  rewrite R. unfold rows_for, items_of. simpl.
  clear. induction (List.concat (fst b) ++ snd b) as [|m l IH]; simpl;
    [reflexivity|rewrite IH; reflexivity].
Qed.

Lemma export_loop (session : Session) (tournament_id : Z) (fuel : nat)
  (jobs : list ((Z * json) * Block)) :
  forall rows_written w c',
    serves (net w) (clock w) (map snd jobs) c' ->
    Forall (walkable fuel) (map snd jobs) ->
    exists n evs,
      for_each (map fst jobs) (export_body session tournament_id fuel)
        rows_written w
      = (Ret (rows_written + Z.of_nat (List.length (flat_map rows_for jobs))),
         advance w n evs) /\
      c' = (n + clock w)%nat /\
      rows_of evs = flat_map rows_for jobs /\
      fetches_of evs = flat_map (fetches_for tournament_id) jobs.
Proof.
  induction jobs as [|[d b] jobs IH]; intros rows_written w c' Hs Hw.
  - simpl in Hs. subst c'. exists 0%nat, []. simpl. unfold ret.
    rewrite advance_nothing, Z.add_0_r. auto.
  - simpl in Hs. destruct Hs as (c1 & Hd & Hs).
    inversion Hw as [|? ? Hb Hw']; subst.
    destruct (export_division session tournament_id fuel d b rows_written w c1
                Hd Hb) as (n & evs & E & Ec & _ & R & F).
    set (w1 := advance w n evs) in *.
    set (w2 := advance w1 0 [ESleep SLEEP_TIME]).
    destruct (IH (rows_written + Z.of_nat (List.length (items_of b))) w2 c')
      as (n' & evs' & E' & Ec' & R' & F');
      [simpl; rewrite <- Ec; exact Hs|exact Hw'|].
    exists (n' + n)%nat, (evs ++ [ESleep SLEEP_TIME] ++ evs').
    split; [|split; [|split]].
    + cbn [map for_each fst].
      assert (Eb : export_body session tournament_id fuel rows_written d w
                   = (Ret (rows_written + Z.of_nat (List.length (items_of b))), w2)).
      { unfold export_body. destruct d as [div_id div_name].
        rewrite (bind_ret_eq _ _ _ _ _ E). reflexivity. }
      rewrite (bind_ret_eq _ _ _ _ _ Eb), E'.
      unfold w2, w1. rewrite !advance_advance, Nat.add_0_r.
      assert (Hl : List.length (rows_for (d, b)) = List.length (items_of b))
        by (unfold rows_for; simpl; apply length_map).
      cbn [flat_map]. rewrite length_app, Hl.
      rewrite Nat2Z.inj_add, Z.add_assoc. reflexivity.
    + rewrite Ec'. simpl. lia.
    + rewrite !rows_of_app, R, R'. reflexivity.
    + rewrite !fetches_of_app, F, F'. reflexivity.
Qed.

Section RunFacts.
Variable repr_other : json -> string.

Lemma run_unfold (fuel : nat) (event_ref out_csv : string)
  (token env_token : option string) (w : World) (t : Z) :
  parse_event_id event_ref = Ret t ->
  run repr_other fuel event_ref out_csv token env_token w
  = (divisions <- get_divisions repr_other
                    (make_session (resolve_token token env_token)) t ;;
     match divisions with
     | [] => stderr_write (NoDivisionsFound t) ;;; ret 1
     | _ =>
         emit (EOpen out_csv) ;;;
         emit (EHeader fieldnames) ;;;
         rows_written <-
           for_each divisions
             (export_body (make_session (resolve_token token env_token)) t fuel) 0 ;;
         emit (EPrint rows_written out_csv) ;;; ret 0
     end) w.
Proof.
  intros Hp. unfold run. rewrite Hp, bind_lift_ret.
  destruct (or_str_resolved token env_token) as (c & s & -> & ->).
  reflexivity.
Qed.

End RunFacts.

(** *** Computations only add to the world *)

Lemma grows_ret {A} (a : A) : grows (ret a).
Proof. intros w. exists 0%nat, []. simpl. rewrite advance_nothing. reflexivity. Qed.

Lemma grows_lift {A} (r : res A) : grows (lift r).
Proof. intros w. exists 0%nat, []. simpl. rewrite advance_nothing. reflexivity. Qed.

Lemma grows_emit (e : Event) : grows (emit e).
Proof. intros w. exists 0%nat, [e]. reflexivity. Qed.

Lemma grows_bind {A B} (c : M A) (k : A -> M B) :
  grows c -> (forall a, grows (k a)) -> grows (bind c k).
Proof.
  intros Hc Hk w. destruct (Hc w) as (n & evs & E). unfold bind.
  destruct (c w) as [[a|e|] w1]; simpl in E; subst w1.
  - destruct (Hk a (advance w n evs)) as (n' & evs' & E').
    rewrite E', advance_advance. eauto.
  - simpl. eauto.
  - simpl. eauto.
Qed.

Lemma grows_for_each {A S} (body : S -> A -> M S) (l : list A) :
  (forall acc x, grows (body acc x)) -> forall acc, grows (for_each l body acc).
Proof.
  intros Hb. induction l as [|x l IH]; intros acc; simpl.
  - apply grows_ret.
  - apply grows_bind; auto.
Qed.

Lemma grows_get_json_loop (session : Session) (url : string)
  (params : list (string * json)) (fuel attempt : nat) (delay : Q) :
  grows (get_json_loop session url params fuel attempt delay).
Proof.
  intros w.
  destruct (get_json_loop_sim fuel attempt session url params delay
              session url params delay w w eq_refl eq_refl)
    as (r & n & evs & _ & E & _).
  rewrite E. simpl. eauto.
Qed.

Lemma grows_get_json (session : Session) (url : string)
  (params : list (string * json)) :
  grows (get_json session url params).
Proof.
  unfold get_json. apply grows_bind; [apply grows_emit|].
  intros _. apply grows_get_json_loop.
Qed.

Lemma grows_iter_matches_loop (session : Session) (tournament_id division_id : Z)
  {S} (consume : S -> json -> M S) (fuel : nat) :
  (forall acc m, grows (consume acc m)) ->
  forall page acc,
    grows (iter_matches_loop session tournament_id division_id consume fuel page acc).
Proof.
  intros Hc. induction fuel as [|fuel IH]; intros page acc.
  - apply grows_lift.
  - cbn [iter_matches_loop].
    apply grows_bind; [apply grows_get_json|]. intros response.
    apply grows_bind; [apply grows_lift|]. intros matches.
    destruct (negb (Py.truthy matches)); [apply grows_ret|].
    apply grows_bind; [apply grows_lift|]. intros items.
    apply grows_bind.
    { apply grows_for_each. intros a m.
      apply grows_bind; [apply grows_emit|auto]. }
    intros acc'. apply grows_bind; [apply grows_lift|]. intros n.
    destruct (n <? MATCHES_PER_PAGE)%Z; [apply grows_ret|].
    apply grows_bind; [apply grows_emit|auto].
Qed.

Lemma grows_write_row (div_name : json) (rows_written : Z) (m : json) :
  grows (write_row div_name rows_written m).
Proof.
  unfold write_row.
  repeat (apply grows_bind; [apply grows_lift|]; intros ?).
  apply grows_bind; [apply grows_emit|]. intros _. apply grows_ret.
Qed.

Lemma grows_export_body (session : Session) (tournament_id : Z) (fuel : nat)
  (rows_written : Z) (d : Z * json) :
  grows (export_body session tournament_id fuel rows_written d).
Proof.
  unfold export_body. destruct d as [div_id div_name].
  apply grows_bind.
  - apply grows_iter_matches_loop. intros; apply grows_write_row.
  - intros n. apply grows_bind; [apply grows_emit|]. intros _. apply grows_ret.
Qed.

(** The first effects of [get_json]: the call is entered and a request is
    made. *)
Lemma get_json_first_request (session : Session) (url : string)
  (params : list (string * json)) (w : World) :
  exists n evs,
    snd (get_json session url params w)
    = advance w (S n) (EFetch url params :: request session url params :: evs).
Proof.
  rewrite get_json_enter, get_json_loop_round.
  set (w1 := advance (advance w 0 [EFetch url params]) 1
               [request session url params]).
  assert (G : forall again, grows again ->
            grows (after_request again url 1 (net w (clock w)))).
  { intros again Ha. unfold after_request.
    assert (Hend : forall m (j : json), grows (stderr_write m ;;; ret j)).
    { intros m j. apply grows_bind; [apply grows_emit|].
      intros _. apply grows_ret. }
    destruct (net w (clock w)) as [status resp_url body|e].
    - destruct (retry_status status).
      + destruct (1 <? MAX_RETRIES)%nat; auto.
      + destruct (negb (ok status)); auto.
        destruct body as [j|e]; [apply grows_ret|].
        destruct (is_RequestException e).
        * destruct (1 <? MAX_RETRIES)%nat; auto.
        * destruct (is_ValueError e); [auto|apply grows_lift].
    - destruct (is_RequestException e).
      + destruct (1 <? MAX_RETRIES)%nat; auto.
      + destruct (is_ValueError e); [auto|apply grows_lift]. }
  destruct (G (sleep BACKOFF ;;;
               get_json_loop session url params 2 1 (BACKOFF * BACKOFF)%Q)) with (w := w1)
    as (n & evs & E).
  { apply grows_bind; [apply grows_emit|]. intros _. apply grows_get_json_loop. }
  change (net (advance w 0 [EFetch url params])
              (clock (advance w 0 [EFetch url params])))
    with (net w (clock w)).
  fold w1. rewrite E. unfold w1. rewrite !advance_advance.
  exists n, evs. rewrite Nat.add_0_r, Nat.add_1_r. reflexivity.
Qed.

Lemma bind_first {A B} (c : M A) (k : A -> M B) (w : World) (n : nat)
  (evs : list Event) :
  snd (c w) = advance w n evs ->
  (forall a, grows (k a)) ->
  exists n' evs', snd (bind c k w) = advance w (n' + n) (evs ++ evs').
Proof.
  intros E Hk. unfold bind.
  destruct (c w) as [[a|e|] w1]; simpl in E; subst w1.
  - destruct (Hk a (advance w n evs)) as (n' & evs' & E').
    rewrite E', advance_advance. eauto.
  - exists 0%nat, []. rewrite app_nil_r. reflexivity.
  - exists 0%nat, []. rewrite app_nil_r. reflexivity.
Qed.

Section TokenFacts.
Variable repr_other : json -> string.

Lemma grows_get_divisions (session : Session) (tournament_id : Z) :
  grows (get_divisions repr_other session tournament_id).
Proof.
  unfold get_divisions. apply grows_bind; [apply grows_get_json|]. intros r.
  repeat (apply grows_bind; [apply grows_lift|]; intros ?).
  apply grows_lift.
Qed.

Lemma resolve_no_token (token env_token : option string) :
  no_token token -> no_token env_token ->
  resolve_token token env_token = DEFAULT_TOKEN.
Proof. intros [-> | ->] [-> | ->]; reflexivity. Qed.

(** The guard on the token is dead code.  [run] never ends with exit code
    2: the token it ends up with is never empty, because a built-in token
    stands in when neither the command line nor the environment supplies
    one.  With no token from either source and an event reference that
    parses, [run] goes to the network: its first effects are the call for the
    divisions and a request that carries the built-in token. *)
Lemma run_default_token (fuel : nat) (event_ref out_csv : string)
  (token env_token : option string) (w : World) :
  fst (run repr_other fuel event_ref out_csv token env_token w) <> Ret 2 /\
  resolve_token token env_token <> "" /\
  (forall t,
      no_token token -> no_token env_token ->
      parse_event_id event_ref = Ret t ->
      exists n evs,
        snd (run repr_other fuel event_ref out_csv token env_token w)
        = advance w (S n)
            (EFetch BASE_PUBLIC [("tournament_id", JInt t)]
             :: request (make_session DEFAULT_TOKEN) BASE_PUBLIC
                  [("tournament_id", JInt t)]
             :: evs)).
Proof.
  split; [|split].
  - destruct (parse_event_id event_ref) as [t| |] eqn:Hp.
    + rewrite (run_unfold repr_other _ _ _ _ _ _ _ Hp). unfold bind at 1.
      destruct (get_divisions repr_other _ t w) as [[divisions| |] w1];
        try discriminate.
      destruct divisions as [|d divisions]; [discriminate|].
      unfold bind, emit.
      destruct (for_each _ _ _ _) as [[n| |] w2]; discriminate.
    + unfold run. rewrite Hp. discriminate.
    + unfold run. rewrite Hp. discriminate.
  - destruct (or_str_resolved token env_token) as (c & s & _ & ->).
    discriminate.
  - intros t Ht He Hp.
    rewrite (run_unfold repr_other _ _ _ _ _ _ _ Hp).
    rewrite (resolve_no_token _ _ Ht He).
    set (session := make_session DEFAULT_TOKEN).
    set (params := [("tournament_id", JInt t)]).
    destruct (get_json_first_request session BASE_PUBLIC params w)
      as (n & evs & E).
    destruct (bind_first _
                (fun response =>
                   let data := Py.or_ response (JDict []) in
                   content <- lift (Py.get data "content" (JDict [])) ;;
                   tournament <- lift (Py.get content "tournament" (JDict [])) ;;
                   divisions <- lift (Py.get tournament "divisions" (JList [])) ;;
                   items <- lift (Py.iter divisions) ;;
                   lift (divisions_loop repr_other items []))
                w _ _ E) as (n1 & evs1 & E1).
    { intros response.
      repeat (apply grows_bind; [apply grows_lift|]; intros ?).
      apply grows_lift. }
    match goal with
    | |- exists _ _, snd (bind _ ?k w) = _ =>
        destruct (bind_first (get_divisions repr_other session t) k w _ _ E1)
          as (n2 & evs2 & E2)
    end.
    { intros [|d divisions].
      - apply grows_bind; [apply grows_emit|]. intros _. apply grows_ret.
      - apply grows_bind; [apply grows_emit|]. intros _.
        apply grows_bind; [apply grows_emit|]. intros _.
        apply grows_bind.
        + apply grows_for_each. intros; apply grows_export_body.
        + intros rows. apply grows_bind; [apply grows_emit|].
          intros _. apply grows_ret. }
    rewrite E2. exists (n2 + (n1 + n))%nat, ((evs ++ evs1) ++ evs2).
    rewrite !Nat.add_succ_r. simpl. rewrite <- !app_assoc. reflexivity.
Qed.

End TokenFacts.

(** ** The theorems at concrete inputs *)

Lemma iter_matches_pages_witness :
  exists n evs,
    iter_matches sample_session 6489 11 collect 1 [] (start (always (page 0 2)))
    = (Ret ([] ++ List.concat [] ++ records 0 2),
       advance (start (always (page 0 2))) n evs) /\
    1%nat = (n + clock (start (always (page 0 2))))%nat /\
    yields_of evs = List.concat [] ++ records 0 2 /\
    fetches_of evs = page_fetches 6489 11 1 1.
Proof.
  apply (proj1 (iter_matches_pages sample_session 6489 11)
           [] (records 0 2) 1%nat [] (start (always (page 0 2))) 1%nat).
  - exists (page_response (records 0 2)), 1%nat.
    split; [reflexivity|]. split; reflexivity.
  - constructor.
  - reflexivity.
  - apply Nat.lt_0_1.
Defined.

Lemma get_json_retry_policy_witness :
  get_json sample_session BASE_PUBLIC []
    (start (script [http_500; http_ok (JDict [])] http_500))
  = (Ret (JDict []),
     advance (start (script [http_500; http_ok (JDict [])] http_500)) 2
       [EFetch BASE_PUBLIC []; request sample_session BASE_PUBLIC [];
        ESleep (3 # 2); request sample_session BASE_PUBLIC []]).
Proof.
  apply (proj1 (proj2 (get_json_retry_policy sample_session BASE_PUBLIC []))
           (start (script [http_500; http_ok (JDict [])] http_500)) (JDict [])).
  - reflexivity.
  - exists 200, reported_url. split; reflexivity.
Defined.

(** C4.  The code does not do what the claim and its own guard say.
    With no token on the command line and none in the environment, or an
    empty one, [run] does not end with exit code 2 before any network call:
    in front of a server that answers 500 it makes three requests, each with
    the built-in token in its [X-Authorization] header, writes the line of
    [get_json] and the line about the missing divisions, never the line about
    the missing token, and ends with exit code 1.  No input at all makes [run]
    end with exit code 2. *)
Theorem run_without_token :
  fst (run no_repr 5 "6489" "schedules.csv" None None (start (always http_500)))
  = Ret 1 /\
  fst (run no_repr 5 "6489" "schedules.csv" None None (start (always http_500)))
  <> Ret 2 /\
  clock (snd (run no_repr 5 "6489" "schedules.csv" None None
                (start (always http_500)))) = 3%nat /\
  requests_of (trace (snd (run no_repr 5 "6489" "schedules.csv" None None
                             (start (always http_500)))))
  = repeat (sent (make_session DEFAULT_TOKEN) BASE_PUBLIC
              [("tournament_id", JInt 6489)]) 3 /\
  stderr_of (trace (snd (run no_repr 5 "6489" "schedules.csv" None None
                           (start (always http_500)))))
  = [HttpAfterAttempts 500 3 reported_url; NoDivisionsFound 6489] /\
  run no_repr 5 "6489" "schedules.csv" None (Some "") (start (always http_500))
  = run no_repr 5 "6489" "schedules.csv" None None (start (always http_500)) /\
  (forall repr_other fuel event_ref out_csv token env_token w,
      fst (run repr_other fuel event_ref out_csv token env_token w) <> Ret 2).
Proof.
  split; [|split; [|split; [|split; [|split; [|split]]]]].
  - vm_compute. reflexivity.
  - vm_compute. discriminate.
  - vm_compute. reflexivity.
  - vm_compute. reflexivity.
  - vm_compute. reflexivity.
  - vm_compute. reflexivity.
  - intros repr_other fuel event_ref out_csv token env_token w.
    apply (run_default_token repr_other fuel event_ref out_csv token env_token w).
Qed.

Lemma run_default_token_witness :
  exists n evs,
    snd (run no_repr 5 "6489" "schedules.csv" None (Some "")
           (start (always http_500)))
    = advance (start (always http_500)) (S n)
        (EFetch BASE_PUBLIC [("tournament_id", JInt 6489)]
         :: request (make_session DEFAULT_TOKEN) BASE_PUBLIC
              [("tournament_id", JInt 6489)]
         :: evs).
Proof.
  apply (proj2 (proj2 (run_default_token no_repr 5 "6489" "schedules.csv"
                         None (Some "") (start (always http_500)))) 6489).
  - left. reflexivity.
  - right. reflexivity.
  - reflexivity.
Defined.

Lemma get_divisions_tolerant_witness :
  exists w',
    get_divisions no_repr sample_session 6489 (start (always http_500))
    = (Ret [], w').
Proof.
  apply (proj1 (get_divisions_tolerant no_repr sample_session 6489)
           (start (always http_500)) JNull 3%nat).
  - reflexivity.
  - left. reflexivity.
Defined.

(** * Further properties *)

(** ** [get_json]: the outcomes that end a call *)

Section GetJsonEndings.
Variables (session : Session) (url : string) (params : list (string * json)).

Lemma sleeps_of_retry_events (get : Event) (delay : Q) (k : nat) :
  (forall d, get <> ESleep d) ->
  sleeps_of (retry_events get delay k) = delays delay k.
Proof.
  intros Hg. revert delay. induction k as [|k IH]; intros delay; simpl.
  - reflexivity.
  - rewrite IH. destruct get; try reflexivity. elim (Hg seconds). reflexivity.
Qed.

Lemma fails_first_next (w : World) (k : nat) (evs : list Event) :
  fails_first w (S k) -> fails_first (advance w 1 evs) k.
Proof.
  intros H i Hi. simpl. rewrite <- Nat.add_succ_comm. apply H. lia.
Qed.

(** [k] transient failures with attempts left: the loop goes [k] rounds
    on, sleeping after each of these requests. *)
Lemma loop_after_retries (k : nat) :
  forall fuel attempt delay w,
    fails_first w k -> (attempt + k < MAX_RETRIES)%nat ->
    get_json_loop session url params (k + fuel) attempt delay w
    = get_json_loop session url params fuel (k + attempt) (delay_after delay k)
        (advance w k (retry_events (request session url params) delay k)).
Proof.
  induction k as [|k IH]; intros fuel attempt delay w Hf Hk.
  - simpl. rewrite advance_nothing. reflexivity.
  - cbn [Nat.add]. rewrite round_retry.
    + rewrite IH.
      * rewrite advance_advance. cbn [retry_events delay_after].
        rewrite Nat.add_succ_r, Nat.add_1_r. reflexivity.
      * exact (fails_first_next _ _ _ Hf).
      * lia.
    + specialize (Hf 0%nat). simpl in Hf. apply Hf. lia.
    + apply Nat.ltb_lt. lia.
Qed.

(** The call, up to the round that meets the [k]-th outcome. *)
Lemma get_json_after_retries (k : nat) (w : World) :
  fails_first w k -> (k < MAX_RETRIES)%nat ->
  get_json session url params w
  = after_request
      (sleep (delay_after BACKOFF k) ;;;
       get_json_loop session url params (2 - k) (S k)
         (delay_after BACKOFF k * BACKOFF)%Q)
      url (S k) (net w (k + clock w)%nat)
      (advance w (S k)
         (EFetch url params
          :: retry_events (request session url params) BACKOFF k
          ++ [request session url params])).
Proof.
  intros Hf Hk. unfold MAX_RETRIES in Hk. rewrite get_json_enter.
  replace 3%nat with (k + S (2 - k))%nat by lia.
  rewrite loop_after_retries; [|exact Hf|unfold MAX_RETRIES; lia].
  rewrite get_json_loop_round, !advance_advance, !Nat.add_0_r.
  cbn [net clock advance]. rewrite <- app_assoc. reflexivity.
Qed.

End GetJsonEndings.

Lemma sleeps_of_ending (session : Session) (url : string)
  (params : list (string * json)) (k : nat) (tail : list Event) :
  sleeps_of tail = [] ->
  sleeps_of (EFetch url params
             :: retry_events (request session url params) BACKOFF k ++ tail)
  = delays BACKOFF k.
Proof.
  intros Ht.
  change (EFetch url params
          :: retry_events (request session url params) BACKOFF k ++ tail)
    with ([EFetch url params]
          ++ retry_events (request session url params) BACKOFF k ++ tail).
  rewrite !sleeps_of_app, Ht, sleeps_of_retry_events by discriminate.
  simpl. apply app_nil_r.
Qed.

(** X1.  A status between 400 and 599 that is neither 429 nor a 5xx one
    ends the call on the spot, also after transient failures: [get_json]
    writes the status and the URL of the response ([resp.url], not the URL
    of the call) to [stderr] and returns [None], with no request and no
    sleep after the one that met the status. *)
Theorem get_json_client_error (session : Session) (url : string)
  (params : list (string * json)) (w : World) (k : nat) (status : Z)
  (resp_url : string) (body : Body) :
  (k < MAX_RETRIES)%nat ->
  fails_first w k ->
  net w (k + clock w)%nat = Response status resp_url body ->
  ok status = false -> retry_status status = false ->
  get_json session url params w
  = (Ret JNull,
     advance w (S k)
       (EFetch url params
        :: retry_events (request session url params) BACKOFF k
        ++ [request session url params; EStderr (HttpStatus status resp_url)])) /\
  sleeps_of (EFetch url params
             :: retry_events (request session url params) BACKOFF k
             ++ [request session url params; EStderr (HttpStatus status resp_url)])
  = delays BACKOFF k.
Proof.
  intros Hk Hf Ho Hok Hr. split; [|apply sleeps_of_ending; reflexivity].
  rewrite (get_json_after_retries session url params k w Hf Hk), Ho.
  unfold after_request. rewrite Hr, Hok. cbn [negb].
  unfold bind, stderr_write, emit, ret, advance. cbn [net clock trace].
  rewrite <- ?app_assoc. cbn [app]. rewrite <- ?app_assoc. reflexivity.
Qed.

(** X2.  An exception that is no [RequestException], raised by
    [session.get] or by [resp.json()], is never tried again: if it is a
    [ValueError] the call reports a JSON parse error and returns [None], and
    any other exception leaves [get_json] uncaught.  Either way the request
    that met it is the last effect on the network. *)
Theorem get_json_other_exceptions (session : Session) (url : string)
  (params : list (string * json)) (w : World) (k : nat) (e : exn) :
  (k < MAX_RETRIES)%nat ->
  fails_first w k ->
  raises_at w k e ->
  is_RequestException e = false ->
  (is_ValueError e = true ->
   get_json session url params w
   = (Ret JNull,
      advance w (S k)
        (EFetch url params
         :: retry_events (request session url params) BACKOFF k
         ++ [request session url params; EStderr (JsonParseError url e)]))) /\
  (is_ValueError e = false ->
   get_json session url params w
   = (Raise e,
      advance w (S k)
        (EFetch url params
         :: retry_events (request session url params) BACKOFF k
         ++ [request session url params]))).
Proof.
  intros Hk Hf Hraise Hr.
  assert (E : forall w1,
    after_request
      (sleep (delay_after BACKOFF k) ;;;
       get_json_loop session url params (2 - k) (S k)
         (delay_after BACKOFF k * BACKOFF)%Q)
      url (S k) (net w (k + clock w)%nat) w1
    = (if is_ValueError e
       then stderr_write (JsonParseError url e) ;;; ret JNull
       else lift (Raise e)) w1).
  { intros w1. unfold after_request.
    destruct Hraise as [-> | (status & resp_url & -> & Hok)].
    - rewrite Hr. reflexivity.
    - rewrite (ok_no_retry _ Hok), Hok, Hr. reflexivity. }
  rewrite (get_json_after_retries session url params k w Hf Hk), E.
  split; intros Hv; rewrite Hv.
  - unfold bind, stderr_write, emit, ret, advance. cbn [net clock trace].
    rewrite <- ?app_assoc. cbn [app]. rewrite <- ?app_assoc. reflexivity.
  - reflexivity.
Qed.

(** ** [get_json]: what a call does to the world *)

Lemma advance_inj (w : World) (n n' : nat) (a b : list Event) :
  advance w n a = advance w n' b -> n = n' /\ a = b.
Proof.
  unfold advance. intros H. injection H as Hc Ht.
  split; [lia|exact (app_inv_head _ _ _ Ht)].
Qed.

Lemma requests_of_app (a b : list Event) :
  requests_of (a ++ b) = requests_of a ++ requests_of b.
Proof. apply flat_map_app. Qed.

Lemma stderr_of_app (a b : list Event) :
  stderr_of (a ++ b) = stderr_of a ++ stderr_of b.
Proof. apply flat_map_app. Qed.

Section GetJsonReport.
Variables (session : Session) (url : string) (params : list (string * json)).

Lemma get_json_loop_report (fuel : nat) :
  forall attempt delay w,
    exists r n evs,
      get_json_loop session url params fuel attempt delay w
      = (r, advance w n evs) /\
      Forall (eq (sent session url params)) (requests_of evs) /\
      List.length (requests_of evs) = n /\
      (stderr_of evs = [] \/ exists m, stderr_of evs = [m] /\ r = Ret JNull).
Proof.
  induction fuel as [|fuel IH]; intros attempt delay w.
  - exists OutOfFuel, 0%nat, []. unfold lift. rewrite advance_nothing.
    simpl. auto.
  - rewrite get_json_loop_round. unfold after_request.
    set (get := request session url params).
    assert (Hrec :
      exists r n evs,
        (sleep delay ;;;
         get_json_loop session url params fuel (S attempt) (delay * BACKOFF)%Q)
          (advance w 1 [get]) = (r, advance w n evs) /\
        Forall (eq (sent session url params)) (requests_of evs) /\
        List.length (requests_of evs) = n /\
        (stderr_of evs = [] \/ exists m, stderr_of evs = [m] /\ r = Ret JNull)).
    { destruct (IH (S attempt) (delay * BACKOFF)%Q
                  (advance w 1 [get; ESleep delay]))
        as (r & n & evs & E & Hreq & Hlen & Herr).
      exists r, (n + 1)%nat, ([get; ESleep delay] ++ evs).
      split; [|split; [|split]].
      - unfold bind, sleep, emit.
        replace {| net := net (advance w 1 [get]);
                   clock := clock (advance w 1 [get]);
                   trace := trace (advance w 1 [get]) ++ [ESleep delay] |}
          with (advance w 1 [get; ESleep delay])
          by (unfold advance; simpl; rewrite <- app_assoc; reflexivity).
        rewrite E, advance_advance. reflexivity.
      - rewrite requests_of_app. simpl. constructor; [reflexivity|exact Hreq].
      - rewrite requests_of_app. simpl. lia.
      - rewrite stderr_of_app. simpl. exact Herr. }
    assert (Hend : forall m,
      exists r n evs,
        (stderr_write m ;;; ret JNull) (advance w 1 [get]) = (r, advance w n evs) /\
        Forall (eq (sent session url params)) (requests_of evs) /\
        List.length (requests_of evs) = n /\
        (stderr_of evs = [] \/ exists m', stderr_of evs = [m'] /\ r = Ret JNull)).
    { intros m. exists (Ret JNull), 1%nat, [get; EStderr m].
      split; [|split; [|split]].
      - unfold bind, stderr_write, emit, ret, advance. simpl.
        rewrite <- app_assoc. reflexivity.
      - simpl. constructor; [reflexivity|constructor].
      - reflexivity.
      - right. exists m. auto. }
    assert (Hstop : forall r : res json,
      exists r' n evs,
        (r, advance w 1 [get]) = (r', advance w n evs) /\
        Forall (eq (sent session url params)) (requests_of evs) /\
        List.length (requests_of evs) = n /\
        (stderr_of evs = [] \/ exists m, stderr_of evs = [m] /\ r' = Ret JNull)).
    { intros r. exists r, 1%nat, [get].
      split; [reflexivity|]. split; [|split; [reflexivity|left; reflexivity]].
      simpl. constructor; [reflexivity|constructor]. }
    destruct (net w (clock w)) as [status resp_url body|e].
    + destruct (retry_status status).
      * destruct (S attempt <? MAX_RETRIES)%nat; [exact Hrec|apply Hend].
      * destruct (negb (ok status)); [apply Hend|].
        destruct body as [j|e]; [apply Hstop|].
        destruct (is_RequestException e).
        -- destruct (S attempt <? MAX_RETRIES)%nat; [exact Hrec|apply Hend].
        -- destruct (is_ValueError e); [apply Hend|apply Hstop].
    + destruct (is_RequestException e).
      * destruct (S attempt <? MAX_RETRIES)%nat; [exact Hrec|apply Hend].
      * destruct (is_ValueError e); [apply Hend|apply Hstop].
Qed.

(** X3.  Whatever the server does, every request of a call of [get_json]
    is the same request: the session, URL and parameters of the call, with
    the time-out of 30.  Besides its requests the call only sleeps and writes
    to [stderr]; it writes at most one line, and only when it returns
    [None]. *)
Theorem get_json_report (w : World) :
  exists r n evs,
    get_json session url params w = (r, advance w n (EFetch url params :: evs)) /\
    forallb quiet evs = true /\
    Forall (eq {| req_session := session; req_url := url;
                  req_params := params; req_timeout := 30 |})
      (requests_of evs) /\
    List.length (requests_of evs) = n /\
    (stderr_of evs = [] \/ exists m, stderr_of evs = [m] /\ r = Ret JNull).
Proof.
  destruct (get_json_answer session url params w) as (r & n & evs & E & _ & Q).
  destruct (get_json_loop_report 3 0 BACKOFF (advance w 0 [EFetch url params]))
    as (r' & n' & evs' & E' & Hreq & Hlen & Herr).
  rewrite get_json_enter, E', advance_advance, Nat.add_0_r in E.
  pose proof (f_equal fst E) as Er. pose proof (f_equal snd E) as Ew.
  cbn [fst snd] in Er, Ew. apply advance_inj in Ew. destruct Ew as [-> Ew].
  injection Ew as ->. subst r'.
  exists r, n, evs. rewrite get_json_enter, E', advance_advance, Nat.add_0_r.
  auto.
Qed.

End GetJsonReport.

(** ** [parse_event_id]: what it returns, and when *)

Open Scope string_scope.

Section EventIdMore.
Import PyStr.

Lemma isspace_classes (c : ascii) (t : string) :
  isspace c = true ->
  isdigit c = false /\ PyInt.is_underscore c = false /\
  PyInt.signed (String c t) = (1, String c t).
Proof.
  destruct c as [[] [] [] [] [] [] [] []]; vm_compute; intros H;
    try discriminate H; repeat split; reflexivity.
Qed.

Lemma spaces_stop (r : string) : all_chars isspace r = true -> stops r.
Proof.
  destruct r as [|c r]; simpl; [trivial|].
  intros H. apply andb_prop in H. destruct H as [Hc _].
  destruct (isspace_classes c "" Hc) as (H1 & H2 & _). auto.
Qed.

(** Skipping the white space [int] accepts at the head of a run of
    [str.isspace] characters either gets through the run or stops at a
    separator. *)
Lemma skip_space_spaces (l rest : string) :
  all_chars isspace l = true ->
  PyInt.skip_space (l ++ rest) = PyInt.skip_space rest \/
  exists c t, PyInt.skip_space (l ++ rest) = String c t /\ isspace c = true /\
              PyInt.int_space c = false.
Proof.
  induction l as [|c l IH]; simpl; [auto|].
  intros H. apply andb_prop in H. destruct H as [Hc Hl].
  destruct (PyInt.int_space c) eqn:Hi; [auto|].
  right. exists c, (l ++ rest). auto.
Qed.

Lemma digit_value_bounds (c : ascii) :
  isdigit c = true -> 0 <= digit_value c <= 9.
Proof.
  destruct c as [[] [] [] [] [] [] [] []]; vm_compute; intros H;
    try discriminate H; split; discriminate.
Qed.

Lemma decimal_acc_nonneg (s : string) :
  all_chars isdigit s = true -> forall acc, 0 <= acc -> 0 <= decimal_acc acc s.
Proof.
  induction s as [|c s IH]; cbn [decimal_acc all_chars]; intros H acc Hacc;
    [exact Hacc|].
  apply andb_prop in H. destruct H as [Hc Hs].
  apply IH; [exact Hs|]. pose proof (digit_value_bounds c Hc). lia.
Qed.

(** When [int] accepts a string whose trimmed text is a run of digits, its
    value is the value of that run. *)
Lemma int_of_digits_inside (s : string) (z : Z) :
  fullmatch_digits (strip s) = true ->
  PyInt.of_string s = Some z -> z = decimal (strip s).
Proof.
  intros Hd. destruct (strip_split s) as (l & r & Es & Hl & Hr).
  unfold fullmatch_digits in Hd. apply andb_prop in Hd.
  destruct Hd as [Hne Hds].
  destruct (strip s) as [|d ds] eqn:Estrip; [discriminate|].
  assert (Hdigit : isdigit d = true)
    by (simpl in Hds; apply andb_prop in Hds; tauto).
  rewrite Es at 1. unfold PyInt.of_string.
  destruct (skip_space_spaces l (String d ds ++ r) Hl)
    as [E | (c & t & E & Hc & Hi)]; rewrite E.
  - change (String d ds ++ r) with (String d (ds ++ r)).
    rewrite skip_space_digit, signed_digit by exact Hdigit.
    change (String d (ds ++ r)) with (String d ds ++ r).
    rewrite (digits_run (String d ds) r Hds (spaces_stop r Hr) 0 false)
      by (right; discriminate).
    destruct (is_empty (PyInt.skip_space r)); [|discriminate].
    intros H. rewrite Z.mul_1_l in H. injection H as <-. reflexivity.
  - destruct (isspace_classes c t Hc) as (H1 & H2 & ->).
    simpl. rewrite H1, H2. discriminate.
Qed.

Lemma digits_trimmed (s : string) :
  all_chars isdigit s = true -> strip s = s.
Proof.
  intros H. apply trimmed_strip. split; intros c Hc.
  - destruct s as [|a s]; [discriminate|]. simpl in Hc. injection Hc as <-.
    simpl in H. apply andb_prop in H. destruct H as [Ha _].
    apply (digit_classes a Ha).
  - induction s as [|a s IH]; [discriminate|].
    simpl in H. apply andb_prop in H. destruct H as [Ha Hs].
    destruct s as [|b s].
    + simpl in Hc. injection Hc as <-. apply (digit_classes a Ha).
    + apply IH; [exact Hs|exact Hc].
Qed.

Lemma digits_no_segment (s : string) :
  all_chars isdigit s = true -> Re.search_event s = None.
Proof.
  induction s as [|c s IH]; intros H; [reflexivity|].
  simpl in H. apply andb_prop in H. destruct H as [Hc Hs].
  assert (E : Re.match_event_here (String c s) = None).
  { assert (Hne : Ascii.eqb "/" c = false)
      by (apply Ascii.eqb_neq; intros <-; discriminate Hc).
    unfold Re.match_event_here. cbn [Re.strip_prefix]. rewrite Hne.
    reflexivity. }
  cbn [Re.search_event]. rewrite E. auto.
Qed.

(** X4.  [parse_event_id] returns a non-negative integer or raises
    [ValueError], nothing else.  When it returns, the integer is the value of
    the digits of the leftmost [/event/<digits>/] segment or, in a string
    without such a segment, the value of the trimmed string, which is then a
    run of digits. *)
Theorem parse_event_id_sound (s : string) :
  (exists z,
      parse_event_id s = Ret z /\ 0 <= z /\
      ((exists pre g post,
           event_segment s pre g post /\
           (forall pre' g' post',
               event_segment s pre' g' post' ->
               (String.length pre <= String.length pre')%nat) /\
           z = decimal g) \/
       ((forall pre g post, ~ event_segment s pre g post) /\
        fullmatch_digits (strip s) = true /\
        z = decimal (strip s)))) \/
  parse_event_id s = Raise ValueError.
Proof.
  unfold parse_event_id.
  destruct (Re.search_event s) as [g|] eqn:E.
  - left. destruct (search_event_some s g E) as (pre & post & Hseg & Hmin).
    exists (decimal g). rewrite (int_of_digits g (proj2 Hseg)).
    split; [reflexivity|]. split.
    + destruct Hseg as [_ Hg]. unfold fullmatch_digits in Hg.
      apply andb_prop in Hg. apply decimal_acc_nonneg; [tauto|lia].
    + left. exists pre, g, post. split; [exact Hseg|]. split; [|reflexivity].
      intros pre' g' post' H'. apply (Hmin pre' g' post' H').
  - destruct (fullmatch_digits (strip s)) eqn:Hd; [|right; reflexivity].
    simpl. destruct (PyInt.of_string s) as [z|] eqn:Ei; [|right; reflexivity].
    left. exists z. split; [reflexivity|].
    pose proof (int_of_digits_inside s z Hd Ei) as Ez. split.
    + rewrite Ez. unfold fullmatch_digits in Hd. apply andb_prop in Hd.
      apply decimal_acc_nonneg; [tauto|lia].
    + right. split; [exact (search_event_none s E)|]. auto.
Qed.

(** X5.  On a string whose white space is white space for [int] as well
    (no FS, GS, RS or US in it), [parse_event_id] does the three things its
    docstring and error message stand for: a string with an
    [/event/<digits>/] segment gives the digits of the leftmost one; without a
    segment, a string that is a run of digits once trimmed gives their value;
    any other string raises [ValueError].  The string is no longer than the
    longest numeral the interpreter converts by default. *)
Theorem parse_event_id_complete (s : string) :
  int_friendly s ->
  (String.length s <= default_max_str_digits)%nat ->
  ((exists pre g post, event_segment s pre g post) ->
   exists pre g post,
     event_segment s pre g post /\
     (forall pre' g' post',
         event_segment s pre' g' post' ->
         (String.length pre <= String.length pre')%nat) /\
     parse_event_id s = Ret (decimal g)) /\
  ((forall pre g post, ~ event_segment s pre g post) ->
   fullmatch_digits (strip s) = true ->
   parse_event_id s = Ret (decimal (strip s))) /\
  ((forall pre g post, ~ event_segment s pre g post) ->
   fullmatch_digits (strip s) = false ->
   parse_event_id s = Raise ValueError).
Proof.
  intros Hs _. split; [|split].
  - intros (pre & g & post & Hseg).
    destruct (search_event_found _ _ _ _ Hseg) as (g0 & E).
    destruct (search_event_some s g0 E) as (pre0 & post0 & Hseg0 & Hmin).
    exists pre0, g0, post0. split; [exact Hseg0|]. split.
    + intros pre' g' post' H'. apply (Hmin pre' g' post' H').
    + unfold parse_event_id. rewrite E. apply int_of_digits, Hseg0.
  - intros Hno Hd. unfold parse_event_id.
    destruct (Re.search_event s) as [g0|] eqn:E.
    + destruct (search_event_some s g0 E) as (pre0 & post0 & Hseg & _).
      elim (Hno _ _ _ Hseg).
    + rewrite Hd. destruct (strip_split s) as (l & r & Es & Hl & Hr).
      unfold int_friendly in Hs. rewrite Es in Hs.
      rewrite !all_chars_app in Hs.
      apply andb_prop in Hs. destruct Hs as [Hl' Hs].
      apply andb_prop in Hs. destruct Hs as [_ Hr'].
      simpl. rewrite Es at 1.
      rewrite (int_of_padded_digits l (strip s) r); auto.
      * exact (all_chars_weaken _ _ _ Hl' Hl).
      * exact (all_chars_weaken _ _ _ Hr' Hr).
  - intros Hno Hd. unfold parse_event_id.
    destruct (Re.search_event s) as [g0|] eqn:E.
    + destruct (search_event_some s g0 E) as (pre0 & post0 & Hseg & _).
      elim (Hno _ _ _ Hseg).
    + rewrite Hd. reflexivity.
Qed.

(** *** Decimal numerals *)

Lemma string_of_uint_digits (d : Decimal.uint) :
  all_chars isdigit (NilEmpty.string_of_uint d) = true /\
  forall acc, decimal_acc acc (NilEmpty.string_of_uint d) = uint_value acc d.
Proof.
  induction d as [|d [IH1 IH2]|d [IH1 IH2]|d [IH1 IH2]|d [IH1 IH2]|d [IH1 IH2]
                  |d [IH1 IH2]|d [IH1 IH2]|d [IH1 IH2]|d [IH1 IH2]|d [IH1 IH2]];
    (split; [try reflexivity; cbn [NilEmpty.string_of_uint all_chars];
             rewrite IH1; reflexivity
            |intros acc; try reflexivity;
             cbn [NilEmpty.string_of_uint decimal_acc uint_value];
             rewrite IH2; reflexivity]).
Qed.

Lemma uint_value_of_lu (d : Decimal.uint) :
  forall d', uint_value (Z.of_N (DecimalPos.Unsigned.of_lu d')) d
             = Z.of_N (DecimalPos.Unsigned.of_lu (Decimal.revapp d d')).
Proof.
  induction d as [|d IH|d IH|d IH|d IH|d IH|d IH|d IH|d IH|d IH|d IH];
    intros d'; [reflexivity|..];
    cbn [uint_value Decimal.revapp]; rewrite <- IH; f_equal;
    cbn [DecimalPos.Unsigned.of_lu]; lia.
Qed.

Lemma uint_value_of_uint (d : Decimal.uint) : uint_value 0 d = Z.of_uint d.
Proof.
  change 0 with (Z.of_N (DecimalPos.Unsigned.of_lu Decimal.Nil)).
  rewrite uint_value_of_lu. unfold Z.of_uint.
  rewrite DecimalPos.Unsigned.of_uint_alt. reflexivity.
Qed.

Lemma to_int_nonneg (z : Z) :
  0 <= z ->
  exists d, Z.to_int z = Decimal.Pos d /\ d <> Decimal.Nil /\ Z.of_uint d = z.
Proof.
  intros Hz. pose proof (DecimalZ.of_to z) as E.
  destruct z as [|p|p]; [| |lia].
  - exists (Decimal.D0 Decimal.Nil). repeat split; discriminate.
  - exists (Pos.to_uint p). split; [reflexivity|]. split; [|exact E].
    apply DecimalPos.Unsigned.to_uint_nonnil.
Qed.

Lemma string_of_uint_nonempty (d : Decimal.uint) :
  d <> Decimal.Nil -> is_empty (NilEmpty.string_of_uint d) = false.
Proof. destruct d; try reflexivity. intros H. elim H. reflexivity. Qed.

Lemma of_Z_digits (n : Z) :
  0 <= n -> fullmatch_digits (of_Z n) = true /\ decimal (of_Z n) = n.
Proof.
  intros Hn. destruct (to_int_nonneg n Hn) as (d & E & Hd & Ev).
  unfold of_Z, fullmatch_digits, decimal. rewrite E. simpl NilEmpty.string_of_int.
  destruct (string_of_uint_digits d) as [H1 H2].
  rewrite (string_of_uint_nonempty d Hd), H1, H2, uint_value_of_uint.
  auto.
Qed.


Lemma match_event_here_other (c : ascii) (s : string) :
  c <> "/"%char -> Re.match_event_here (String c s) = None.
Proof.
  intros H. unfold Re.match_event_here. cbn [Re.strip_prefix].
  assert (E : Ascii.eqb "/" c = false) by (apply Ascii.eqb_neq; congruence).
  rewrite E. reflexivity.
Qed.

Lemma match_event_here_slash (c : ascii) (s : string) :
  c <> "e"%char -> Re.match_event_here (String "/" (String c s)) = None.
Proof.
  intros H. unfold Re.match_event_here. cbn [Re.strip_prefix].
  assert (E : Ascii.eqb "e" c = false) by (apply Ascii.eqb_neq; congruence).
  rewrite Ascii.eqb_refl, E. reflexivity.
Qed.

Lemma search_event_skip (c : ascii) (s : string) :
  Re.match_event_here (String c s) = None ->
  Re.search_event (String c s) = Re.search_event s.
Proof. intros E. cbn [Re.search_event]. rewrite E. reflexivity. Qed.

Lemma search_event_here (s g : string) :
  Re.match_event_here s = Some g -> Re.search_event s = Some g.
Proof. intros E. destruct s; cbn [Re.search_event]; rewrite E; reflexivity. Qed.

Lemma search_event_url (g rest : string) :
  fullmatch_digits g = true ->
  Re.search_event ("https://bracketteam.com/event/" ++ g ++ "/" ++ rest) = Some g.
Proof.
  intros Hg. cbn [append].
  repeat (rewrite search_event_skip
            by (first [ apply match_event_here_other; discriminate
                      | apply match_event_here_slash; discriminate ])).
  apply search_event_here, match_event_here_some. exists rest.
  split; [reflexivity|exact Hg].
Qed.

(** X6.  Round trip with [str]: for a non-negative integer [n] of at most
    4300 digits (the longest numeral the interpreter converts by default),
    [parse_event_id] gives [n] back from its decimal numeral [str(n)], and
    from the schedules page URL of event [n], whatever follows the id in the
    URL. *)
Theorem parse_event_id_round_trip (n : Z) (rest : string) :
  0 <= n < 10 ^ Z.of_nat default_max_str_digits ->
  parse_event_id (of_Z n) = Ret n /\
  parse_event_id (schedules_url n rest) = Ret n.
Proof.
  intros [Hn _]. destruct (of_Z_digits n Hn) as [Hd Hv]. split.
  - unfold parse_event_id.
    assert (Ha : all_chars isdigit (of_Z n) = true).
    { unfold fullmatch_digits in Hd. apply andb_prop in Hd. tauto. }
    rewrite (digits_no_segment _ Ha), (digits_trimmed _ Ha), Hd.
    rewrite (int_of_digits _ Hd), Hv. reflexivity.
  - unfold parse_event_id, schedules_url.
    rewrite (search_event_url _ rest Hd), (int_of_digits _ Hd), Hv.
    reflexivity.
Qed.

End EventIdMore.

(** ** The field extractors: what they read, and what they reject *)

Open Scope list_scope.

Lemma candidates_read (m : json) (paths : list (list string))
  (cands : list json) :
  Forall2 (fun p v => forall s, usable v s <-> path_usable m p s) paths cands ->
  (Forall (path_unusable m) paths /\ first_nonempty cands = ""%string) \/
  (exists skipped p rest s,
      paths = skipped ++ p :: rest /\
      Forall (path_unusable m) skipped /\
      path_usable m p s /\
      first_nonempty cands = PyStr.strip s).
Proof.
  induction 1 as [|p v paths cands Hpv _ IH]; [left; split; constructor|].
  cbn [first_nonempty]. destruct (stripped_str v) as [r|] eqn:E.
  - apply stripped_str_some in E. destruct E as (s & Hs & ->).
    right. exists [], p, paths, s. split; [reflexivity|].
    split; [constructor|]. split; [apply Hpv, Hs|reflexivity].
  - apply stripped_str_none in E.
    assert (Hp : path_unusable m p).
    { intros s Hs. apply (E s), Hpv, Hs. }
    destruct IH as [[Hall E0]|(skipped & p0 & rest & s & -> & Hsk & Hs & E0)].
    + left. split; [constructor; assumption|exact E0].
    + right. exists (p :: skipped), p0, rest, s. split; [reflexivity|].
      split; [constructor; assumption|]. split; assumption.
Qed.

Lemma flat_candidate (m : list (string * json)) (k s : string) :
  usable (dict_get m k) s <-> path_usable (JDict m) [k] s.
Proof.
  unfold usable, path_usable, dict_get. cbn [path_value].
  destruct (Py.lookup k m) as [v|]; split; intros [E H]; split; try exact H;
    congruence.
Qed.

Lemma nested_candidate (m : json) (p : list string) (s : string) :
  usable (JStr (get_nested m p "")) s <-> path_usable m p s.
Proof.
  unfold usable, path_usable. rewrite get_nested_path_value.
  destruct (path_value m p) as [[| | | |s0| |]|]; split; intros [E H];
    try discriminate E;
    try (injection E as <-; elim H; reflexivity);
    try (injection E as <-; split; [reflexivity|exact H]).
Qed.

Lemma reads_candidates (extract : json -> res string)
  (paths : list (list string)) (cands : list (string * json) -> list json) :
  (forall m, extract (JDict m) = Ret (first_nonempty (cands m))) ->
  (forall m, Forall2 (fun p v => forall s, usable v s <-> path_usable (JDict m) p s)
               paths (cands m)) ->
  reads extract paths.
Proof.
  intros He Hc m. rewrite He.
  destruct (candidates_read (JDict m) paths (cands m) (Hc m))
    as [[Hall E]|(skipped & p & rest & s & Ep & Hsk & Hs & E)].
  - left. rewrite E. auto.
  - right. exists skipped, p, rest, s. rewrite E. auto.
Qed.

(** X7.  Each of [extract_time], [extract_location] and [extract_court]
    reads a fixed list of key paths of the match record, nested paths and
    flat keys alike, in the order of the source, and returns the trimmed
    string at the first path that leads to a string with more than white
    space; a path that is absent, or leads to a value that is no string or to
    a blank string, is passed over, and the result is the empty string when
    every path is. *)
Theorem extractors_read_paths :
  reads extract_time time_paths /\
  reads extract_location location_paths /\
  reads extract_court court_paths.
Proof.
  split; [|split].
  - apply (reads_candidates _ _ _ extract_time_dict). intros m.
    repeat (apply Forall2_cons; [intros s; apply flat_candidate|]).
    apply Forall2_nil.
  - apply (reads_candidates _ _ _ extract_location_dict). intros m.
    repeat (apply Forall2_cons;
            [intros s; first [apply flat_candidate|apply nested_candidate]|]).
    apply Forall2_nil.
  - apply (reads_candidates _ _ _ extract_court_dict). intros m.
    repeat (apply Forall2_cons;
            [intros s; first [apply flat_candidate|apply nested_candidate]|]).
    apply Forall2_nil.
Qed.

(** X8.  A match that is no record (a list, a string, a number, [None])
    makes each of the five extractors that [run] calls raise
    [AttributeError]: each of them calls [m.get].  [write_row] then raises
    before it writes: no row, and the world is as it was. *)
Theorem extractors_reject_non_records (m : json) :
  Py.is_dict m = false ->
  extract_time m = Raise AttributeError /\
  extract_location m = Raise AttributeError /\
  extract_court m = Raise AttributeError /\
  extract_home m = Raise AttributeError /\
  extract_away m = Raise AttributeError /\
  (forall div_name rows_written w,
      write_row div_name rows_written m w = (Raise AttributeError, w)).
Proof.
  intros H. destruct m; try discriminate H; repeat split; reflexivity.
Qed.

Lemma team_fallback_keys (d : list (string * json)) (keys : list string) :
  team_fallback (JDict d) keys = first_nonempty (map (dict_get d) keys).
Proof.
  induction keys as [|k keys IH]; [reflexivity|].
  cbn [team_fallback map first_nonempty]. rewrite IH. reflexivity.
Qed.

Lemma team_fallback_no_record (obj : json) (keys : list string) :
  Py.is_dict obj = false -> team_fallback obj keys = ""%string.
Proof.
  intros H. induction keys as [|k keys IH]; [reflexivity|].
  destruct obj; try discriminate H; exact IH.
Qed.

(** X9.  [extract_team_name] never raises.  For an object that is no
    record it returns the empty string, whatever the fallback keys.  For a
    record, a usable [name] (or, when [name] is falsy, a usable [team_name])
    wins over every fallback key; otherwise the fallback keys are read from
    the same record, in order, as [first_nonempty] reads its candidates. *)
Theorem extract_team_name_cases :
  (forall (obj : json) (keys : list string),
      Py.is_dict obj = false -> extract_team_name obj keys = ""%string) /\
  (forall (d : list (string * json)) (keys : list string) (s : string),
      usable (Py.or_ (dict_get d "name") (dict_get d "team_name")) s ->
      extract_team_name (JDict d) keys = PyStr.strip s) /\
  (forall (d : list (string * json)) (keys : list string),
      unusable (Py.or_ (dict_get d "name") (dict_get d "team_name")) ->
      extract_team_name (JDict d) keys = first_nonempty (map (dict_get d) keys)).
Proof.
  split; [|split].
  - intros obj keys H. unfold extract_team_name.
    rewrite (team_fallback_no_record obj keys H).
    destruct obj; try discriminate H; reflexivity.
  - intros d keys s Hs. unfold extract_team_name.
    assert (E : stripped_str (Py.or_ (dict_get d "name") (dict_get d "team_name"))
                = Some (PyStr.strip s)).
    { apply stripped_str_some. exists s. auto. }
    rewrite E. reflexivity.
  - intros d keys Hu. unfold extract_team_name.
    apply stripped_str_none in Hu. rewrite Hu. apply team_fallback_keys.
Qed.

(** ** [run]: its requests, its exit codes and the file it writes *)

Section Keeps.
Variable inv : list Event -> Prop.
Hypothesis inv_nil : inv [].

Lemma keeps_ret {A} (a : A) (good : A -> list Event -> Prop) :
  good a [] -> keeps inv (ret a) good.
Proof.
  intros H w. exists (Ret a), []. simpl. rewrite advance_nothing.
  split; [reflexivity|]. split; [exact inv_nil|].
  intros a' E. injection E as <-. exact H.
Qed.

Lemma keeps_lift {A} (r : res A) (good : A -> list Event -> Prop) :
  (forall a, r = Ret a -> good a []) -> keeps inv (lift r) good.
Proof.
  intros H w. exists r, []. simpl. unfold lift. rewrite advance_nothing.
  split; [reflexivity|]. split; [exact inv_nil|exact H].
Qed.

Lemma keeps_emit (e : Event) (good : unit -> list Event -> Prop) :
  requests_of [e] = [] -> inv [e] -> good tt [e] -> keeps inv (emit e) good.
Proof.
  intros Hr Hi Hg w. exists (Ret tt), [e]. rewrite Hr.
  split; [reflexivity|]. split; [exact Hi|].
  intros [] _. exact Hg.
Qed.

(** [inv] need not hold of every concatenation: it has to go on from the
    effects of a computation that returned. *)
Lemma keeps_bind {A B} (c : M A) (k : A -> M B)
  (mid : A -> list Event -> Prop) (good : B -> list Event -> Prop) :
  (forall a e1 e2, inv e1 -> mid a e1 -> inv e2 -> inv (e1 ++ e2)) ->
  keeps inv c mid ->
  (forall a e1, mid a e1 -> keeps inv (k a) (fun b e2 => good b (e1 ++ e2))) ->
  keeps inv (bind c k) good.
Proof.
  intros inv_app Hc Hk w. destruct (Hc w) as (r & e1 & E & Hi & Hg).
  unfold bind. rewrite E. destruct r as [a|e|].
  - destruct (Hk a e1 (Hg a eq_refl)
                (advance w (List.length (requests_of e1)) e1))
      as (r2 & e2 & E2 & Hi2 & Hg2).
    exists r2, (e1 ++ e2). rewrite E2, advance_advance, requests_of_app.
    rewrite length_app, Nat.add_comm.
    split; [reflexivity|].
    split; [apply (inv_app a); auto|exact Hg2].
  - exists (Raise e), e1. split; [reflexivity|]. split; [exact Hi|].
    intros b Hb. discriminate Hb.
  - exists OutOfFuel, e1. split; [reflexivity|]. split; [exact Hi|].
    intros b Hb. discriminate Hb.
Qed.

Lemma keeps_post {A} (c : M A) (good good' : A -> list Event -> Prop) :
  (forall a evs, inv evs -> good a evs -> good' a evs) ->
  keeps inv c good -> keeps inv c good'.
Proof.
  intros H Hc w. destruct (Hc w) as (r & evs & E & Hi & Hg).
  exists r, evs. split; [exact E|]. split; [exact Hi|].
  intros a Ea. apply H; [exact Hi|exact (Hg a Ea)].
Qed.

(** A loop whose rounds relate the variables before and after by [rel]. *)
Lemma keeps_for_each {A S} (body : S -> A -> M S)
  (rel : S -> S -> list Event -> Prop) :
  (forall a b e1 e2, inv e1 -> rel a b e1 -> inv e2 -> inv (e1 ++ e2)) ->
  (forall acc, rel acc acc []) ->
  (forall a b c e1 e2, rel a b e1 -> rel b c e2 -> rel a c (e1 ++ e2)) ->
  (forall acc x, keeps inv (body acc x) (rel acc)) ->
  forall l acc, keeps inv (for_each l body acc) (rel acc).
Proof.
  intros inv_app Hnil Happ Hbody l. induction l as [|x l IH]; intros acc.
  - apply keeps_ret, Hnil.
  - cbn [for_each]. apply (keeps_bind _ _ (rel acc));
      [intros a e1 e2; apply inv_app|apply Hbody|].
    intros acc' e1 H1. apply (keeps_post _ (rel acc')); [|apply IH].
    intros acc'' e2 _ H2. exact (Happ _ _ _ _ _ H1 H2).
Qed.

End Keeps.

Lemma keeps_inv {A} (inv inv' : list Event -> Prop) (c : M A)
  (good : A -> list Event -> Prop) :
  (forall evs, inv evs -> inv' evs) -> keeps inv c good -> keeps inv' c good.
Proof.
  intros H Hc w. destruct (Hc w) as (r & evs & E & Hi & Hg).
  exists r, evs. auto.
Qed.

Lemma get_json_call (session : Session) (url : string)
  (params : list (string * json)) (w : World) :
  exists r evs,
    get_json session url params w
    = (r, advance w (List.length (requests_of evs)) (EFetch url params :: evs)) /\
    forallb quiet evs = true /\
    Forall (eq (sent session url params)) (requests_of evs).
Proof.
  destruct (get_json_answer session url params w) as (r & n & evs & E & _ & Q).
  destruct (get_json_loop_report session url params 3 0 BACKOFF
              (advance w 0 [EFetch url params]))
    as (r' & n' & evs' & E' & Hreq & Hlen & _).
  rewrite get_json_enter, E', advance_advance, Nat.add_0_r in E.
  pose proof (f_equal fst E) as Er. pose proof (f_equal snd E) as Ew.
  cbn [fst snd] in Er, Ew. apply advance_inj in Ew. destruct Ew as [-> Ew].
  injection Ew as ->. subst r'.
  exists r, evs. rewrite get_json_enter, E', advance_advance, Nat.add_0_r, Hlen.
  auto.
Qed.

Lemma get_json_keeps (session : Session) (url : string)
  (params : list (string * json)) (inv : list Event -> Prop)
  (good : json -> list Event -> Prop) :
  (forall evs,
      forallb quiet evs = true ->
      Forall (eq (sent session url params)) (requests_of evs) ->
      inv (EFetch url params :: evs) /\
      forall a, good a (EFetch url params :: evs)) ->
  keeps inv (get_json session url params) good.
Proof.
  intros H w. destruct (get_json_call session url params w)
    as (r & evs & E & Q & Hreq).
  exists r, (EFetch url params :: evs). destruct (H evs Q Hreq) as [Hi Hg].
  split; [exact E|]. split; [exact Hi|]. intros a _. apply Hg.
Qed.

Section IterKeeps.
Variables (session : Session) (tournament_id division_id : Z).
Context {S : Type} (consume : S -> json -> M S).
Variables (inv : list Event -> Prop) (rel : S -> S -> list Event -> Prop).
Hypothesis inv_nil : inv [].
Hypothesis inv_step :
  forall a b e1 e2, inv e1 -> rel a b e1 -> inv e2 -> inv (e1 ++ e2).
Hypothesis rel_nil : forall acc, rel acc acc [].
Hypothesis rel_app :
  forall a b c e1 e2, rel a b e1 -> rel b c e2 -> rel a c (e1 ++ e2).
Hypothesis fetch_page : forall page,
  1 <= page ->
  keeps inv
    (get_json session BASE_SCHEDULE
       (schedule_params tournament_id division_id page))
    (fun _ evs => forall acc, rel acc acc evs).
Hypothesis consume_match : forall acc m,
  keeps inv (emit (EYield m) ;;; consume acc m) (rel acc).
Hypothesis pause :
  inv [ESleep SLEEP_TIME] /\ forall acc, rel acc acc [ESleep SLEEP_TIME].

Lemma after_nothing {A} (a : A) (e1 e2 : list Event) :
  inv e1 -> e1 = [] -> inv e2 -> inv (e1 ++ e2).
Proof. intros _ -> H. exact H. Qed.

Lemma iter_matches_loop_keeps (fuel : nat) :
  forall page acc,
    1 <= page ->
    keeps inv
      (iter_matches_loop session tournament_id division_id consume fuel page acc)
      (rel acc).
Proof.
  induction fuel as [|fuel IH]; intros page acc Hpage.
  - apply (keeps_lift inv inv_nil). intros a E. discriminate E.
  - cbn [iter_matches_loop].
    apply (keeps_bind inv) with (mid := fun _ evs => forall acc, rel acc acc evs);
      [intros _ e1 e2 Hi Hm; exact (inv_step acc acc e1 e2 Hi (Hm acc))
      |apply fetch_page, Hpage|].
    intros response e1 H1.
    apply (keeps_bind inv) with (mid := fun _ evs => evs = []);
      [apply after_nothing|apply (keeps_lift inv inv_nil); reflexivity|].
    intros matches ? ->. cbn [app].
    destruct (negb (Py.truthy matches)).
    + apply (keeps_ret inv inv_nil). rewrite app_nil_r. apply H1.
    + apply (keeps_bind inv) with (mid := fun _ evs => evs = []);
        [apply after_nothing|apply (keeps_lift inv inv_nil); reflexivity|].
      intros items ? ->. cbn [app].
      apply (keeps_bind inv) with (mid := rel acc);
        [intros a; apply inv_step
        |apply (keeps_for_each inv inv_nil);
           [exact inv_step|exact rel_nil|exact rel_app|];
         intros acc0 m; apply consume_match|].
      intros acc' e3 H3.
      apply (keeps_bind inv) with (mid := fun _ evs => evs = []);
        [apply after_nothing|apply (keeps_lift inv inv_nil); reflexivity|].
      intros n ? ->. cbn [app].
      assert (H13 : rel acc acc' (e1 ++ e3)) by (apply (rel_app _ acc); auto).
      destruct (n <? MATCHES_PER_PAGE)%Z.
      * apply (keeps_ret inv inv_nil). rewrite app_nil_r. exact H13.
      * apply (keeps_bind inv) with (mid := fun _ evs => evs = [ESleep SLEEP_TIME]).
        -- intros _ e4 e5 Hi -> Hi5.
           exact (inv_step acc acc _ _ Hi (proj2 pause acc) Hi5).
        -- apply keeps_emit; [reflexivity|apply pause|reflexivity].
        -- intros [] ? ->.
           apply (keeps_post inv) with (good := rel acc'); [|apply IH; lia].
           intros b e5 _ H5. rewrite !app_assoc. apply (rel_app _ acc'); [|exact H5].
           apply (rel_app _ acc'); [exact H13|apply pause].
Qed.

End IterKeeps.

Lemma forallb_weaken {A} (p q : A -> bool) (l : list A) :
  (forall a, p a = true -> q a = true) ->
  forallb p l = true -> forallb q l = true.
Proof.
  intros H. rewrite !forallb_forall. auto.
Qed.

Lemma pre_inv_nil (session : Session) (t : Z) : pre_inv session t [].
Proof. split; [reflexivity|constructor]. Qed.

Lemma pre_inv_app (session : Session) (t : Z) (a b : list Event) :
  pre_inv session t a -> pre_inv session t b -> pre_inv session t (a ++ b).
Proof.
  intros [Ha Ra] [Hb Rb]. split.
  - rewrite forallb_app, Ha, Hb. reflexivity.
  - rewrite requests_of_app. apply Forall_app. auto.
Qed.

Lemma block_nil (session : Session) (t : Z) (d : Z * json) :
  block_of session t d [].
Proof.
  split; [reflexivity|]. split; [constructor|]. split; [constructor|].
  exists [], []. split; reflexivity.
Qed.

(** A block goes on after effects that left no match without its row. *)
Lemma block_step (session : Session) (t : Z) (d : Z * json) (a b : Z)
  (e1 e2 : list Event) :
  block_of session t d e1 -> block_rel (snd d) a b e1 ->
  block_of session t d e2 -> block_of session t d (e1 ++ e2).
Proof.
  intros (H1 & F1 & R1 & _) [_ W1] (H2 & F2 & R2 & ms & rest & W2 & Y2).
  split; [|split; [|split]].
  - rewrite forallb_app, H1, H2. reflexivity.
  - rewrite fetches_of_app. apply Forall_app. auto.
  - rewrite requests_of_app. apply Forall_app. auto.
  - exists (yields_of e1 ++ ms), rest.
    rewrite rows_of_app, yields_of_app, W1, W2, Y2, map_app, app_assoc. auto.
Qed.

Lemma block_rel_nil (div_name : json) (acc : Z) : block_rel div_name acc acc [].
Proof. split; [simpl; lia|reflexivity]. Qed.

Lemma block_rel_app (div_name : json) (a b c : Z) (e1 e2 : list Event) :
  block_rel div_name a b e1 -> block_rel div_name b c e2 ->
  block_rel div_name a c (e1 ++ e2).
Proof.
  intros [-> H1] [-> H2]. split.
  - rewrite rows_of_app, length_app. lia.
  - rewrite rows_of_app, yields_of_app, map_app, H1, H2. reflexivity.
Qed.

Lemma block_rel_rows (div_name : json) (acc acc' : Z) (evs : list Event) :
  block_rel div_name acc acc' evs -> rows_rel acc acc' evs.
Proof.
  intros [-> H]. split; [reflexivity|]. rewrite H, map_map. reflexivity.
Qed.

Lemma blocks_nil (session : Session) (t : Z) (divisions : list (Z * json)) :
  blocks session t divisions [].
Proof.
  induction divisions as [|d rest IH]; [reflexivity|].
  exists [], []. split; [reflexivity|]. split; [apply block_nil|exact IH].
Qed.

Lemma blocks_export (session : Session) (t : Z) (divisions : list (Z * json)) :
  forall evs, blocks session t divisions evs -> forallb export_event evs = true.
Proof.
  induction divisions as [|d rest IH]; intros evs H; simpl in H.
  - subst evs. reflexivity.
  - destruct H as (e1 & e2 & -> & (H1 & _) & H2).
    rewrite forallb_app, H1, (IH _ H2). reflexivity.
Qed.

Lemma run_request_more (session : Session) (t : Z) (ids ids' : list Z)
  (r : Request) :
  (forall d, In d ids -> In d ids') ->
  run_request session t ids r -> run_request session t ids' r.
Proof.
  intros Hsub (Hs & Ht & [Hp | (Hu & d & page & Hd & Hpage & Hp)]).
  - split; [exact Hs|]. split; [exact Ht|]. left. exact Hp.
  - split; [exact Hs|]. split; [exact Ht|]. right. split; [exact Hu|].
    exists d, page. auto.
Qed.

(** The requests of the blocks are requests for the divisions. *)
Lemma blocks_requests (session : Session) (t : Z)
  (divisions : list (Z * json)) :
  forall evs,
    blocks session t divisions evs ->
    Forall (run_request session t (map fst divisions)) (requests_of evs).
Proof.
  induction divisions as [|d rest IH]; intros evs H; simpl in H.
  - subst evs. constructor.
  - destruct H as (e1 & e2 & -> & (_ & _ & R1 & _) & H2).
    rewrite requests_of_app. apply Forall_app. split.
    + apply (Forall_impl _ (P := fun r => exists page,
                 1 <= page /\
                 r = sent session BASE_SCHEDULE (schedule_params t (fst d) page)));
        [|exact R1].
      intros r (page & Hpage & ->). split; [reflexivity|].
      split; [reflexivity|]. right. split; [reflexivity|].
      exists (fst d), page. split; [left; reflexivity|]. auto.
    + apply (Forall_impl _ (P := run_request session t (map fst rest)));
        [|exact (IH _ H2)].
      intros r. apply run_request_more. intros x Hx. right. exact Hx.
Qed.

Lemma rows_rel_nil (acc : Z) : rows_rel acc acc [].
Proof. split; [simpl; lia|reflexivity]. Qed.

Lemma rows_rel_app (a b c : Z) (e1 e2 : list Event) :
  rows_rel a b e1 -> rows_rel b c e2 -> rows_rel a c (e1 ++ e2).
Proof.
  intros [-> H1] [-> H2]. split.
  - rewrite rows_of_app, length_app. lia.
  - rewrite rows_of_app, yields_of_app, !map_app, H1, H2. reflexivity.
Qed.

Lemma quiet_before_file (evs : list Event) :
  forallb quiet evs = true -> forallb before_file evs = true.
Proof. apply forallb_weaken. intros []; simpl; congruence. Qed.

Lemma quiet_export (evs : list Event) :
  forallb quiet evs = true -> forallb export_event evs = true.
Proof. apply forallb_weaken. intros []; simpl; congruence. Qed.

(** The call of [get_json] for the divisions. *)
Lemma tournament_call_keeps (session : Session) (t : Z) :
  keeps (pre_inv session t)
    (get_json session BASE_PUBLIC [("tournament_id", JInt t)])
    (fun _ _ => True).
Proof.
  apply get_json_keeps. intros evs Q Hsent. split; [split|auto].
  - simpl. apply quiet_before_file, Q.
  - simpl.
    apply (Forall_impl _
             (P := eq (sent session BASE_PUBLIC [("tournament_id", JInt t)])));
      [|exact Hsent].
    intros r <-. split; [reflexivity|]. split; [reflexivity|]. left. auto.
Qed.

(** The call of [get_json] for a page of the division [d]. *)
Lemma page_call_keeps (session : Session) (t : Z) (d : Z * json) (page : Z) :
  1 <= page ->
  keeps (block_of session t d)
    (get_json session BASE_SCHEDULE (schedule_params t (fst d) page))
    (fun _ evs => forall acc, block_rel (snd d) acc acc evs).
Proof.
  intros Hpage. apply get_json_keeps. intros evs Q Hsent.
  destruct (quiet_silent _ Q) as (Y & F & R). split.
  - split; [|split; [|split]].
    + simpl. apply quiet_export, Q.
    + change (fetches_of (EFetch BASE_SCHEDULE
                            (schedule_params t (fst d) page) :: evs))
        with ((BASE_SCHEDULE, schedule_params t (fst d) page) :: fetches_of evs).
      rewrite F. constructor; [|constructor]. exists page. auto.
    + simpl.
      apply (Forall_impl _
               (P := eq (sent session BASE_SCHEDULE
                           (schedule_params t (fst d) page))));
        [|exact Hsent].
      intros r <-. exists page. auto.
    + exists [], []. simpl. rewrite Y, R. auto.
  - intros _ acc. unfold block_rel. simpl. rewrite Y, R. simpl.
    split; [lia|reflexivity].
Qed.

(** One match of the inner loop of [run]: the yield, then its row. *)
Lemma write_row_keeps (session : Session) (t : Z) (d : Z * json)
  (acc : Z) (m : json) :
  keeps (block_of session t d) (emit (EYield m) ;;; write_row (snd d) acc m)
    (block_rel (snd d) acc).
Proof.
  intros w. destruct (Py.is_dict m) eqn:Hm.
  - exists (Ret (acc + 1)), [EYield m; ERow (row_of (snd d) m)].
    split; [|split].
    + unfold bind, emit. rewrite (write_row_record _ _ _ _ Hm).
      unfold advance. simpl. rewrite <- app_assoc. reflexivity.
    + split; [reflexivity|]. split; [constructor|]. split; [constructor|].
      exists [m], []. split; reflexivity.
    + intros a E. injection E as <-. split; [simpl; lia|reflexivity].
  - exists (Raise AttributeError), [EYield m]. split; [|split].
    + unfold bind, emit.
      assert (E : forall w', write_row (snd d) acc m w' = (Raise AttributeError, w'))
        by (destruct m; try discriminate Hm; reflexivity).
      rewrite E. reflexivity.
    + split; [reflexivity|]. split; [constructor|]. split; [constructor|].
      exists [], [m]. split; reflexivity.
    + intros a E. discriminate E.
Qed.

Lemma pause_block (session : Session) (t : Z) (d : Z * json) :
  block_of session t d [ESleep SLEEP_TIME] /\
  forall acc : Z, block_rel (snd d) acc acc [ESleep SLEEP_TIME].
Proof.
  split.
  - split; [reflexivity|]. split; [constructor|]. split; [constructor|].
    exists [], []. split; reflexivity.
  - intros acc. split; [simpl; lia|reflexivity].
Qed.

(** The export of one division. *)
Lemma export_body_keeps (session : Session) (t : Z) (fuel : nat)
  (acc : Z) (d : Z * json) :
  keeps (block_of session t d) (export_body session t fuel acc d)
    (block_rel (snd d) acc).
Proof.
  assert (E : export_body session t fuel acc d
              = (n <- iter_matches session t (fst d) (write_row (snd d)) fuel acc ;;
                 sleep SLEEP_TIME ;;; ret n))
    by (destruct d; reflexivity).
  rewrite E. unfold iter_matches.
  apply (keeps_bind (block_of session t d)) with (mid := block_rel (snd d) acc).
  - intros a. apply block_step.
  - apply iter_matches_loop_keeps; try lia.
    + apply block_nil.
    + apply block_step.
    + apply block_rel_nil.
    + apply block_rel_app.
    + intros page Hpage. apply page_call_keeps, Hpage.
    + intros acc0 m. apply write_row_keeps.
    + apply pause_block.
  - intros n e1 H1.
    apply (keeps_bind (block_of session t d))
      with (mid := fun _ evs => evs = [ESleep SLEEP_TIME]).
    + intros _ e4 e5 Hi -> Hi5.
      exact (block_step session t d acc acc _ _ Hi
               (proj2 (pause_block session t d) acc) Hi5).
    + apply keeps_emit; [reflexivity|apply pause_block|reflexivity].
    + intros [] ? ->. apply keeps_ret; [apply block_nil|].
      rewrite app_nil_r. apply (block_rel_app _ _ n); [exact H1|].
      apply (pause_block session t d).
Qed.

Lemma bind_raise_eq {A B} (c : M A) (k : A -> M B) (w w' : World) (e : exn) :
  c w = (Raise e, w') -> bind c k w = (Raise e, w').
Proof. intros H. unfold bind. rewrite H. reflexivity. Qed.

Lemma bind_fuel_eq {A B} (c : M A) (k : A -> M B) (w w' : World) :
  c w = (OutOfFuel, w') -> bind c k w = (OutOfFuel, w').
Proof. intros H. unfold bind. rewrite H. reflexivity. Qed.

Lemma emit_eq (e : Event) (w : World) : emit e w = (Ret tt, advance w 0 [e]).
Proof. reflexivity. Qed.

(** The loop over the divisions: one block per division, in order. *)
Lemma export_blocks (session : Session) (t : Z) (fuel : nat)
  (divisions : list (Z * json)) :
  forall acc w,
    exists r evs,
      for_each divisions (export_body session t fuel) acc w
      = (r, advance w (List.length (requests_of evs)) evs) /\
      blocks session t divisions evs /\
      forall acc', r = Ret acc' -> rows_rel acc acc' evs.
Proof.
  induction divisions as [|d rest IH]; intros acc w.
  - exists (Ret acc), []. simpl. unfold ret. rewrite advance_nothing.
    split; [reflexivity|]. split; [reflexivity|].
    intros acc' E. injection E as <-. apply rows_rel_nil.
  - cbn [for_each].
    destruct (export_body_keeps session t fuel acc d w)
      as (r1 & e1 & E1 & B1 & G1).
    destruct r1 as [acc1|e|].
    + rewrite (bind_ret_eq _ _ _ _ _ E1).
      destruct (IH acc1 (advance w (List.length (requests_of e1)) e1))
        as (r2 & e2 & E2 & B2 & G2).
      exists r2, (e1 ++ e2).
      rewrite E2, advance_advance, requests_of_app, length_app, Nat.add_comm.
      split; [reflexivity|]. split.
      * exists e1, e2. auto.
      * intros acc' E. apply (rows_rel_app _ acc1);
          [apply (block_rel_rows (snd d)), G1; reflexivity|].
        apply G2, E.
    + rewrite (bind_raise_eq _ _ _ _ _ E1). exists (Raise e), e1.
      split; [reflexivity|]. split; [|discriminate].
      exists e1, []. rewrite app_nil_r.
      split; [reflexivity|]. split; [exact B1|apply blocks_nil].
    + rewrite (bind_fuel_eq _ _ _ _ E1). exists OutOfFuel, e1.
      split; [reflexivity|]. split; [|discriminate].
      exists e1, []. rewrite app_nil_r.
      split; [reflexivity|]. split; [exact B1|apply blocks_nil].
Qed.

Lemma no_print_before_file (evs : list Event) :
  forallb before_file evs = true ->
  forallb (fun e => negb (is_print e)) evs = true.
Proof. apply forallb_weaken. intros []; simpl; congruence. Qed.

Lemma no_print_export (evs : list Event) :
  forallb export_event evs = true ->
  forallb (fun e => negb (is_print e)) evs = true.
Proof. apply forallb_weaken. intros []; simpl; congruence. Qed.

Section RunReport.
Variable repr_other : json -> string.

Lemma get_divisions_keeps (session : Session) (t : Z) :
  keeps (pre_inv session t) (get_divisions repr_other session t)
    (fun _ _ => True).
Proof.
  unfold get_divisions.
  apply (keeps_bind (pre_inv session t)) with (mid := fun _ _ => True);
    [intros; apply pre_inv_app; assumption|apply tournament_call_keeps|].
  intros response e1 _.
  repeat (apply (keeps_bind (pre_inv session t)) with (mid := fun _ _ => True);
          [intros; apply pre_inv_app; assumption
          |apply keeps_lift; [apply pre_inv_nil|auto]|intros ? ? _]).
  apply keeps_lift; [apply pre_inv_nil|auto].
Qed.

(** A run that got its tournament id, step by step: the listing of the
    divisions, then either the line about the missing divisions, or the file
    with one block of effects per division and, when the loop returns, the
    summary line. *)
Lemma run_report (fuel : nat) (event_ref out_csv : string)
  (token env_token : option string) (w : World) (t : Z) :
  parse_event_id event_ref = Ret t ->
  exists r1 e1,
    get_divisions repr_other (make_session (resolve_token token env_token)) t w
    = (r1, advance w (List.length (requests_of e1)) e1) /\
    pre_inv (make_session (resolve_token token env_token)) t e1 /\
    match r1 with
    | Ret [] =>
        run repr_other fuel event_ref out_csv token env_token w
        = (Ret 1, advance (advance w (List.length (requests_of e1)) e1) 0
                    [EStderr (NoDivisionsFound t)])
    | Ret divisions =>
        exists r2 body,
          run repr_other fuel event_ref out_csv token env_token w
          = (finish r2,
             advance (advance w (List.length (requests_of e1)) e1)
               (List.length (requests_of body))
               (EOpen out_csv :: EHeader fieldnames :: body
                ++ summary r2 out_csv)) /\
          blocks (make_session (resolve_token token env_token)) t divisions body /\
          forall rows, r2 = Ret rows -> rows_rel 0 rows body
    | Raise e =>
        run repr_other fuel event_ref out_csv token env_token w
        = (Raise e, advance w (List.length (requests_of e1)) e1)
    | OutOfFuel =>
        run repr_other fuel event_ref out_csv token env_token w
        = (OutOfFuel, advance w (List.length (requests_of e1)) e1)
    end.
Proof.
  intros Hp. rewrite (run_unfold _ _ _ _ _ _ _ _ Hp).
  set (session := make_session (resolve_token token env_token)).
  destruct (get_divisions_keeps session t w) as (r1 & e1 & E1 & P1 & _).
  exists r1, e1. split; [exact E1|]. split; [exact P1|].
  destruct r1 as [divisions|e|].
  - rewrite (bind_ret_eq _ _ _ _ _ E1).
    destruct divisions as [|d ds]; [reflexivity|].
    rewrite (bind_ret_eq _ _ _ _ _ (emit_eq _ _)).
    rewrite (bind_ret_eq _ _ _ _ _ (emit_eq _ _)).
    set (w1 := advance w (List.length (requests_of e1)) e1).
    destruct (export_blocks session t fuel (d :: ds) 0
                (advance (advance w1 0 [EOpen out_csv]) 0 [EHeader fieldnames]))
      as (r2 & body & E2 & B2 & G2).
    exists r2, body. split; [|split; [exact B2|exact G2]].
    destruct r2 as [rows|e|].
    + rewrite (bind_ret_eq _ _ _ _ _ E2).
      rewrite (bind_ret_eq _ _ _ _ _ (emit_eq _ _)).
      unfold ret. rewrite !advance_advance. cbn [app Nat.add summary finish].
      rewrite ?Nat.add_0_r, <- ?app_assoc. reflexivity.
    + rewrite (bind_raise_eq _ _ _ _ _ E2).
      rewrite !advance_advance. cbn [app Nat.add summary finish].
      rewrite ?Nat.add_0_r, ?app_nil_r. reflexivity.
    + rewrite (bind_fuel_eq _ _ _ _ E2).
      rewrite !advance_advance. cbn [app Nat.add summary finish].
      rewrite ?Nat.add_0_r, ?app_nil_r. reflexivity.
  - apply (bind_raise_eq _ _ _ _ _ E1).
  - apply (bind_fuel_eq _ _ _ _ E1).
Qed.

Lemma requests_after_header (out_csv : string) (body tail : list Event) :
  requests_of tail = [] ->
  requests_of (EOpen out_csv :: EHeader fieldnames :: body ++ tail)
  = requests_of body.
Proof.
  intros H.
  change (EOpen out_csv :: EHeader fieldnames :: body ++ tail)
    with ([EOpen out_csv; EHeader fieldnames] ++ body ++ tail).
  rewrite !requests_of_app, H, app_nil_r. reflexivity.
Qed.

Lemma summary_silent (r : res Z) (out_csv : string) :
  requests_of (summary r out_csv) = [] /\
  rows_of (summary r out_csv) = [] /\
  yields_of (summary r out_csv) = [] /\
  fetches_of (summary r out_csv) = [].
Proof. destruct r; repeat split; reflexivity. Qed.

(** X10.  Whatever the server does, every request of a run carries the
    session made from the chosen token (the command-line token when it is
    not empty, else the one of the environment when it is not empty, else
    the built-in one) in its [X-Authorization] header and the time-out of 30,
    and goes either to the tournament endpoint with the tournament id or to
    the schedule endpoint with the parameters of a page, 1 or more, of one of
    the divisions that [get_divisions] listed in this run, under that
    division's id.  A reference that cannot be parsed ends the run before any
    effect. *)
Theorem run_requests (fuel : nat) (event_ref out_csv : string)
  (token env_token : option string) (w : World) :
  exists r evs,
    run repr_other fuel event_ref out_csv token env_token w
    = (r, advance w (List.length (requests_of evs)) evs) /\
    (forall e, parse_event_id event_ref = Raise e -> r = Raise e /\ evs = []) /\
    (forall t,
        parse_event_id event_ref = Ret t ->
        Forall (run_request (make_session (resolve_token token env_token)) t
                  (listed repr_other
                     (make_session (resolve_token token env_token)) t w))
          (requests_of evs)) /\
    In ("X-Authorization"%string, resolve_token token env_token)
      (headers (make_session (resolve_token token env_token))) /\
    (forall c s, token = Some (String c s) ->
                 resolve_token token env_token = String c s) /\
    (forall c s, no_token token -> env_token = Some (String c s) ->
                 resolve_token token env_token = String c s) /\
    (no_token token -> no_token env_token ->
     resolve_token token env_token = DEFAULT_TOKEN).
Proof.
  assert (Htok :
    In ("X-Authorization"%string, resolve_token token env_token)
      (headers (make_session (resolve_token token env_token))) /\
    (forall c s, token = Some (String c s) ->
                 resolve_token token env_token = String c s) /\
    (forall c s, no_token token -> env_token = Some (String c s) ->
                 resolve_token token env_token = String c s) /\
    (no_token token -> no_token env_token ->
     resolve_token token env_token = DEFAULT_TOKEN)).
  { split; [simpl; auto|]. split; [|split].
    - intros c s ->. reflexivity.
    - intros c s [-> | ->] ->; reflexivity.
    - apply resolve_no_token. }
  set (session := make_session (resolve_token token env_token)) in *.
  destruct (parse_event_id event_ref) as [t|e|] eqn:Hp.
  - destruct (run_report fuel event_ref out_csv token env_token w t Hp)
      as (r1 & e1 & E1 & [_ R1] & Hrun).
    fold session in E1, R1, Hrun.
    assert (Hmore : forall ids,
      Forall (run_request session t ids) (requests_of e1)).
    { intros ids.
      apply (Forall_impl _ (P := run_request session t [])); [|exact R1].
      intros r. apply run_request_more. intros d []. }
    assert (Hgoal : forall r evs,
      run repr_other fuel event_ref out_csv token env_token w
      = (r, advance w (List.length (requests_of evs)) evs) ->
      Forall (run_request session t (listed repr_other session t w))
        (requests_of evs) ->
      exists r evs,
        run repr_other fuel event_ref out_csv token env_token w
        = (r, advance w (List.length (requests_of evs)) evs) /\
        (forall e, Ret t = Raise e -> r = Raise e /\ evs = []) /\
        (forall t', Ret t = Ret t' ->
           Forall (run_request session t' (listed repr_other session t' w))
             (requests_of evs)) /\
        In ("X-Authorization"%string, resolve_token token env_token)
          (headers session) /\
        (forall c s, token = Some (String c s) ->
                     resolve_token token env_token = String c s) /\
        (forall c s, no_token token -> env_token = Some (String c s) ->
                     resolve_token token env_token = String c s) /\
        (no_token token -> no_token env_token ->
         resolve_token token env_token = DEFAULT_TOKEN)).
    { intros r evs E H. exists r, evs. split; [exact E|].
      split; [discriminate|]. split; [|exact Htok].
      intros t' Ht. injection Ht as <-. exact H. }
    destruct r1 as [[|d ds]|e|].
    + apply (Hgoal (Ret 1) (e1 ++ [EStderr (NoDivisionsFound t)])).
      * rewrite Hrun, advance_advance, requests_of_app. simpl.
        rewrite app_nil_r. reflexivity.
      * rewrite requests_of_app. simpl. rewrite app_nil_r. apply Hmore.
    + destruct Hrun as (r2 & body & Hrun & B2 & _).
      destruct (summary_silent r2 out_csv) as (Sq & _).
      apply (Hgoal (finish r2)
               (e1 ++ EOpen out_csv :: EHeader fieldnames :: body
                   ++ summary r2 out_csv)).
      * rewrite Hrun, advance_advance, requests_of_app,
          (requests_after_header _ _ _ Sq), length_app.
        rewrite (Nat.add_comm (List.length (requests_of body))). reflexivity.
      * rewrite requests_of_app, (requests_after_header _ _ _ Sq).
        apply Forall_app. split; [apply Hmore|].
        unfold listed. rewrite E1. apply (blocks_requests _ _ _ _ B2).
    + apply (Hgoal (Raise e) e1); [exact Hrun|apply Hmore].
    + apply (Hgoal OutOfFuel e1); [exact Hrun|apply Hmore].
  - exists (Raise e), []. split; [|split; [|split; [discriminate|exact Htok]]].
    + unfold run. rewrite Hp. simpl. rewrite advance_nothing. reflexivity.
    + intros e' He. injection He as <-. auto.
  - exists OutOfFuel, []. split; [|split; [|split; [discriminate|exact Htok]]].
    + unfold run. rewrite Hp. simpl. rewrite advance_nothing. reflexivity.
    + discriminate.
Qed.

(** X11.  A run that got its tournament id ends in one of three ways,
    whatever the server does.  With exit code 1: the line about the missing
    divisions is the last effect, and no file was opened.  With exit code 0:
    the file was opened once and the header written once, before the rows;
    the summary line is the last effect and the number it prints is the
    number of rows written; the rows are, column by column, what the
    extractors read in the matches yielded, in the order of the yields.
    With an exception: no summary line was printed.  There is no other exit
    code. *)
Theorem run_exit (fuel : nat) (event_ref out_csv : string)
  (token env_token : option string) (w : World) (t : Z) :
  parse_event_id event_ref = Ret t ->
  exists r evs,
    run repr_other fuel event_ref out_csv token env_token w
    = (r, advance w (List.length (requests_of evs)) evs) /\
    run_outcome t out_csv r evs.
Proof.
  intros Hp.
  destruct (run_report fuel event_ref out_csv token env_token w t Hp)
    as (r1 & e1 & E1 & [B1 _] & Hrun).
  destruct r1 as [[|d ds]|e|].
  - exists (Ret 1), (e1 ++ [EStderr (NoDivisionsFound t)]). split.
    + rewrite Hrun, advance_advance, requests_of_app. simpl.
      rewrite app_nil_r. reflexivity.
    + left. split; [reflexivity|]. exists e1. auto.
  - destruct Hrun as (r2 & body & Hrun & B2 & G2).
    destruct (summary_silent r2 out_csv) as (Sq & _).
    pose proof (blocks_export _ _ _ _ B2) as X2.
    exists (finish r2),
      (e1 ++ EOpen out_csv :: EHeader fieldnames :: body ++ summary r2 out_csv).
    split.
    + rewrite Hrun, advance_advance, requests_of_app,
        (requests_after_header _ _ _ Sq), length_app.
      rewrite (Nat.add_comm (List.length (requests_of body))). reflexivity.
    + destruct r2 as [rows|e|].
      * destruct (G2 rows eq_refl) as [Hrows Hmap]. simpl in Hrows. subst rows.
        right. split; [reflexivity|]. exists e1, body. auto.
      * simpl. rewrite forallb_app. simpl. rewrite forallb_app. simpl.
        rewrite (no_print_before_file _ B1), (no_print_export _ X2).
        reflexivity.
      * simpl. rewrite forallb_app. simpl. rewrite forallb_app. simpl.
        rewrite (no_print_before_file _ B1), (no_print_export _ X2).
        reflexivity.
  - exists (Raise e), e1. split; [exact Hrun|].
    apply no_print_before_file, B1.
  - exists OutOfFuel, e1. split; [exact Hrun|].
    apply no_print_before_file, B1.
Qed.

(** C9.  Every row carries the display name of the division whose
    pagination produced it, and the rows come in division-then-page order.

    In every run that opens the file, whatever the server does and however
    the run ends, the effects after the header split into one block per
    listed division, in the order of the listing: in the block of a division
    every call of [get_json] and every request goes to the schedule endpoint
    with that division's id, and the rows are, in order, the rows of the
    matches yielded in that block, under that division's display name (in a
    run cut short the match yielded last can lack its row).

    When the server delivers, division after division, the pages of [jobs],
    [run] ends with exit code 0 after calling for the pages 1, 2, ... of each
    division under its id and writing one row per match: the rows of the
    first division in page order, then those of the second, and so on.  Two
    divisions with one page of three matches each give six rows, three under
    each name, whatever the ids are. *)
Theorem run_rows (fuel : nat) (event_ref out_csv : string)
  (token env_token : option string) :
  (forall w t jobs w1 c',
      parse_event_id event_ref = Ret t ->
      get_divisions repr_other
        (make_session (resolve_token token env_token)) t w
      = (Ret (map fst jobs), w1) ->
      jobs <> [] ->
      serves (net w1) (clock w1) (map snd jobs) c' ->
      Forall (walkable fuel) (map snd jobs) ->
      exists w',
        run repr_other fuel event_ref out_csv token env_token w = (Ret 0, w') /\
        rows_of (trace w') = rows_of (trace w) ++ flat_map rows_for jobs /\
        clock w' = c' /\
        fetches_of (trace w')
        = fetches_of (trace w1) ++ flat_map (fetches_for t) jobs) /\
  (forall job : (Z * json) * Block,
      Forall (fun r => division r = snd (fst job)) (rows_for job)) /\
  (forall w t divisions w1,
      parse_event_id event_ref = Ret t ->
      get_divisions repr_other
        (make_session (resolve_token token env_token)) t w
      = (Ret divisions, w1) ->
      divisions <> [] ->
      exists r n body tail,
        run repr_other fuel event_ref out_csv token env_token w
        = (r, advance w1 n
                (EOpen out_csv :: EHeader fieldnames :: body ++ tail)) /\
        blocks (make_session (resolve_token token env_token)) t divisions body /\
        rows_of tail = [] /\ yields_of tail = [] /\ fetches_of tail = []) /\
  (forall (session : Session) (t : Z) (d : Z * json) (evs : list Event),
      block_of session t d evs ->
      Forall (fun r => division r = snd d) (rows_of evs) /\
      Forall (fun f => exists page, f = (BASE_SCHEDULE, schedule_params t (fst d) page))
        (fetches_of evs)) /\
  (exists w',
      run repr_other 5 "6489" out_csv token env_token (start server_two_divisions)
      = (Ret 0, w') /\
      rows_of (trace w')
      = map (row_of (JStr "U10")) (records 0 3)
        ++ map (row_of (JStr "U12")) (records 3 3) /\
      map division (rows_of (trace w'))
      = [JStr "U10"; JStr "U10"; JStr "U10"; JStr "U12"; JStr "U12"; JStr "U12"] /\
      yields_of (trace w') = records 0 6 /\
      fetches_of (trace w')
      = [(BASE_PUBLIC, [("tournament_id", JInt 6489)]);
         (BASE_SCHEDULE, schedule_params 6489 11 1);
         (BASE_SCHEDULE, schedule_params 6489 12 1)]).
Proof.
  split; [|split; [|split; [|split]]].
  - intros w t jobs w1 c' Hp Hg Hne Hs Hw.
    destruct (get_divisions_run repr_other
                (make_session (resolve_token token env_token)) t w)
      as (r & n & evs & _ & Q & E).
    rewrite Hg in E. injection E as _ ->.
    destruct (quiet_silent _ Q) as (_ & _ & Rq).
    set (w1 := advance w n (EFetch BASE_PUBLIC [("tournament_id", JInt t)] :: evs)) in *.
    set (w2 := advance (advance w1 0 [EOpen out_csv]) 0 [EHeader fieldnames]).
    destruct (export_loop (make_session (resolve_token token env_token)) t fuel
                jobs 0 w2 c' Hs Hw) as (n' & evs' & El & Ec & Rl & Fl).
    eexists. split; [|split; [|split]].
    + rewrite (run_unfold _ _ _ _ _ _ _ _ Hp), (bind_ret_eq _ _ _ _ _ Hg).
      destruct jobs as [|job jobs]; [elim Hne; reflexivity|].
      cbn [map].
      change (fst job :: map fst jobs) with (map fst (job :: jobs)).
      rewrite (bind_ret_eq (emit (EOpen out_csv)) _ w1
                 (advance w1 0 [EOpen out_csv]) tt eq_refl).
      rewrite (bind_ret_eq (emit (EHeader fieldnames)) _
                 (advance w1 0 [EOpen out_csv]) w2 tt eq_refl).
      rewrite (bind_ret_eq _ _ _ _ _ El). reflexivity.
    + unfold bind, emit, ret. cbn [trace snd advance].
      rewrite !rows_of_app, Rl.
      unfold w2, w1. cbn [trace advance]. rewrite !rows_of_app.
      change (rows_of (EFetch BASE_PUBLIC [("tournament_id", JInt t)] :: evs))
        with (rows_of evs).
      rewrite Rq. simpl. rewrite !app_nil_r. reflexivity.
    + simpl. rewrite Ec. reflexivity.
    + unfold bind, emit, ret. cbn [trace snd advance].
      rewrite !fetches_of_app, Fl.
      unfold w2. cbn [trace advance]. rewrite !fetches_of_app.
      simpl. rewrite !app_nil_r. reflexivity.
  - intros job. unfold rows_for. apply Forall_forall.
    intros r Hr. apply in_map_iff in Hr. destruct Hr as (m & <- & _).
    reflexivity.
  - intros w t divisions w1 Hp Hg Hne.
    destruct (run_report fuel event_ref out_csv token env_token w t Hp)
      as (r1 & e1 & E1 & _ & Hrun).
    rewrite Hg in E1. injection E1 as <- ->.
    destruct divisions as [|d ds]; [elim Hne; reflexivity|].
    destruct Hrun as (r2 & body & Hrun & B2 & _).
    destruct (summary_silent r2 out_csv) as (_ & Sr & Sy & Sf).
    exists (finish r2), (List.length (requests_of body)), body,
      (summary r2 out_csv).
    auto.
  - intros session t d evs (_ & F & _ & ms & rest & W & _). split.
    + rewrite W. apply Forall_forall. intros r Hr.
      apply in_map_iff in Hr. destruct Hr as (m & <- & _). reflexivity.
    + apply (Forall_impl _ (P := fun f => exists page,
                 1 <= page /\ f = (BASE_SCHEDULE, schedule_params t (fst d) page)));
        [|exact F].
      intros f (page & _ & ->). exists page. reflexivity.
  - eexists. split; [|split; [|split; [|split]]].
    + rewrite (run_unfold repr_other 5 "6489" out_csv token env_token _ 6489 eq_refl).
      vm_compute. reflexivity.
    + vm_compute. reflexivity.
    + vm_compute. reflexivity.
    + vm_compute. reflexivity.
    + vm_compute. reflexivity.
Qed.

End RunReport.

Lemma run_rows_witness :
  exists w',
    run no_repr 5 "6489" "schedules.csv" (Some "secret") None
      (start server_two_divisions) = (Ret 0, w') /\
    rows_of (trace w')
    = rows_of (trace (start server_two_divisions)) ++ flat_map rows_for sample_jobs /\
    clock w' = 3%nat /\
    fetches_of (trace w')
    = fetches_of
        (trace (snd (get_divisions no_repr (make_session "secret") 6489
                       (start server_two_divisions))))
      ++ flat_map (fetches_for 6489) sample_jobs.
Proof.
  eapply (proj1 (run_rows no_repr 5 "6489" "schedules.csv" (Some "secret") None)
            (start server_two_divisions) 6489 sample_jobs).
  - reflexivity.
  - reflexivity.
  - discriminate.
  - exists 2%nat. split.
    + exists (page_response (records 0 3)), 2%nat.
      split; [reflexivity|]. split; reflexivity.
    + exists 3%nat. split; [|reflexivity].
      exists (page_response (records 3 3)), 3%nat.
      split; [reflexivity|]. split; reflexivity.
  - repeat constructor.
Defined.

(** ** [iter_matches]: a page that cannot be had *)

Lemma delivers_app (server : nat -> Outcome) (pages more : list (list json)) :
  forall c c1 c',
    delivers server c pages c1 -> delivers server c1 more c' ->
    delivers server c (pages ++ more) c'.
Proof.
  induction pages as [|p pages IH]; intros c c1 c' H1 H2; simpl in *.
  - subst c1. exact H2.
  - destruct H1 as (response & c0 & Ha & Hp & Hd).
    exists response, c0. split; [exact Ha|]. split; [exact Hp|].
    exact (IH _ _ _ Hd H2).
Qed.

(** Three transient failures in a row: [get_json] gives up and returns
    [None]. *)
Lemma answer_gives_up (server : nat -> Outcome) (c : nat) :
  (forall i, (i < MAX_RETRIES)%nat -> transient (server (i + c)%nat) = true) ->
  answer server c = (Ret JNull, (MAX_RETRIES + c)%nat).
Proof.
  intros H. unfold answer.
  set (w0 := {| net := server; clock := c; trace := [] |}).
  assert (Hf : fails_first w0 2).
  { intros i Hi. apply H. unfold MAX_RETRIES. lia. }
  rewrite (get_json_after_retries _ _ _ 2 w0 Hf) by (unfold MAX_RETRIES; lia).
  assert (Ht : transient (net w0 (2 + clock w0)%nat) = true)
    by (apply H; unfold MAX_RETRIES; lia).
  unfold after_request.
  destruct (net w0 (2 + clock w0)%nat) as [status resp_url body|e]; simpl in Ht;
    rewrite Ht; reflexivity.
Qed.

Section PageFailures.
Variables (session : Session) (tournament_id division_id : Z).

(** The loop in front of full pages: it goes on to the page after them. *)
Lemma iter_matches_full_pages (pages : list (list json)) :
  forall fuel page acc w c1,
    delivers (net w) (clock w) pages c1 ->
    Forall full_page pages ->
    exists n evs,
      iter_matches_loop session tournament_id division_id collect
        (List.length pages + fuel) page acc w
      = iter_matches_loop session tournament_id division_id collect
          fuel (page + Z.of_nat (List.length pages)) (acc ++ List.concat pages)
          (advance w n evs) /\
      c1 = (n + clock w)%nat /\
      yields_of evs = List.concat pages.
Proof.
  induction pages as [|p pages IH]; intros fuel page acc w c1 Hd Hfull.
  - simpl in Hd. subst c1. exists 0%nat, []. simpl.
    rewrite advance_nothing, Z.add_0_r, app_nil_r. auto.
  - simpl in Hd. destruct Hd as (response & c0 & Ha & Hp & Hd).
    destruct (get_json_answer session BASE_SCHEDULE
                (schedule_params tournament_id division_id page) w)
      as (r & n & evs & Eg & Ea & Q).
    rewrite Ha in Ea. injection Ea as <- ->.
    destruct (quiet_silent _ Q) as (Yq & _ & _).
    inversion Hfull as [|? ? Hp_full Hfull']; subst.
    destruct (page_of_cases _ _ Hp) as (m & Em & [[Ht ->] | [Ht Hi]]);
      [unfold full_page, MATCHES_PER_PAGE in Hp_full; simpl in Hp_full; lia|].
    set (fetch := EFetch BASE_SCHEDULE
                    (schedule_params tournament_id division_id page)) in *.
    set (w2 := advance (advance w n (fetch :: evs)) 0 (map EYield p)).
    set (w3 := advance w2 0 [ESleep SLEEP_TIME]).
    destruct (IH fuel (page + 1) (acc ++ p) w3 c1 Hd Hfull')
      as (n' & evs' & Ei & Ec & Y').
    exists (n' + n)%nat,
      ((fetch :: evs) ++ map EYield p ++ [ESleep SLEEP_TIME] ++ evs').
    split; [|split].
    + cbn [List.length Nat.add iter_matches_loop].
      rewrite (bind_ret_eq _ _ _ _ _ Eg), Em, bind_lift_ret, Ht. cbn [negb].
      rewrite Hi, bind_lift_ret.
      rewrite (bind_ret_eq _ _ _ _ _ (collect_each p acc _)).
      unfold Py.len. rewrite Hi. simpl bind_res. rewrite bind_lift_ret.
      unfold full_page in Hp_full. apply Z.ltb_ge in Hp_full. rewrite Hp_full.
      fold w2.
      assert (Es : sleep SLEEP_TIME w2 = (Ret tt, w3)) by reflexivity.
      rewrite (bind_ret_eq _ _ _ _ _ Es), Ei.
      unfold w3, w2. rewrite !advance_advance, !Nat.add_0_r.
      rewrite <- ?app_assoc. cbn [List.concat].
      replace (page + 1 + Z.of_nat (List.length pages))
        with (page + Z.of_nat (Datatypes.S (List.length pages))) by lia.
      reflexivity.
    + rewrite Ec. simpl. lia.
    + rewrite !yields_of_app, yields_of_map, Y'. simpl. rewrite Yq.
      reflexivity.
Qed.

(** One round of the loop on a response that stands for no page. *)
Lemma iter_matches_round_raise (fuel : nat) (page : Z) (acc : list json)
  (w : World) (response : json) (c' : nat) (e : exn) :
  answer (net w) (clock w) = (Ret response, c') ->
  page_of response = Raise e ->
  exists n evs,
    iter_matches_loop session tournament_id division_id collect
      (Datatypes.S fuel) page acc w
    = (Raise e, advance w n evs) /\
    c' = (n + clock w)%nat /\
    yields_of evs = [].
Proof.
  intros Ha Hp.
  destruct (get_json_answer session BASE_SCHEDULE
              (schedule_params tournament_id division_id page) w)
    as (r & n & evs & Eg & Ea & Q).
  rewrite Ha in Ea. injection Ea as <- ->.
  destruct (quiet_silent _ Q) as (Yq & _ & _).
  exists n, (EFetch BASE_SCHEDULE
               (schedule_params tournament_id division_id page) :: evs).
  split; [|split; [reflexivity|exact Yq]].
  cbn [iter_matches_loop]. rewrite (bind_ret_eq _ _ _ _ _ Eg).
  unfold page_of in Hp.
  destruct (matches_of response) as [m|e'|] eqn:Em; simpl in Hp.
  - rewrite bind_lift_ret. destruct (Py.truthy m); [|discriminate Hp].
    cbn [negb]. rewrite Hp. reflexivity.
  - injection Hp as ->. reflexivity.
  - discriminate Hp.
Qed.

End PageFailures.

(** X12.  A page that cannot be had ends the iteration like the end of the
    data.  When the pages before it were full and the call for the next page
    meets three transient failures in a row, [iter_matches] returns normally
    after these three requests: the matches of the earlier pages were yielded,
    and those of the failed page and of every page after it are missing
    without an exception. *)
Theorem iter_matches_gives_up (session : Session)
  (tournament_id division_id : Z) (pages : list (list json)) (fuel : nat)
  (acc : list json) (w : World) (c1 : nat) :
  delivers (net w) (clock w) pages c1 ->
  Forall full_page pages ->
  (forall i, (i < MAX_RETRIES)%nat -> transient (net w (i + c1)%nat) = true) ->
  (List.length pages < fuel)%nat ->
  exists n evs,
    iter_matches session tournament_id division_id collect fuel acc w
    = (Ret (acc ++ List.concat pages), advance w n evs) /\
    (n + clock w = MAX_RETRIES + c1)%nat /\
    yields_of evs = List.concat pages /\
    fetches_of evs
    = page_fetches tournament_id division_id 1 (S (List.length pages)).
Proof.
  intros Hd Hfull Hfail Hfuel.
  assert (Hd' : delivers (net w) (clock w) (pages ++ [[]]) (MAX_RETRIES + c1)%nat).
  { apply (delivers_app _ _ _ _ c1); [exact Hd|].
    exists JNull, (MAX_RETRIES + c1)%nat.
    split; [apply answer_gives_up, Hfail|]. split; reflexivity. }
  destruct (iter_matches_loop_pages session tournament_id division_id collect
              (fun _ => True) (fun acc m => acc ++ [m]) (fun _ => [])
              collect_good (fun _ => conj eq_refl eq_refl)
              [] pages fuel 1 acc w _ Hd' Hfull)
    as (n & evs & E & Ec & Y & F & _).
  - unfold short_page, MATCHES_PER_PAGE. simpl. lia.
  - apply Forall_forall. trivial.
  - exact Hfuel.
  - exists n, evs. rewrite fold_left_snoc, app_nil_r in E.
    rewrite app_nil_r in Y. auto.
Qed.

(** X13.  A response in which the matches cannot be found the way the
    code looks for them makes [iter_matches] raise, after the matches of the
    full pages before it were yielded: [AttributeError] when the response or
    its [content] is a truthy value that is no record (a JSON array at top
    level, say), [TypeError] when [matches] is a number or [true]. *)
Theorem iter_matches_malformed_page (session : Session)
  (tournament_id division_id : Z) :
  (forall pages fuel acc w c1 c' response e,
      delivers (net w) (clock w) pages c1 ->
      Forall full_page pages ->
      answer (net w) c1 = (Ret response, c') ->
      page_of response = Raise e ->
      (List.length pages < fuel)%nat ->
      exists n evs,
        iter_matches session tournament_id division_id collect fuel acc w
        = (Raise e, advance w n evs) /\
        c' = (n + clock w)%nat /\
        yields_of evs = List.concat pages) /\
  (forall response,
      Py.truthy response = true -> Py.is_dict response = false ->
      page_of response = Raise AttributeError) /\
  (forall r content,
      Py.lookup "content" r = Some content ->
      Py.truthy content = true -> Py.is_dict content = false ->
      page_of (JDict r) = Raise AttributeError) /\
  (forall r c z,
      Py.lookup "content" r = Some (JDict c) ->
      Py.lookup "matches" c = Some (JInt z) -> z <> 0 ->
      page_of (JDict r) = Raise TypeError) /\
  (forall r c,
      Py.lookup "content" r = Some (JDict c) ->
      Py.lookup "matches" c = Some (JBool true) ->
      page_of (JDict r) = Raise TypeError).
Proof.
  split; [|split; [|split; [|split]]].
  - intros pages fuel acc w c1 c' response e Hd Hfull Ha Hp Hfuel.
    destruct (iter_matches_full_pages session tournament_id division_id pages
                (fuel - List.length pages) 1 acc w c1 Hd Hfull)
      as (n1 & evs1 & E1 & Ec1 & Y1).
    replace (List.length pages + (fuel - List.length pages))%nat with fuel
      in E1 by lia.
    destruct (fuel - List.length pages)%nat as [|fuel'] eqn:Ef; [lia|].
    destruct (iter_matches_round_raise session tournament_id division_id fuel'
                (1 + Z.of_nat (List.length pages)) (acc ++ List.concat pages)
                (advance w n1 evs1) response c' e)
      as (n2 & evs2 & E2 & Ec2 & Y2); [simpl; rewrite <- Ec1; exact Ha|exact Hp|].
    exists (n2 + n1)%nat, (evs1 ++ evs2). unfold iter_matches.
    rewrite E1, E2, advance_advance. split; [reflexivity|].
    split; [rewrite Ec2; simpl; lia|].
    rewrite yields_of_app, Y1, Y2, app_nil_r. reflexivity.
  - intros response Ht Hd. unfold page_of, matches_of, Py.or_. rewrite Ht.
    destruct response; try discriminate Hd; reflexivity.
  - intros r content Hc Ht Hd. unfold page_of, matches_of, Py.or_.
    destruct r as [|b r]; [discriminate Hc|].
    cbn [Py.truthy Py.get]. rewrite Hc. cbn [bind_res]. rewrite Ht.
    destruct content; try discriminate Hd; reflexivity.
  - intros r c z Hc Hm Hz. unfold page_of, matches_of, Py.or_.
    destruct r as [|b r]; [discriminate Hc|].
    cbn [Py.truthy Py.get]. rewrite Hc. cbn [bind_res].
    destruct c as [|b' c]; [discriminate Hm|].
    cbn [Py.truthy Py.get]. rewrite Hm. cbn [bind_res Py.truthy].
    apply Z.eqb_neq in Hz. rewrite Hz. cbn [negb Py.truthy].
    rewrite Hz. reflexivity.
  - intros r c Hc Hm. unfold page_of, matches_of, Py.or_.
    destruct r as [|b r]; [discriminate Hc|].
    cbn [Py.truthy Py.get]. rewrite Hc. cbn [bind_res].
    destruct c as [|b' c]; [discriminate Hm|].
    cbn [Py.truthy Py.get]. rewrite Hm. reflexivity.
Qed.

(** ** [get_divisions]: a record that cannot be read *)

Section DivisionFailures.
Variable repr_other : json -> string.

Lemma divisions_loop_raise (before : list json)
  (entries : list (option (Z * json))) (d : json) (rest : list json) (e : exn) :
  Forall2 (fun d e => division_of repr_other d = Ret e) before entries ->
  division_of repr_other d = Raise e ->
  forall out, divisions_loop repr_other (before ++ d :: rest) out = Raise e.
Proof.
  intros H Hd. induction H as [|x o before entries Hx _ IH]; intros out.
  - cbn [app divisions_loop]. rewrite Hd. reflexivity.
  - cbn [app divisions_loop]. rewrite Hx. cbn [bind_res].
    destruct o; apply IH.
Qed.

(** X14.  One division record that cannot be read costs the whole
    listing: [get_divisions] raises at the first such record, also when the
    records before it were good, and returns no division at all.  A record
    cannot be read when it is no record ([AttributeError]), when its [id] is
    a string that [int] rejects ([ValueError]), or when its [id] is a list or
    a record ([TypeError]). *)
Theorem get_divisions_bad_record (session : Session) (tournament_id : Z) :
  (forall w response c' before entries d rest e,
      answer (net w) (clock w) = (Ret response, c') ->
      has_divisions response (before ++ d :: rest) ->
      Forall2 (fun d e => division_of repr_other d = Ret e) before entries ->
      division_of repr_other d = Raise e ->
      exists w',
        get_divisions repr_other session tournament_id w = (Raise e, w') /\
        clock w' = c') /\
  (forall d, Py.is_dict d = false ->
             division_of repr_other d = Raise AttributeError) /\
  (forall d s,
      dict_get d "id" = JStr s -> PyInt.of_string s = None ->
      division_of repr_other (JDict d) = Raise ValueError) /\
  (forall d l,
      dict_get d "id" = JList l ->
      division_of repr_other (JDict d) = Raise TypeError) /\
  (forall d r,
      dict_get d "id" = JDict r ->
      division_of repr_other (JDict d) = Raise TypeError).
Proof.
  split; [|split; [|split; [|split]]].
  - intros w response c' before entries d rest e Ha
      (r & c & t & -> & Hc & Ht & Hd) Hbefore Hbad.
    destruct (get_divisions_run repr_other session tournament_id w)
      as (r' & n & evs & Ea & _ & E).
    rewrite Ha in Ea. injection Ea as <- ->. rewrite E.
    exists (advance w n
              (EFetch BASE_PUBLIC [("tournament_id", JInt tournament_id)] :: evs)).
    split; [|reflexivity]. f_equal. simpl. unfold Py.or_.
    destruct r as [|b r]; [discriminate|].
    cbn [Py.truthy Py.get]. rewrite Hc. cbn [bind_res Py.get].
    rewrite Ht. cbn [bind_res Py.get]. rewrite Hd. cbn [bind_res Py.iter].
    apply (divisions_loop_raise _ _ _ _ _ Hbefore Hbad).
  - intros d H. destruct d; try discriminate H; reflexivity.
  - intros d s Hid Hs. rewrite division_of_record, Hid. cbv zeta.
    simpl. rewrite Hs. reflexivity.
  - intros d l Hid. rewrite division_of_record, Hid. reflexivity.
  - intros d r Hid. rewrite division_of_record, Hid. reflexivity.
Qed.

End DivisionFailures.

(** ** [get_json]: a body that does not parse *)

Section ParseErrors.
Variables (session : Session) (url : string) (params : list (string * json)).

Lemma round_retry_any (fuel attempt : nat) (delay : Q) (w : World) :
  retried (net w (clock w)) ->
  (S attempt <? MAX_RETRIES)%nat = true ->
  get_json_loop session url params (S fuel) attempt delay w
  = get_json_loop session url params fuel (S attempt) (delay * BACKOFF)%Q
      (advance w 1 [request session url params; ESleep delay]).
Proof.
  intros [Ht | (e & (status & resp_url & E & Hok) & He)] Hlt.
  - apply round_retry; assumption.
  - rewrite get_json_loop_round, E. unfold after_request.
    rewrite (ok_no_retry _ Hok), Hok. cbn [negb]. rewrite He, Hlt.
    unfold bind, sleep, emit, advance. simpl. rewrite <- app_assoc.
    reflexivity.
Qed.

Lemma retried_first_next (w : World) (k : nat) (evs : list Event) :
  retried_first w (S k) -> retried_first (advance w 1 evs) k.
Proof.
  intros H i Hi. simpl. rewrite <- Nat.add_succ_comm. apply H. lia.
Qed.

Lemma loop_after_any_retries (k : nat) :
  forall fuel attempt delay w,
    retried_first w k -> (attempt + k < MAX_RETRIES)%nat ->
    get_json_loop session url params (k + fuel) attempt delay w
    = get_json_loop session url params fuel (k + attempt) (delay_after delay k)
        (advance w k (retry_events (request session url params) delay k)).
Proof.
  induction k as [|k IH]; intros fuel attempt delay w Hf Hk.
  - simpl. rewrite advance_nothing. reflexivity.
  - cbn [Nat.add]. rewrite round_retry_any.
    + rewrite IH.
      * rewrite advance_advance. cbn [retry_events delay_after].
        rewrite Nat.add_succ_r, Nat.add_1_r. reflexivity.
      * exact (retried_first_next _ _ _ Hf).
      * lia.
    + specialize (Hf 0%nat). simpl in Hf. apply Hf. lia.
    + apply Nat.ltb_lt. lia.
Qed.

Lemma get_json_after_any_retries (k : nat) (w : World) :
  retried_first w k -> (k < MAX_RETRIES)%nat ->
  get_json session url params w
  = after_request
      (sleep (delay_after BACKOFF k) ;;;
       get_json_loop session url params (2 - k) (S k)
         (delay_after BACKOFF k * BACKOFF)%Q)
      url (S k) (net w (k + clock w)%nat)
      (advance w (S k)
         (EFetch url params
          :: retry_events (request session url params) BACKOFF k
          ++ [request session url params])).
Proof.
  intros Hf Hk. unfold MAX_RETRIES in Hk. rewrite get_json_enter.
  replace 3%nat with (k + S (2 - k))%nat by lia.
  rewrite loop_after_any_retries; [|exact Hf|unfold MAX_RETRIES; lia].
  rewrite get_json_loop_round, !advance_advance, !Nat.add_0_r.
  cbn [net clock advance]. rewrite <- app_assoc. reflexivity.
Qed.

(** X15.  A body that does not parse counts as a failed attempt whenever
    the exception of [resp.json()] is a [RequestException], as the
    [JSONDecodeError] of requests is: in front of any server, after [k] such
    bodies or transient failures, in any mix, [get_json] has slept [k] times
    with the delays 1.5, 2.25, ...; a success at the next request is
    returned, and a third body that does not parse ends the call with [None]
    and the line about a request error after 3 attempts. *)
Theorem get_json_parse_errors_retried (w : World) (k : nat) :
  (k < MAX_RETRIES)%nat ->
  retried_first w k ->
  (forall j,
      success (net w (k + clock w)%nat) j ->
      get_json session url params w
      = (Ret j,
         advance w (S k)
           (EFetch url params
            :: retry_events (request session url params) BACKOFF k
            ++ [request session url params]))) /\
  (forall e,
      S k = MAX_RETRIES ->
      unparseable (net w (k + clock w)%nat) e ->
      is_RequestException e = true ->
      get_json session url params w
      = (Ret JNull,
         advance w (S k)
           (EFetch url params
            :: retry_events (request session url params) BACKOFF k
            ++ [request session url params;
                EStderr (RequestErrorAfter MAX_RETRIES url e)]))) /\
  sleeps_of (retry_events (request session url params) BACKOFF k)
  = delays BACKOFF k.
Proof.
  intros Hk Hf. split; [|split].
  - intros j (status & resp_url & E & Hok).
    rewrite (get_json_after_any_retries k w Hf Hk), E. unfold after_request.
    rewrite (ok_no_retry _ Hok), Hok. reflexivity.
  - intros e Hlast (status & resp_url & E & Hok) He.
    rewrite (get_json_after_any_retries k w Hf Hk), E. unfold after_request.
    rewrite (ok_no_retry _ Hok), Hok. cbn [negb]. rewrite He, Hlast.
    rewrite Nat.ltb_irrefl.
    unfold bind, stderr_write, emit, ret, advance. cbn [net clock trace].
    rewrite <- ?app_assoc. cbn [app]. rewrite <- ?app_assoc. reflexivity.
  - apply sleeps_of_retry_events. discriminate.
Qed.

End ParseErrors.

(** ** The further properties at concrete inputs *)

Lemma get_json_client_error_witness :
  get_json sample_session BASE_PUBLIC [] (start server_client_error)
  = (Ret JNull,
     advance (start server_client_error) 2
       (EFetch BASE_PUBLIC []
        :: retry_events (request sample_session BASE_PUBLIC []) BACKOFF 1
        ++ [request sample_session BASE_PUBLIC [];
            EStderr (HttpStatus 404 reported_url)])) /\
  sleeps_of (EFetch BASE_PUBLIC []
             :: retry_events (request sample_session BASE_PUBLIC []) BACKOFF 1
             ++ [request sample_session BASE_PUBLIC [];
                 EStderr (HttpStatus 404 reported_url)])
  = delays BACKOFF 1.
Proof.
  apply (get_json_client_error sample_session BASE_PUBLIC []
           (start server_client_error) 1 404 reported_url (BodyJson JNull)).
  - unfold MAX_RETRIES. lia.
  - intros i Hi. destruct i; [reflexivity|lia].
  - reflexivity.
  - reflexivity.
  - reflexivity.
Defined.

Lemma get_json_other_exceptions_witness :
  get_json sample_session BASE_PUBLIC [] (start server_other_error)
  = (Raise OtherError,
     advance (start server_other_error) 2
       (EFetch BASE_PUBLIC []
        :: retry_events (request sample_session BASE_PUBLIC []) BACKOFF 1
        ++ [request sample_session BASE_PUBLIC []])).
Proof.
  apply (proj2 (get_json_other_exceptions sample_session BASE_PUBLIC []
                  (start server_other_error) 1 OtherError
                  ltac:(unfold MAX_RETRIES; lia)
                  ltac:(intros i Hi; destruct i; [reflexivity|lia])
                  ltac:(left; reflexivity)
                  eq_refl)).
  reflexivity.
Defined.

Lemma parse_event_id_complete_witness :
  parse_event_id " 12 " = Ret (PyStr.decimal (PyStr.strip " 12 ")).
Proof.
  apply (proj1 (proj2 (parse_event_id_complete " 12 " eq_refl
                         ltac:(unfold default_max_str_digits; simpl; lia)))).
  - exact (search_event_none " 12 " eq_refl).
  - reflexivity.
Defined.

Lemma parse_event_id_round_trip_witness :
  parse_event_id (PyStr.of_Z 6489) = Ret 6489 /\
  parse_event_id (schedules_url 6489 "2025_Fall_Tip_Off/schedules") = Ret 6489.
Proof.
  apply (parse_event_id_round_trip 6489 "2025_Fall_Tip_Off/schedules").
  split; [lia|vm_compute; reflexivity].
Defined.

Lemma extractors_reject_non_records_witness :
  extract_time JNull = Raise AttributeError /\
  extract_location JNull = Raise AttributeError /\
  extract_court JNull = Raise AttributeError /\
  extract_home JNull = Raise AttributeError /\
  extract_away JNull = Raise AttributeError /\
  (forall div_name rows_written w,
      write_row div_name rows_written JNull w = (Raise AttributeError, w)).
Proof.
  apply (extractors_reject_non_records JNull). reflexivity.
Defined.

Lemma run_exit_witness :
  exists r evs,
    run no_repr 5 "6489" "schedules.csv" (Some "secret") None
      (start server_two_divisions)
    = (r, advance (start server_two_divisions)
            (List.length (requests_of evs)) evs) /\
    run_outcome 6489 "schedules.csv" r evs.
Proof.
  apply (run_exit no_repr 5 "6489" "schedules.csv" (Some "secret") None
           (start server_two_divisions) 6489).
  reflexivity.
Defined.

Lemma iter_matches_gives_up_witness :
  exists n evs,
    iter_matches sample_session 6489 11 collect 1 [] (start (always http_500))
    = (Ret ([] ++ List.concat []), advance (start (always http_500)) n evs) /\
    (n + clock (start (always http_500)) = MAX_RETRIES + 0)%nat /\
    yields_of evs = List.concat [] /\
    fetches_of evs = page_fetches 6489 11 1 1.
Proof.
  apply (iter_matches_gives_up sample_session 6489 11 [] 1 []
           (start (always http_500)) 0).
  - reflexivity.
  - constructor.
  - intros i _. reflexivity.
  - simpl. lia.
Defined.

Lemma iter_matches_malformed_page_witness :
  exists n evs,
    iter_matches sample_session 6489 11 collect 1 [] (start server_array)
    = (Raise AttributeError, advance (start server_array) n evs) /\
    1%nat = (n + clock (start server_array))%nat /\
    yields_of evs = List.concat [].
Proof.
  apply (proj1 (iter_matches_malformed_page sample_session 6489 11)
           [] 1%nat [] (start server_array) 0%nat 1%nat (JList [JInt 1])
           AttributeError).
  - reflexivity.
  - constructor.
  - reflexivity.
  - reflexivity.
  - simpl. lia.
Defined.

Lemma get_divisions_bad_record_witness :
  exists w',
    get_divisions no_repr sample_session 6489 (start server_bad_division)
    = (Raise AttributeError, w') /\
    clock w' = 1%nat.
Proof.
  apply (proj1 (get_divisions_bad_record no_repr sample_session 6489)
           (start server_bad_division)
           (tournament_response [JDict [("id", JInt 1)]; JStr "x"]) 1%nat
           [JDict [("id", JInt 1)]] [Some (1, JStr "Division 1")]
           (JStr "x") [] AttributeError).
  - reflexivity.
  - exists [("content",
             JDict [("tournament",
                     JDict [("divisions",
                             JList [JDict [("id", JInt 1)]; JStr "x"])])])],
      [("tournament",
        JDict [("divisions", JList [JDict [("id", JInt 1)]; JStr "x"])])],
      [("divisions", JList [JDict [("id", JInt 1)]; JStr "x"])].
    repeat split; reflexivity.
  - constructor; [reflexivity|constructor].
  - reflexivity.
Defined.

Lemma get_json_parse_errors_retried_witness :
  get_json sample_session BASE_PUBLIC [] (start server_garbled_once)
  = (Ret (JDict []),
     advance (start server_garbled_once) 2
       (EFetch BASE_PUBLIC []
        :: retry_events (request sample_session BASE_PUBLIC []) BACKOFF 1
        ++ [request sample_session BASE_PUBLIC []])).
Proof.
  apply (proj1 (get_json_parse_errors_retried sample_session BASE_PUBLIC []
                  (start server_garbled_once) 1
                  ltac:(unfold MAX_RETRIES; lia)
                  ltac:(intros i Hi; destruct i; [|lia]; right;
                        exists RequestsJSONDecodeError;
                        split; [exists 200, reported_url; split; reflexivity|reflexivity]))).
  exists 200, reported_url. split; reflexivity.
Defined.
